(** * daf_fmt_mysql: the catalog-to-SQL formatter, shallowly embedded

    The development follows [python/lsst/daf/fmt/mysql/afwTableSqlFormatter.py]
    and the identifier quoting of [mysqlStorage.py].  Python byte strings are
    Rocq [string]s, Python exceptions are the [Raise] case of [res], the
    statements sent over a connection are recorded in an explicit connection
    state, and Python sets and dicts are stdpp's [gset] and [gmap]. *)

From Stdlib Require Import ZArith Lia Ascii String List Bool.
From Stdlib Require Import SpecFloat.
From stdpp Require Import base gmap strings list.

Local Open Scope string_scope.

(** ** Exceptions and fallible results *)

Inductive exn : Type :=
| RuntimeError (msg : string)
| NotImplementedError
| TypeError
| AttributeError
| StructError
| OverflowError
| ProgrammingError (code : Z)
| ValueError
| IndexError
| KeyError
| OperationalError (code : Z)
| OutsideModel (what : string).

Inductive res (A : Type) : Type :=
| Ok (a : A)
| Raise (e : exn).
Arguments Ok {A} a.
Arguments Raise {A} e.

Definition res_bind {A B} (r : res A) (k : A -> res B) : res B :=
  match r with
  | Ok a => k a
  | Raise e => Raise e
  end.

Notation "'let?' x ':=' r 'in' k" := (res_bind r (fun x => k))
  (at level 10, x pattern, r at level 100, k at level 200).

Fixpoint res_map {A B} (f : A -> res B) (l : list A) : res (list B) :=
  match l with
  | [] => Ok []
  | a :: l' => let? b := f a in let? bs := res_map f l' in Ok (b :: bs)
  end.

(** ** Python string primitives *)

Module PyStr.

(** [c] is matched by the regular expression class [\w] of a Python 2
    pattern compiled without flags: an ASCII letter, digit or underscore. *)
Definition is_word (c : ascii) : bool :=
  let n := nat_of_ascii c in
  (((48 <=? n) && (n <=? 57)) || ((65 <=? n) && (n <=? 90))
   || ((97 <=? n) && (n <=? 122)) || (n =? 95))%nat.

Fixpoint map (f : ascii -> ascii) (s : string) : string :=
  match s with
  | EmptyString => EmptyString
  | String c s' => String (f c) (map f s')
  end.

(** [s.replace(c, by)] for a one-character pattern [c]. *)
Fixpoint replace_char (c : ascii) (by_ : string) (s : string) : string :=
  match s with
  | EmptyString => EmptyString
  | String d s' =>
      if Ascii.eqb d c then by_ ++ replace_char c by_ s'
      else String d (replace_char c by_ s')
  end.

(** [c in s] for a one-character string [c]. *)
Fixpoint contains_char (c : ascii) (s : string) : bool :=
  match s with
  | EmptyString => false
  | String d s' => Ascii.eqb d c || contains_char c s'
  end.

Fixpoint count_char (c : ascii) (s : string) : nat :=
  match s with
  | EmptyString => 0
  | String d s' => ((if Ascii.eqb d c then 1 else 0) + count_char c s')%nat
  end.

(** [s.startswith(p)] *)
Definition startswith (s p : string) : bool := String.prefix p s.

(** [s[n:]] *)
Fixpoint drop (n : nat) (s : string) : string :=
  match n, s with
  | O, _ => s
  | S n', String _ s' => drop n' s'
  | S _, EmptyString => EmptyString
  end.

(** [s[:-1]] *)
Fixpoint drop_last (s : string) : string :=
  match s with
  | EmptyString => EmptyString
  | String c EmptyString => EmptyString
  | String c s' => String c (drop_last s')
  end.

(** [sep.join(l)] *)
Fixpoint join (sep : string) (l : list string) : string :=
  match l with
  | [] => EmptyString
  | [x] => x
  | x :: l' => x ++ sep ++ join sep l'
  end.

Definition lower_char (c : ascii) : ascii :=
  let n := nat_of_ascii c in
  if ((65 <=? n) && (n <=? 90))%nat then ascii_of_nat (n + 32) else c.

(** [s.lower()] on a byte string (C locale). *)
Definition lower (s : string) : string := map lower_char s.

End PyStr.

(** ** Identifier and literal safety layer *)

(** [canonicalize_field_name]: [re.sub(r"[^\w]", "_", field_name)]. *)
Definition canonicalize_field_name (field_name : string) : string :=
  PyStr.map (fun c => if PyStr.is_word c then c else "_"%char) field_name.

(** [quote_mysql_identifier]: back-tick quoting, embedded back-ticks doubled. *)
Definition quote_mysql_identifier (identifier : string) : string :=
  "`" ++ PyStr.replace_char "`"%char "``" identifier ++ "`".

(** [MySqlStorage.identifierQuote] of [mysqlStorage.py]. *)
Definition identifierQuote (field : string) : res string :=
  if PyStr.contains_char "`"%char field
  then Raise (RuntimeError "Illegal ` character in field.")
  else Ok ("`" ++ field ++ "`").

(** [_testSqlIsClean]: a statement separator in the text is fatal. *)
Definition _testSqlIsClean (sql : string) : res unit :=
  if PyStr.contains_char ";"%char sql
  then Raise (RuntimeError "Illegal SQL.")
  else Ok tt.

(** ** Alias resolver *)

(** The innermost loop of [aliases_for]: [alias] stays valid unless a later
    mapping, whose source still extends [source], is a prefix of it.  [later]
    is [mappings[i + 1:]]. *)
Fixpoint alias_valid (source alias : string) (later : list (string * string))
  : bool :=
  match later with
  | [] => true
  | (s, _) :: rest =>
      if negb (PyStr.startswith s source) then true
      else if PyStr.startswith alias s then false
      else alias_valid source alias rest
  end.

(** The loop over [enumerate(mappings)] for one [name]: the aliases it adds,
    in the order of the mappings. *)
Fixpoint reverse_substitutions (name : string) (mappings : list (string * string))
  : list string :=
  match mappings with
  | [] => []
  | (source, target) :: later =>
      (if PyStr.startswith name target then
         let alias := source ++ PyStr.drop (String.length target) name in
         if alias_valid source alias later then [alias] else []
       else [])
      ++ reverse_substitutions name later
  end.

(** One round of reverse alias substitution: the value of [new_names] after
    the [for name in names] loop. *)
Definition substitution_round (mappings : list (string * string))
    (names : gset string) : gset string :=
  list_to_set (concat ((fun name => reverse_substitutions name mappings)
                         <$> elements names)).

(** The [while n < len(mappings) and len(names) > 0] loop; [rounds] is
    [len(mappings) - n]. *)
Fixpoint aliases_loop (rounds : nat) (mappings : list (string * string))
    (aliases names : gset string) : gset string :=
  match rounds with
  | O => aliases
  | S rounds' =>
      if decide (0 < size names)%nat then
        let new_names := substitution_round mappings names in
        aliases_loop rounds' mappings (aliases ∪ new_names) new_names
      else aliases
  end.

Definition aliases_for (name : string) (mappings : list (string * string))
  : gset string :=
  aliases_loop (length mappings) mappings ∅ {[ name ]}.

(** ** Python numbers *)

Module PyNum.

Local Open Scope Z_scope.

Definition digit_char (d : Z) : ascii := ascii_of_nat (48 + Z.to_nat d).

(** The [n] low decimal digits of [q], most significant first, in front of
    [acc]. *)
Fixpoint digits_of (n : nat) (q : Z) (acc : string) : string :=
  match n with
  | O => acc
  | S n' => digits_of n' (q / 10) (String (digit_char (q mod 10)) acc)
  end.

(** Number of decimal digits of [n >= 1]. *)
Fixpoint count_digits (fuel : nat) (n : Z) : Z :=
  match fuel with
  | O => 1
  | S fuel' => if n <? 10 then 1 else 1 + count_digits fuel' (n / 10)
  end.

Definition ndigits (n : Z) : Z := count_digits (Z.to_nat (Z.log2 n)) n.

(** [str(n)] for a Python integer. *)
Definition str_int (z : Z) : string :=
  let a := Z.abs z in
  (if z <? 0 then "-" else "") ++ digits_of (Z.to_nat (ndigits a)) a "".

(** Zeros after the decimal point of [num / den < 1] before its first
    significant digit. *)
Fixpoint leading_zeros (fuel : nat) (num den : Z) : Z :=
  match fuel with
  | O => 0
  | S fuel' =>
      if den <=? num * 10 then 0
      else 1 + leading_zeros fuel' (num * 10) den
  end.

(** Position of the decimal point of [num / den > 0]: the [decpt] with
    [10 ^ (decpt - 1) <= num / den < 10 ^ decpt]. *)
Definition decimal_point (num den : Z) : Z :=
  if den <=? num then ndigits (num / den)
  else - leading_zeros (Z.to_nat (Z.log2 den)) num den.

(** Nearest integer to [n / d], ties to even. *)
Definition round_half_even (n d : Z) : Z :=
  let q := n / d in
  match (2 * (n mod d)) ?= d with
  | Lt => q
  | Gt => q + 1
  | Eq => if Z.even q then q else q + 1
  end.

(** [num / den * 10 ^ k] rounded to an integer. *)
Definition scaled_round (num den k : Z) : Z :=
  if 0 <=? k then round_half_even (num * 10 ^ k) den
  else round_half_even num (den * 10 ^ (- k)).

(** Correctly rounded conversion of [num / den > 0] to [P] significant
    decimal digits: the integer [q] of exactly [P] digits and the position
    [decpt] of the decimal point, the value printed being
    [q * 10 ^ (decpt - P)]. *)
Definition decimal_round (P : Z) (num den : Z) : Z * Z :=
  let decpt := decimal_point num den in
  let q := scaled_round num den (P - decpt) in
  if q =? 10 ^ P then (10 ^ (P - 1), decpt + 1) else (q, decpt).

Fixpoint strip_trailing_zeros (s : string) : string :=
  match s with
  | EmptyString => EmptyString
  | String c s' =>
      match strip_trailing_zeros s' with
      | EmptyString => if Ascii.eqb c "0" then EmptyString else String c EmptyString
      | t => String c t
      end
  end.

Fixpoint zeros (n : nat) : string :=
  match n with
  | O => EmptyString
  | S n' => String "0" (zeros n')
  end.

Fixpoint take (n : nat) (s : string) : string :=
  match n, s with
  | S n', String c s' => String c (take n' s')
  | _, _ => EmptyString
  end.

(** The exponent of the exponential presentation: a sign and at least two
    digits. *)
Definition exponent_text (e : Z) : string :=
  let a := Z.abs e in
  (if e <? 0 then "-" else "+")
  ++ (if a <? 10 then "0" else "") ++ str_int a.

(** Presentation type [g] with precision [P], for the digits of a value
    [0.d1d2... * 10 ^ decpt]. *)
Definition layout_g (P : Z) (neg : bool) (digits : string) (decpt : Z)
  : string :=
  let sign := if neg then "-" else "" in
  let nd := Z.of_nat (String.length digits) in
  if (decpt <=? -4) || (P <? decpt) then
    sign ++ take 1 digits
    ++ (if 1 <? nd then "." ++ PyStr.drop 1 digits else "")
    ++ "e" ++ exponent_text (decpt - 1)
  else if decpt <=? 0 then
    sign ++ "0." ++ zeros (Z.to_nat (- decpt)) ++ digits
  else if nd <=? decpt then
    sign ++ digits ++ zeros (Z.to_nat (decpt - nd))
  else
    sign ++ take (Z.to_nat decpt) digits ++ "."
    ++ PyStr.drop (Z.to_nat decpt) digits.

(** The rational [num / den] of a finite mantissa and binary exponent. *)
Definition dyadic (m : positive) (e : Z) : Z * Z :=
  if 0 <=? e then (Zpos m * 2 ^ e, 1) else (Zpos m, 2 ^ (- e)).

(** ["{:.Pg}".format(x)] for a Python float [x]. *)
Definition format_g (P : Z) (x : spec_float) : string :=
  match x with
  | S754_zero s => layout_g P s "0" 1
  | S754_infinity s => if s then "-inf" else "inf"
  | S754_nan => "nan"
  | S754_finite s m e =>
      let '(num, den) := dyadic m e in
      let '(q, decpt) := decimal_round P num den in
      layout_g P s (strip_trailing_zeros (digits_of (Z.to_nat P) q "")) decpt
  end.

(** [math.isnan] and [math.isinf] *)
Definition isnan (x : spec_float) : bool :=
  match x with S754_nan => true | _ => false end.
Definition isinf (x : spec_float) : bool :=
  match x with S754_infinity _ => true | _ => false end.

(** Python floats are IEEE 754 binary64 numbers. *)
Definition prec64 : Z := 53.
Definition emax64 : Z := 1024.
Definition prec32 : Z := 24.
Definition emax32 : Z := 128.

(** [float(z)] *)
Definition float_of_int (z : Z) : spec_float :=
  binary_normalize prec64 emax64 z 0 false.

(** Rounding of a binary64 number to binary32, the conversion applied by
    [struct.pack] for the format character [f]. *)
Definition to_binary32 (x : spec_float) : spec_float :=
  match x with
  | S754_finite s m e =>
      binary_normalize prec32 emax32 (cond_Zopp s (Zpos m)) e s
  | _ => x
  end.

(** The IEEE 754 interchange encoding of a canonical number of precision
    [prec] and exponent bound [emax], as an unsigned integer. *)
Definition bits_of (prec emax : Z) (x : spec_float) : Z :=
  let mbits := prec - 1 in
  let sign_bit (s : bool) := if s then 2 ^ (mbits + Z.log2 emax + 1) else 0 in
  let all_ones := 2 * emax - 1 in
  match x with
  | S754_zero s => sign_bit s
  | S754_infinity s => sign_bit s + all_ones * 2 ^ mbits
  | S754_nan => all_ones * 2 ^ mbits + 2 ^ (mbits - 1)
  | S754_finite s m e =>
      if 2 ^ mbits <=? Zpos m
      then sign_bit s + (e + emax + mbits - 1) * 2 ^ mbits + (Zpos m - 2 ^ mbits)
      else sign_bit s + Zpos m
  end.

End PyNum.

(** ** Field values and the formatter registry *)

(** The value of a record field as [row.get(k)] returns it (the null marker
    [None] is the [None] of [option value]).  A Python float is a binary64
    number; an [Angle] holds its size in radians. *)
#[warnings="-register-all"]
Inductive value : Type :=
| VInt (z : Z)
| VFloat (x : spec_float)
| VBool (b : bool)
| VAngle (radians : spec_float)
| VStr (s : string)
| VArray (xs : list value).

(** A field descriptor, as far as [getName], [getTypeString] and [getSize]
    show it. *)
Record Field : Type := mkField {
  getName : string;
  getTypeString : string;
  getSize : Z;
}.

Record FieldFormatter : Type := mkFieldFormatter {
  sql_type_callable : Field -> res string;
  format_value_callable : value -> res string;
}.

(** [FieldFormatter.sql_type] *)
Definition sql_type (f : FieldFormatter) (field : Field) : res string :=
  sql_type_callable f field.

(** [FieldFormatter.format_value] *)
Definition format_value (f : FieldFormatter) (v : option value) : res string :=
  match v with
  | None => Ok "NULL"
  | Some v => format_value_callable f v
  end.

(** [_format_number]; the format string ["{:.Pg}"] is given by its precision.
    [math.isnan] raises [TypeError] on what is not a number and
    [OverflowError] on an integer too large for a float. *)
Definition _format_number (precision : Z) (number : value) : res string :=
  match number with
  | VFloat x =>
      if PyNum.isnan x || PyNum.isinf x then Ok "NULL"
      else Ok (PyNum.format_g precision x)
  | VInt z =>
      let x := PyNum.float_of_int z in
      if PyNum.isinf x then Raise OverflowError
      else Ok (PyNum.format_g precision x)
  | VBool b =>
      Ok (PyNum.format_g precision (PyNum.float_of_int (if b then 1 else 0)))
  | _ => Raise TypeError
  end.

(** [_format_string] *)
Definition _format_string (v : value) : res string :=
  match v with
  | VStr s =>
      Ok ("'" ++ PyStr.replace_char "'"%char "\'"
                   (PyStr.replace_char "\"%char "\\" s) ++ "'")
  | _ => Raise AttributeError
  end.

(** The format characters of [struct] that the registry uses. *)
Inductive format_char : Type := fmt_H | fmt_i | fmt_f | fmt_d.

(** [struct.calcsize("<" + format_char)] *)
Definition calcsize (c : format_char) : Z :=
  match c with
  | fmt_H => 2
  | fmt_i => 4
  | fmt_f => 4
  | fmt_d => 8
  end.

Definition hex_digit (d : Z) : ascii :=
  if (d <? 10)%Z then ascii_of_nat (48 + Z.to_nat d)
  else ascii_of_nat (87 + Z.to_nat d).

(** The [width] bytes of [z], least significant first, each as two lower-case
    hexadecimal digits: [struct.pack] in little-endian order followed by
    [encode("hex_codec")]. *)
Fixpoint hex_le (width : nat) (z : Z) : string :=
  match width with
  | O => EmptyString
  | S width' =>
      let b := (z mod 256)%Z in
      String (hex_digit (b / 16)) (String (hex_digit (b mod 16))
        (hex_le width' (z / 256)))
  end.

Definition as_float (v : value) : res spec_float :=
  match v with
  | VFloat x => Ok x
  | VInt z =>
      let x := PyNum.float_of_int z in
      if PyNum.isinf x then Raise OverflowError else Ok x
  | VBool b => Ok (PyNum.float_of_int (if b then 1 else 0))
  | _ => Raise StructError
  end.

Definition as_int (v : value) : res Z :=
  match v with
  | VInt z => Ok z
  | VBool b => Ok (if b then 1 else 0)%Z
  | _ => Raise StructError
  end.

(** One element packed by [struct.pack("<" + format_char, v)], in hex. *)
Definition pack_element (c : format_char) (v : value) : res string :=
  match c with
  | fmt_H =>
      let? z := as_int v in
      if ((0 <=? z) && (z <=? 65535))%Z then Ok (hex_le 2 z)
      else Raise StructError
  | fmt_i =>
      let? z := as_int v in
      if ((- 2147483648 <=? z) && (z <=? 2147483647))%Z
      then Ok (hex_le 4 (z mod 4294967296))
      else Raise StructError
  | fmt_f =>
      let? x := as_float v in
      let y := PyNum.to_binary32 x in
      if PyNum.isinf y && negb (PyNum.isinf x) then Raise OverflowError
      else Ok (hex_le 4 (PyNum.bits_of PyNum.prec32 PyNum.emax32 y))
  | fmt_d =>
      let? x := as_float v in
      Ok (hex_le 8 (PyNum.bits_of PyNum.prec64 PyNum.emax64 x))
  end.

(** [_format_array] *)
Definition _format_array (c : format_char) (array : value) : res string :=
  match array with
  | VArray xs =>
      let? packed := res_map (pack_element c) xs in
      Ok ("x'" ++ String.concat "" packed ++ "'")
  | _ => Raise TypeError
  end.

(** [_sql_type_for_string] *)
Definition _sql_type_for_string (field : Field) : res string :=
  let sz := getSize field in
  if (65535 <? sz)%Z then
    Raise (RuntimeError "String field is too large for ingestion")
  else if (sz =? 0)%Z then
    Raise (RuntimeError "String field has zero size")
  else
    Ok ("VARCHAR(" ++ PyNum.str_int sz
        ++ ") CHARACTER SET ascii COLLATE ascii_bin NOT NULL").

(** [_sql_type_for_array] *)
Definition _sql_type_for_array (c : format_char) (field : Field) : res string :=
  let sz := getSize field in
  if (sz =? 0)%Z then Ok "BLOB NOT NULL"
  else
    let sz := (sz * calcsize c)%Z in
    if (65535 <? sz)%Z then
      Raise (RuntimeError "Array field is too large for ingestion")
    else Ok ("BINARY(" ++ PyNum.str_int sz ++ ") NOT NULL").

(** [str(x)] of a Python 2 float: twelve significant digits, and [.0]
    after what would read as an integer. *)
Definition str_float (x : spec_float) : string :=
  let text := PyNum.format_g 12 x in
  match x with
  | S754_nan | S754_infinity _ => text
  | _ =>
      if PyStr.contains_char "." text || PyStr.contains_char "e" text
      then text else text ++ ".0"
  end.

(** [str(v)]; what it gives for an angle or an array is decided by classes
    outside this package. *)
Definition py_str (v : value) : res string :=
  match v with
  | VInt z => Ok (PyNum.str_int z)
  | VFloat x => Ok (str_float x)
  | VStr s => Ok s
  | VBool b => Ok (if b then "True" else "False")
  | _ => Raise (OutsideModel "str of an angle or an array")
  end.

(** Truth value of a flag field value. *)
Definition py_truth (v : value) : bool :=
  match v with
  | VBool b => b
  | VInt z => negb (z =? 0)%Z
  | VFloat x => match x with S754_zero _ => false | _ => true end
  | VAngle _ => true
  | VStr s => negb (String.eqb s "")
  | VArray xs => match xs with [] => false | _ => true end
  end.

(** [math.pi / 180] as a binary64 number: the multiplier of the unit
    [degrees] of the [Angle] class. *)
Definition degrees_mul : spec_float :=
  S754_finite false 5030569068109113 (-58).

(** [Angle.asDegrees]: the radians divided by the multiplier of the unit. *)
Definition asDegrees (radians : spec_float) : spec_float :=
  SFdiv PyNum.prec64 PyNum.emax64 radians degrees_mul.

Definition format_angle (v : value) : res string :=
  match v with
  | VAngle radians => _format_number 17 (VFloat (asDegrees radians))
  | _ => Raise AttributeError
  end.

(** The entries of [field_formatters], in the order of the source. *)
Definition formatter_table : list (string * FieldFormatter) :=
  [ ("U", mkFieldFormatter (fun f => Ok "SMALLINT UNSIGNED NOT NULL") py_str);
    ("I", mkFieldFormatter (fun f => Ok "INT NOT NULL") py_str);
    ("L", mkFieldFormatter (fun f => Ok "BIGINT NOT NULL") py_str);
    ("F", mkFieldFormatter (fun f => Ok "FLOAT") (_format_number 9));
    ("D", mkFieldFormatter (fun f => Ok "DOUBLE") (_format_number 17));
    ("Flag", mkFieldFormatter (fun f => Ok "BIT NOT NULL")
               (fun v => Ok (if py_truth v then "1" else "0")));
    ("Angle", mkFieldFormatter (fun f => Ok "DOUBLE") format_angle);
    ("String", mkFieldFormatter _sql_type_for_string _format_string);
    ("ArrayU", mkFieldFormatter (_sql_type_for_array fmt_H) (_format_array fmt_H));
    ("ArrayI", mkFieldFormatter (_sql_type_for_array fmt_i) (_format_array fmt_i));
    ("ArrayF", mkFieldFormatter (_sql_type_for_array fmt_f) (_format_array fmt_f));
    ("ArrayD", mkFieldFormatter (_sql_type_for_array fmt_d) (_format_array fmt_d)) ].

(** [field_formatters]: the dict from field type strings to formatters. *)
Definition field_formatters : gmap string FieldFormatter :=
  list_to_map formatter_table.

(** ** Schemas, catalogs and the task configuration *)

Record SchemaItem : Type := mkSchemaItem {
  key : nat;
  field : Field;
}.

(** A schema: its items in insertion order and its alias map. *)
Record Schema : Type := mkSchema {
  items : list SchemaItem;
  getAliasMap : gmap string string;
}.

(** A record, as [row.get(k)] reads it. *)
Definition Row : Type := nat -> option value.

Record Catalog : Type := mkCatalog {
  schema : Schema;
  rows : list Row;
}.

(** [IngestCatalogConfig] *)
Record IngestCatalogConfig : Type := mkConfig {
  allow_replace : bool;
  max_query_len : option Z;
  max_column_len : Z;
  id_field_name : option string;
  remap : gmap string string;
  extra_columns : string;
}.

Definition default_config : IngestCatalogConfig :=
  {| allow_replace := false;
     max_query_len := None;
     max_column_len := 64;
     id_field_name := None;
     remap := ∅;
     extra_columns := "" |}.

Definition MYSQL_ER_TABLE_EXISTS_ERROR : Z := 1050.

Definition nl : string := String (ascii_of_nat 10) EmptyString.
Definition tab : string := String (ascii_of_nat 9) EmptyString.

Definition len (s : string) : Z := Z.of_nat (String.length s).

(** Byte-wise order of Python 2 strings. *)
Fixpoint str_leb (a b : string) : bool :=
  match a, b with
  | EmptyString, _ => true
  | String _ _, EmptyString => false
  | String x a', String y b' =>
      if (nat_of_ascii x <? nat_of_ascii y)%nat then true
      else if (nat_of_ascii y <? nat_of_ascii x)%nat then false
      else str_leb a' b'
  end.

Definition pair_leb (p q : string * string) : bool :=
  if String.eqb (fst p) (fst q) then str_leb (snd p) (snd q)
  else str_leb (fst p) (fst q).

Fixpoint insert_sorted {A} (leb : A -> A -> bool) (x : A) (l : list A) : list A :=
  match l with
  | [] => [x]
  | y :: l' => if leb x y then x :: l else y :: insert_sorted leb x l'
  end.

(** [sorted(l)] *)
Definition sorted {A} (leb : A -> A -> bool) (l : list A) : list A :=
  foldr (insert_sorted leb) [] l.

(** [isspace] of the C locale: the space and the characters 9 to 13. *)
Definition is_space (c : ascii) : bool :=
  let n := nat_of_ascii c in ((n =? 32) || ((9 <=? n) && (n <=? 13)))%nat.

(** [s] without the white space at its front. *)
Fixpoint lstrip (s : string) : string :=
  match s with
  | EmptyString => EmptyString
  | String c s' => if is_space c then lstrip s' else s
  end.

(** [s] without the white space at its end. *)
Fixpoint rstrip (s : string) : string :=
  match s with
  | EmptyString => EmptyString
  | String c s' =>
      match rstrip s' with
      | EmptyString => if is_space c then EmptyString else String c EmptyString
      | r => String c r
      end
  end.

(** The decimal digits of [s], read into [acc]; anything else in [s] is
    an error. *)
Fixpoint int_digits (s : string) (acc : Z) : res Z :=
  match s with
  | EmptyString => Ok acc
  | String c s' =>
      let n := nat_of_ascii c in
      if ((48 <=? n) && (n <=? 57))%nat
      then int_digits s' (10 * acc + Z.of_nat (n - 48))%Z
      else Raise ValueError
  end.

(** [int(s)] for a byte string: white space around the text is skipped,
    a sign may precede the digits, and there is at least one digit. *)
Definition py_int (s : string) : res Z :=
  match rstrip (lstrip s) with
  | EmptyString => Raise ValueError
  | String "-" (String c s') => let? z := int_digits (String c s') 0 in Ok (- z)%Z
  | String "+" (String c s') => int_digits (String c s') 0
  | s' => int_digits s' 0
  end.

(** [_column_name] *)
Definition _column_name (config : IngestCatalogConfig) (field_name : string)
  : string :=
  match remap config !! field_name with
  | Some column => column
  | None => canonicalize_field_name field_name
  end.

(** [_column_def] *)
Definition _column_def (config : IngestCatalogConfig) (f : Field) : res string :=
  match field_formatters !! getTypeString f with
  | Some formatter =>
      let? ty := sql_type formatter f in
      Ok (_column_name config (getName f) ++ " " ++ ty)
  | None => Raise KeyError
  end.

(** ** Connections *)

(** What a run leaves behind, in order: the statements sent to the server,
    the commit and the close of the connection, and the log records (format
    string and arguments, as passed to the logger). *)
Inductive event : Type :=
| Query (sql : string)
| Commit
| Close
| LogWarn (fmt : string) (args : list string)
| LogDebug (fmt : string) (args : list string).

Definition is_query (ev : event) : bool :=
  match ev with Query _ => true | _ => false end.

(** The statements of a trace, in order. *)
Definition queries (tr : list event) : list string :=
  omap (fun ev => match ev with Query sql => Some sql | _ => None end) tr.

Section Connection.

(** The database server, with whatever other clients do to it between two
    statements, is a transition system that answers each statement with
    result rows or with an exception. *)
Variable ServerState : Type.
Variable server_exec :
  ServerState -> string -> ServerState * res (list (list string)).

Record conn : Type := mkConn {
  server : ServerState;
  trace : list event;
}.

(** Computations on a connection that may raise. *)
Definition M (A : Type) : Type := conn -> conn * res A.

Definition ret {A} (a : A) : M A := fun c => (c, Ok a).
Definition raise {A} (e : exn) : M A := fun c => (c, Raise e).
Definition lift {A} (r : res A) : M A := fun c => (c, r).

Definition bind {A B} (m : M A) (k : A -> M B) : M B :=
  fun c =>
    match m c with
    | (c', Ok a) => k a c'
    | (c', Raise e) => (c', Raise e)
    end.

Notation "x <- m ;; k" := (bind m (fun x => k))
  (at level 100, m at next level, right associativity).
Notation "m ;;; k" := (bind m (fun _ => k))
  (at level 100, right associativity).

Definition emit (ev : event) : M unit :=
  fun c => (mkConn (server c) (trace c ++ [ev]), Ok tt).

(** [cursor.execute(sql)] and [conn.query(sql)] *)
Definition execute (sql : string) : M (list (list string)) :=
  fun c =>
    let '(s', r) := server_exec (server c) sql in
    (mkConn s' (trace c ++ [Query sql]), r).

Fixpoint foldM {A B} (f : B -> A -> M B) (l : list A) (b : B) : M B :=
  match l with
  | [] => ret b
  | a :: l' => b' <- f b a ;; foldM f l' b'
  end.

Variable config : IngestCatalogConfig.

(** [_execute_sql] *)
Definition _execute_sql (sql : string) : M unit :=
  emit (LogDebug sql []) ;;; _ <- execute sql ;; ret tt.

(** One step of the generator [_schema_items]: the item is yielded
    ([None]) or skipped with a warning. *)
Definition schema_item_skipped (item : SchemaItem) : option event :=
  let f := field item in
  match field_formatters !! getTypeString f with
  | None =>
      Some (LogWarn "Skipping field %s: type %s not supported"
              [getName f; getTypeString f])
  | Some _ =>
      let column := _column_name config (getName f) in
      if (max_column_len config <? len column)%Z then
        Some (LogWarn "Skipping field %s: column name %d too long"
                [getName f; column])
      else None
  end.

(** [_schema_items], run to its end: the ingestible items. *)
Definition _schema_items (sch : Schema) : M (list SchemaItem) :=
  foldM (fun acc item =>
           match schema_item_skipped item with
           | Some warning => emit warning ;;; ret acc
           | None => ret (acc ++ [item])%list
           end) (items sch) [].

(** *** Table creation *)

(** The dict [equivalence_classes] after the loop
    [setdefault(name.lower(), []).append(name)], as an association list
    in the order in which the keys were first inserted. *)
Fixpoint setdefault_append (k name : string) (d : list (string * list string))
  : list (string * list string) :=
  match d with
  | [] => [(k, [name])]
  | (k', names) :: d' =>
      if String.eqb k' k then (k', (names ++ [name])%list) :: d'
      else (k', names) :: setdefault_append k name d'
  end.

Definition equivalence_classes (names : list string)
  : list (string * list string) :=
  fold_left (fun d name => setdefault_append (PyStr.lower name) name d)
    names [].

(** The text [clashes]: one group per class of more than one name.  The
    groups are listed here in the order of the association list; the
    source lists them as [itervalues()] of a Python 2 dict does, which is
    the order of the hash table and need not be that of insertion.  Which
    groups there are, the names in a group and their order, and whether
    the text is empty do not depend on it; the order of the groups in the
    text is not relied upon. *)
Definition clashes (names : list string) : string :=
  PyStr.join ("," ++ nl)
    (List.map (fun c => tab ++ "{" ++ PyStr.join ", " c ++ "}")
       (List.filter (fun c => (1 <? length c)%nat)
          (List.map snd (equivalence_classes names)))).

Definition clash_message (clashes : string) : string :=
  "Schema contains columns that differ only by non-word "
  ++ "characters and/or case:" ++ nl ++ clashes ++ nl
  ++ "In the database, these cannot "
  ++ "be distinguished and hence result in column name duplicates. "
  ++ "Use the remap configuration parameter to resolve this "
  ++ "ambiguity.".

(** [_create_table].  [tableName] is the candidate name that
    [tempfile._get_candidate_names()] draws. *)
Definition _create_table (tableName : string) (sch : Schema) : M string :=
  its <- _schema_items sch ;;
  let fields := List.map field its in
  let names := List.map getName fields in
  let clashes := clashes names in
  if negb (String.eqb clashes "") then
    raise (RuntimeError (clash_message clashes))
  else
    defs <- lift (res_map (_column_def config) fields) ;;
    let sql := "CREATE TABLE " ++ tableName ++ " (" ++ nl ++ tab in
    let sql := sql ++ PyStr.join ("," ++ nl ++ tab) defs in
    let sql :=
      if negb (String.eqb (extra_columns config) "")
      then sql ++ "," ++ nl ++ tab ++ extra_columns config else sql in
    sql <-
      match id_field_name config with
      | Some id =>
          if String.eqb id "" then ret sql
          else if existsb (String.eqb id) names then
            ret (sql ++ "," ++ nl ++ tab ++ "UNIQUE("
                 ++ _column_name config id ++ ")")
          else
            emit (LogWarn
                    ("No field matches the configured unique ID field name "
                     ++ "(%s)") [id]) ;;; ret sql
      | None => ret sql
      end ;;
    let sql := sql ++ nl ++ ")" in
    _execute_sql sql ;;;
    ret tableName.

(** *** View creation *)

Definition first_column (row : list string) : res string :=
  match row with
  | [] => Raise IndexError
  | x :: _ => Ok x
  end.

(** The body of the loop over the aliases of one column in
    [_create_view]. *)
Definition view_aliases (column : string) (aliases : list string)
    (sql : string) : M string :=
  foldM (fun sql a =>
           let alias := _column_name config a in
           if (max_column_len config <? len alias)%Z then
             emit (LogWarn "Skipping alias %s for %d: alias too long"
                     [alias; column]) ;;; ret sql
           else
             ret (sql ++ "," ++ nl ++ tab ++ column ++ " AS " ++ alias))
    aliases sql.

(** [_create_view] *)
Definition _create_view (table_name view_name : string) (sch : Schema)
  : M unit :=
  let sql := "CREATE OR REPLACE "
             ++ "ALGORITHM = MERGE SQL SECURITY INVOKER "
             ++ "VIEW " ++ view_name ++ " AS SELECT" ++ nl ++ tab in
  shown <- execute ("SHOW COLUMNS FROM " ++ table_name) ;;
  column_names <- lift (res_map first_column shown) ;;
  let sql := sql ++ PyStr.join ("," ++ nl ++ tab) column_names in
  let mappings := sorted pair_leb (map_to_list (getAliasMap sch)) in
  sql <-
    foldM (fun sql item =>
             match schema_item_skipped item with
             | Some warning => emit warning ;;; ret sql
             | None =>
                 let field_name := getName (field item) in
                 let aliases :=
                   sorted str_leb (elements (aliases_for field_name mappings)) in
                 let column := _column_name config field_name in
                 view_aliases column aliases sql
             end) (items sch) sql ;;
  let sql := sql ++ nl ++ "FROM " in
  let sql := sql ++ table_name in
  _execute_sql sql.

(** *** Batch ingestion *)

(** The text [value] of one row: the formatted values in parentheses,
    followed by the separator. *)
Definition row_literal (keys : list (nat * FieldFormatter)) (row : Row)
  : res string :=
  let? values := res_map (fun '(k, f) => format_value f (row k)) keys in
  Ok ("(" ++ PyStr.join "," values ++ "),").

(** The inner loop of [_do_ingest] on [cat[pos:]]: rows are appended to
    [sql] while [max_value_len] does not become negative.  The result is
    the statement text and the rows that are left, [cat[pos':]]. *)
Fixpoint fill_statement (keys : list (nat * FieldFormatter))
    (remaining : list Row) (sql : string) (max_value_len : Z)
  : res (string * list Row) :=
  match remaining with
  | [] => Ok (sql, [])
  | row :: rest =>
      let? value := row_literal keys row in
      let max_value_len := (max_value_len - len value)%Z in
      if (max_value_len <? 0)%Z then Ok (sql, remaining)
      else fill_statement keys rest (sql ++ value) max_value_len
  end.

(** The outer loop of [_do_ingest] on [cat[pos:]].  Each turn either
    raises or consumes a row, so [fuel = len(cat)] turns are enough. *)
Fixpoint ingest_loop (fuel : nat) (keys : list (nat * FieldFormatter))
    (sql_prefix : string) (max_query_len : Z) (remaining : list Row)
  : M unit :=
  match remaining with
  | [] => ret tt
  | _ :: _ =>
      match fuel with
      | O => raise (OutsideModel "out of fuel")
      | S fuel' =>
          let max_value_len := (max_query_len - len sql_prefix)%Z in
          filled <-
            lift (fill_statement keys remaining sql_prefix max_value_len) ;;
          let '(sql, rest) := filled in
          if (length rest =? length remaining)%nat then
            raise (RuntimeError "Single row is too large to insert")
          else
            _execute_sql (PyStr.drop_last sql) ;;;
            ingest_loop fuel' keys sql_prefix max_query_len rest
      end
  end.

(** The statement prefix of [_do_ingest] and its list [keys]. *)
Definition ingest_prefix (table_name : string) (its : list SchemaItem)
  : string :=
  let sql_prefix := if allow_replace config then "REPLACE" else "INSERT" in
  let sql_prefix := sql_prefix ++ " INTO " ++ table_name ++ " (" in
  let column_names :=
    List.map (fun item => _column_name config (getName (field item))) its in
  let sql_prefix := sql_prefix ++ PyStr.join "," column_names in
  sql_prefix ++ ") VALUES ".

Definition ingest_keys (its : list SchemaItem)
  : res (list (nat * FieldFormatter)) :=
  res_map (fun item =>
             match field_formatters !! getTypeString (field item) with
             | Some f => Ok (key item, f)
             | None => Raise KeyError
             end) its.

(** [_do_ingest] *)
Definition _do_ingest (cat : Catalog) (table_name : string)
    (max_query_len : Z) : M unit :=
  its <- _schema_items (schema cat) ;;
  keys <- lift (ingest_keys its) ;;
  let sql_prefix := ingest_prefix table_name its in
  ingest_loop (length (rows cat)) keys sql_prefix max_query_len (rows cat) ;;;
  emit Commit.

(** *** Renaming *)

(** The loop [for i in range(num_tries)] of [_rename_table]: [true] when
    a rename went through (the [return]), [false] when the tries are used
    up. *)
Fixpoint rename_loop (tries : nat) (from_name to_name : string) : M bool :=
  match tries with
  | O => ret false
  | S tries' =>
      fun c =>
        match execute ("RENAME TABLE " ++ from_name ++ " TO " ++ to_name) c with
        | (c', Ok _) => (c', Ok true)
        | (c', Raise (OperationalError code)) =>
            if (code =? MYSQL_ER_TABLE_EXISTS_ERROR)%Z then
              (_ <- execute ("DROP TABLE " ++ to_name) ;;
               rename_loop tries' from_name to_name) c'
            else rename_loop tries' from_name to_name c'
        | (c', Raise e) => (c', Raise e)
        end
  end.

Definition num_tries : nat := 3.

(** [_rename_table] *)
Definition _rename_table (from_name to_name : string) : M unit :=
  lift (_testSqlIsClean from_name) ;;;
  lift (_testSqlIsClean to_name) ;;;
  renamed <- rename_loop num_tries from_name to_name ;;
  if renamed : bool then ret tt
  else
    emit (LogWarn
            ("Could not rename temp table to final dataset name "
             ++ to_name ++ ", "
             ++ "perhaps another process is thrashing against this one?") []).

(** *** Ingestion *)

Definition max_allowed_packet_query : string :=
  "SELECT variable_value" ++ nl
  ++ "                        FROM information_schema.session_variables" ++ nl
  ++ "                        WHERE variable_name = 'max_allowed_packet'" ++ nl
  ++ "                        ".

(** [cursor.fetchone()[0]] *)
Definition fetchone_0 (result : list (list string)) : res string :=
  match result with
  | [] => Raise TypeError
  | row :: _ => first_column row
  end.

(** The body of [_ingest] under [with closing(...) as conn]. *)
Definition ingest_body (tempTableName : string) (cat : Catalog)
    (table_name : string) (view_name : option string) : M unit :=
  max_query_len <-
    match max_query_len config with
    | None =>
        result <- execute max_allowed_packet_query ;;
        v <- lift (fetchone_0 result) ;;
        lift (py_int v)
    | Some n => ret n
    end ;;
  emit (LogDebug "max_query_len: %d" [PyNum.str_int max_query_len]) ;;;
  tempTableName <- _create_table tempTableName (schema cat) ;;
  match view_name with
  | Some view_name => _create_view tempTableName view_name (schema cat)
  | None => ret tt
  end ;;;
  _do_ingest cat tempTableName max_query_len ;;;
  _rename_table tempTableName table_name.

(** [_ingest]; the connection is closed on every way out. *)
Definition _ingest (tempTableName : string) (cat : Catalog)
    (table_name : string) (view_name : option string) : M unit :=
  let table_name := quote_mysql_identifier table_name in
  let view_name :=
    match view_name with
    | Some v => if String.eqb v "" then None else Some (quote_mysql_identifier v)
    | None => None
    end in
  fun c =>
    let '(c', r) := ingest_body tempTableName cat table_name view_name c in
    (mkConn (server c') (trace c' ++ [Close]), r).

(** [write] *)
Definition write (tempTableName : string) (obj : Catalog)
    (table_name : string) (view_name : option string) : M unit :=
  _ingest tempTableName obj table_name view_name.

End Connection.

Arguments mkConn {ServerState} server trace.
Arguments server {ServerState} c.
Arguments trace {ServerState} c.
Arguments ret {ServerState A} a c.
Arguments raise {ServerState A} e c.
Arguments lift {ServerState A} r c.
Arguments bind {ServerState A B} m k c.
Arguments foldM {ServerState A B} f l b c.
Arguments emit {ServerState} ev c.
Arguments execute {ServerState} server_exec sql c.
Arguments _execute_sql {ServerState} server_exec sql c.
Arguments _schema_items {ServerState} config sch c.
Arguments _create_table {ServerState} server_exec config tableName sch c.
Arguments _create_view {ServerState} server_exec config table_name view_name sch c.
Arguments ingest_loop {ServerState} server_exec fuel keys sql_prefix max_query_len remaining c.
Arguments _do_ingest {ServerState} server_exec config cat table_name max_query_len c.
Arguments rename_loop {ServerState} server_exec tries from_name to_name c.
Arguments _rename_table {ServerState} server_exec from_name to_name c.
Arguments ingest_body {ServerState} server_exec config tempTableName cat table_name view_name c.
Arguments _ingest {ServerState} server_exec config tempTableName cat table_name view_name c.
Arguments write {ServerState} server_exec config tempTableName obj table_name view_name c.

(** ** Retrieval: from type codes to Python types *)

(** The class objects that [_egest_getType] can return. *)
Inductive pytype : Type := py_float.

(** The names of the module [MySQLdb] that [_egest_getType] compares with a
    type code, each given by its comparison [X == typecode].  These are the
    names that the module has; it has no name [SQL]. *)
Record TypeObjects : Type := mkTypeObjects {
  Date : Z -> bool;
  Time : Z -> bool;
  Timestamp : Z -> bool;
  DateFromTicks : Z -> bool;
  TimeFromTicks : Z -> bool;
  TimestampFromTicks : Z -> bool;
  Binary : Z -> bool;
  STRING : Z -> bool;
  BINARY : Z -> bool;
  NUMBER : Z -> bool;
  DATETIME : Z -> bool;
  ROWID : Z -> bool;
}.

(** [_egest_getType].  The last test of the chain is [MySQLdb.SQL ==
    typecode]: the module has no attribute [SQL], so evaluating the test
    raises [AttributeError], and the end of the chain, where [None] would be
    returned, is never reached. *)
Definition _egest_getType (MySQLdb : TypeObjects) (typecode : Z)
  : res (option pytype) :=
  if Date MySQLdb typecode then Raise NotImplementedError
  else if Time MySQLdb typecode then Raise NotImplementedError
  else if Timestamp MySQLdb typecode then Raise NotImplementedError
  else if DateFromTicks MySQLdb typecode then Raise NotImplementedError
  else if TimeFromTicks MySQLdb typecode then Raise NotImplementedError
  else if TimestampFromTicks MySQLdb typecode then Raise NotImplementedError
  else if Binary MySQLdb typecode then Raise NotImplementedError
  else if STRING MySQLdb typecode then Raise NotImplementedError
  else if BINARY MySQLdb typecode then Raise NotImplementedError
  else if NUMBER MySQLdb typecode then Ok (Some py_float)
  else if DATETIME MySQLdb typecode then Raise NotImplementedError
  else if ROWID MySQLdb typecode then Raise NotImplementedError
  else Raise AttributeError.



(** A column of [cursor.description], as far as it is read: [col[0]] and
    [col[1]]. *)
Definition ColumnDescription : Type := (string * Z)%type.

(** The fields of a schema under construction: [schema.addField(name, type)]
    appends the field and returns its key. *)
Definition addField (fields : list (string * option pytype))
    (name : string) (type : option pytype)
  : nat * list (string * option pytype) :=
  (length fields, (fields ++ [(name, type)])%list).

(** [_egest_makeSchema] *)
Definition _egest_makeSchema (MySQLdb : TypeObjects)
    (rowDescription : list ColumnDescription)
  : res (list nat * list (string * option pytype)) :=
  fold_left
    (fun acc col =>
       let? built := acc in
       let '(keys, fields) := built in
       let? type := _egest_getType MySQLdb (snd col) in
       let '(k, fields) := addField fields (fst col) type in
       Ok ((keys ++ [k])%list, fields))
    rowDescription (Ok ([], [])).

(** The type objects of the DB-API as sets of column type codes: a sample
    driver module in which the constructors ([Date], [Binary], ...) compare
    unequal to every code. *)
Definition sample_driver : TypeObjects :=
  let never (_ : Z) := false in
  let among (codes : list Z) (c : Z) := existsb (Z.eqb c) codes in
  {| Date := never; Time := never; Timestamp := never;
     DateFromTicks := never; TimeFromTicks := never;
     TimestampFromTicks := never; Binary := never;
     STRING := among [247; 253; 254]%Z;
     BINARY := among [249; 250; 251; 252]%Z;
     NUMBER := among [0; 1; 3; 4; 5; 8; 9; 13]%Z;
     DATETIME := among [7; 12]%Z;
     ROWID := among [] |}.

(** ** A scripted server *)

(** A server that answers the statements it receives from a list of prepared
    answers, and accepts everything once the list is used up. *)
Definition scripted_exec (answers : list (res (list (list string))))
    (sql : string) : list (res (list (list string))) * res (list (list string)) :=
  match answers with
  | [] => ([], Ok [])
  | a :: answers' => (answers', a)
  end.

(** A server that accepts every statement and returns no rows. *)
Definition accepting_exec (s : unit) (sql : string)
  : unit * res (list (list string)) :=
  (s, Ok []).

(** A server on which another client recreates the destination table all
    the time: every [RENAME] finds the name taken, everything else is
    accepted. *)
Definition thrashing_exec (s : unit) (sql : string)
  : unit * res (list (list string)) :=
  if PyStr.startswith sql "RENAME TABLE "
  then (s, Raise (OperationalError MYSQL_ER_TABLE_EXISTS_ERROR))
  else (s, Ok []).

(** ** Notions used in the statements *)

(** The items that [_schema_items] yields. *)
Definition ingestible (config : IngestCatalogConfig) (sch : Schema)
  : list SchemaItem :=
  List.filter (fun item =>
                 match schema_item_skipped config item with
                 | None => true
                 | Some _ => false
                 end) (items sch).

(** The text of a statement that carries the row literals [group]. *)
Definition statement (sql_prefix : string) (group : list string) : string :=
  PyStr.drop_last (sql_prefix ++ String.concat "" group).

(** What [_execute_sql] leaves in the trace for the statement of [group]. *)
Definition statement_events (sql_prefix : string) (group : list string)
  : list event :=
  [LogDebug (statement sql_prefix group) [];
   Query (statement sql_prefix group)].

(** [l] cut into groups of [m] elements, the last one possibly shorter. *)
Fixpoint chunks_fuel {A} (fuel m : nat) (l : list A) : list (list A) :=
  match l with
  | [] => []
  | _ :: _ =>
      match fuel with
      | O => []
      | S fuel' => firstn m l :: chunks_fuel fuel' m (skipn m l)
      end
  end.

Definition chunks {A} (m : nat) (l : list A) : list (list A) :=
  chunks_fuel (length l) m l.

(** [ceil(n / d)] for [d > 0]. *)
Definition ceil_div (n d : Z) : Z := ((n + d - 1) / d)%Z.

Definition rename_sql (from_name to_name : string) : string :=
  "RENAME TABLE " ++ from_name ++ " TO " ++ to_name.

Definition drop_sql (to_name : string) : string := "DROP TABLE " ++ to_name.

(** The events of one turn of the rename loop that finds the name taken. *)
Definition failed_turn (from_name to_name : string) : list event :=
  [Query (rename_sql from_name to_name); Query (drop_sql to_name)].

(** The server goes from [s] to [s'] in [k] turns, in each of which it
    finds the destination taken at the [RENAME] and accepts the [DROP]. *)
Fixpoint taken_turns {ServerState : Type}
    (server_exec : ServerState -> string ->
                   ServerState * res (list (list string)))
    (from_name to_name : string) (k : nat) (s s' : ServerState) : Prop :=
  match k with
  | O => s = s'
  | S k' =>
      exists s1 s2 rows,
        server_exec s (rename_sql from_name to_name)
        = (s1, Raise (OperationalError MYSQL_ER_TABLE_EXISTS_ERROR))
        /\ server_exec s1 (drop_sql to_name) = (s2, Ok rows)
        /\ taken_turns server_exec from_name to_name k' s2 s'
  end.

Definition count_query (sql : string) (tr : list event) : nat :=
  length (List.filter (String.eqb sql) (queries tr)).

Definition rename_warning (to_name : string) : event :=
  LogWarn ("Could not rename temp table to final dataset name "
           ++ to_name ++ ", "
           ++ "perhaps another process is thrashing against this one?") [].

(** The decimal [q * 10 ^ (decpt - P)] is within half a unit of its last
    digit of [num / den], written without fractions: both sides are scaled
    by the power of ten that makes the exponent non-negative. *)
Definition within_half_unit (P num den q decpt : Z) : Prop :=
  let a := (10 ^ Z.max 0 (P - decpt))%Z in
  let b := (10 ^ Z.max 0 (decpt - P))%Z in
  (Z.abs (2 * (q * den * b - num * a)) <= den * b)%Z.

(** ** Reading a numeric literal *)

Definition is_digit (c : ascii) : bool :=
  let n := nat_of_ascii c in ((48 <=? n) && (n <=? 57))%nat.

Definition digit_value (c : ascii) : Z := (Z.of_nat (nat_of_ascii c) - 48)%Z.

(** The leading decimal digits of [s], read into [acc]: the number read,
    the count of digits (added to [count]) and the rest of [s]. *)
Fixpoint read_digits (s : string) (acc count : Z) : Z * Z * string :=
  match s with
  | EmptyString => (acc, count, EmptyString)
  | String c s' =>
      if is_digit c
      then read_digits s' (10 * acc + digit_value c)%Z (count + 1)%Z
      else (acc, count, s)
  end.

(** The exponent part of a literal: nothing, or [e], a sign and digits. *)
Definition read_exponent (s : string) : option Z :=
  match s with
  | EmptyString => Some 0%Z
  | String c (String sign ds) =>
      if negb (Ascii.eqb c "e") then None
      else
        let '(a, n, rest) := read_digits ds 0 0 in
        if (n =? 0)%Z || negb (String.eqb rest "") then None
        else if Ascii.eqb sign "-" then Some (- a)%Z
        else if Ascii.eqb sign "+" then Some a
        else None
  | _ => None
  end.

(** An unsigned literal [digits[.digits][e(+|-)digits]]: the coefficient
    [c] and the exponent [k] of the decimal number [c * 10 ^ k] that it
    denotes, next to the sign [neg] read before it. *)
Definition parse_unsigned (neg : bool) (s1 : string) : option (bool * Z * Z) :=
  let '(ip, ni, s2) := read_digits s1 0 0 in
  if (ni =? 0)%Z then None
  else
    let '(c, nf, s3) :=
      match s2 with
      | String d r => if Ascii.eqb d "." then read_digits r ip 0 else (ip, 0%Z, s2)
      | EmptyString => (ip, 0%Z, s2)
      end in
    match read_exponent s3 with
    | Some e => Some (neg, c, (e - nf)%Z)
    | None => None
    end.

(** The decimal number that a literal [[-]digits[.digits][e(+|-)digits]]
    denotes: its sign, a coefficient [c] and an exponent [k], the value
    being [c * 10 ^ k]. *)
Definition parse_decimal (s : string) : option (bool * Z * Z) :=
  match s with
  | String c r =>
      if Ascii.eqb c "-" then parse_unsigned true r else parse_unsigned false s
  | EmptyString => None
  end.

Definition all_digits (s : string) : bool :=
  forallb is_digit (list_ascii_of_string s).

(** The number that the digits of [s] spell, continuing [acc]. *)
Fixpoint value_acc (acc : Z) (s : string) : Z :=
  match s with
  | EmptyString => acc
  | String c s' => value_acc (10 * acc + digit_value c)%Z s'
  end.

Definition starts_nondigit (s : string) : bool :=
  match s with
  | EmptyString => true
  | String c _ => negb (is_digit c)
  end.

(** The result [r] of a formatter is a literal that denotes, with the sign
    [neg], a decimal number [q * 10 ^ (decpt - P)] of [P] significant digits
    ([q] has exactly [P] digits; the literal itself may leave out zeros at
    the end) which lies within half a unit of its last digit of
    [num / den]. *)
Definition reads_back_within (P : Z) (neg : bool) (num den : Z)
    (r : res string) : Prop :=
  exists text c k q decpt,
    r = Ok text
    /\ parse_decimal text = Some (neg, c, k)
    /\ (decpt - P <= k)%Z
    /\ q = (c * 10 ^ (k - (decpt - P)))%Z
    /\ (10 ^ (P - 1) <= q < 10 ^ P)%Z
    /\ within_half_unit P num den q decpt.

(** ** Sample inputs *)

Definition one_rule : list (string * string) := [("old_", "new_")].
Definition two_rules : list (string * string) :=
  [("old_", "new_"); ("old_x", "new_y")].

Definition double_field (name : string) : Field := mkField name "D" 0.

(** A schema with the fields ["a.b"] and ["a-b"]. *)
Definition clash_schema : Schema :=
  mkSchema [mkSchemaItem 0 (double_field "a.b");
            mkSchemaItem 1 (double_field "a-b")] ∅.

Definition clash_ddl : string :=
  "CREATE TABLE tmpq3k9xz (" ++ nl ++ tab ++ "a_b DOUBLE," ++ nl ++ tab
  ++ "a_b DOUBLE" ++ nl ++ ")".

(** A schema with the fields ["A"] and ["a"]. *)
Definition case_clash_schema : Schema :=
  mkSchema [mkSchemaItem 0 (double_field "A");
            mkSchemaItem 1 (double_field "a")] ∅.

(** The catalog of the unit test: fields [a] and [b] of type [D] and the
    record [(1.0, 1.5)]; here with the alias [x] for [a]. *)
Definition ab_schema : Schema :=
  mkSchema [mkSchemaItem 0 (double_field "a");
            mkSchemaItem 1 (double_field "b")] {[ "x" := "a" ]}.

Definition ab_row : Row :=
  fun k =>
    match k with
    | O => Some (VFloat (S754_finite false 1 0))
    | _ => Some (VFloat (S754_finite false 3 (-1)))
    end.

Definition ab_catalog : Catalog := mkCatalog ab_schema [ab_row].

Definition three_rows_catalog : Catalog :=
  mkCatalog ab_schema [ab_row; ab_row; ab_row].

(** The entry [(key, formatter)] of [keys] for a field of type [D]. *)
Definition double_key (k : nat) : nat * FieldFormatter :=
  (k, mkFieldFormatter (fun f => Ok "DOUBLE") (_format_number 17)).

Definition sample_config : IngestCatalogConfig :=
  {| allow_replace := false;
     max_query_len := Some 1000%Z;
     max_column_len := 64;
     id_field_name := None;
     remap := ∅;
     extra_columns := "" |}.

Definition ab_create_table : string :=
  "CREATE TABLE tmpq3k9xz (" ++ nl ++ tab ++ "a DOUBLE," ++ nl ++ tab
  ++ "b DOUBLE" ++ nl ++ ")".

Definition ab_create_view : string :=
  "CREATE OR REPLACE ALGORITHM = MERGE SQL SECURITY INVOKER VIEW `dest_view`"
  ++ " AS SELECT" ++ nl ++ tab ++ "a," ++ nl ++ tab ++ "b," ++ nl ++ tab
  ++ "a AS x" ++ nl ++ "FROM tmpq3k9xz".

(** The float nearest to 0.1 in binary32, [13421773 * 2 ^ -27]. *)
Definition float32_tenth : spec_float := S754_finite false 13421773 (-27).

(** ** Reading quoted texts *)

Definition prepend (c : ascii) (r : option (string * string))
  : option (string * string) :=
  match r with
  | Some (s, rest) => Some (String c s, rest)
  | None => None
  end.

(** What follows an opening back-tick: the identifier up to the closing
    back-tick, a doubled back-tick standing for one, and the rest of the
    text. *)
Fixpoint read_identifier_body (s : string) : option (string * string) :=
  match s with
  | EmptyString => None
  | String c s' =>
      if Ascii.eqb c "`" then
        match s' with
        | String d s'' =>
            if Ascii.eqb d "`" then prepend "`" (read_identifier_body s'')
            else Some (EmptyString, s')
        | EmptyString => Some (EmptyString, EmptyString)
        end
      else prepend c (read_identifier_body s')
  end.

(** A quoted identifier at the start of a statement text, and the rest. *)
Definition read_quoted_identifier (s : string) : option (string * string) :=
  match s with
  | String c body => if Ascii.eqb c "`" then read_identifier_body body else None
  | EmptyString => None
  end.

(** What follows the opening quote of a string literal: the string up to the
    closing quote, where a backslash makes a backslash or a quote that
    follows it part of the string and a doubled quote stands for one; and
    the rest of the text.  The other escape letters are not read: the
    formatter never writes them. *)
Fixpoint read_string_body (s : string) : option (string * string) :=
  match s with
  | EmptyString => None
  | String c s' =>
      if Ascii.eqb c "\" then
        match s' with
        | String d s'' =>
            if Ascii.eqb d "\" || Ascii.eqb d "'"
            then prepend d (read_string_body s'')
            else None
        | EmptyString => None
        end
      else if Ascii.eqb c "'" then
        match s' with
        | String d s'' =>
            if Ascii.eqb d "'" then prepend "'" (read_string_body s'')
            else Some (EmptyString, s')
        | EmptyString => Some (EmptyString, EmptyString)
        end
      else prepend c (read_string_body s')
  end.

(** A string literal at the start of a statement text, and the rest. *)
Definition read_string_literal (s : string) : option (string * string) :=
  match s with
  | String c body => if Ascii.eqb c "'" then read_string_body body else None
  | EmptyString => None
  end.

Definition starts_with (c : ascii) (s : string) : bool :=
  match s with
  | String d _ => Ascii.eqb d c
  | EmptyString => false
  end.

Definition is_hex_digit (c : ascii) : bool :=
  let n := nat_of_ascii c in
  (((48 <=? n) && (n <=? 57)) || ((97 <=? n) && (n <=? 102)))%nat.

Definition all_hex (s : string) : bool :=
  forallb is_hex_digit (list_ascii_of_string s).

(** [struct.pack] takes the integer [z] for the format character [c]. *)
Definition in_range (c : format_char) (z : Z) : bool :=
  match c with
  | fmt_H => ((0 <=? z) && (z <=? 65535))%Z
  | fmt_i => ((- 2147483648 <=? z) && (z <=? 2147483647))%Z
  | _ => true
  end.


(** ** Groups of row literals *)

(** The length of the texts of [g] put together. *)
Definition total (g : list string) : Z := len (String.concat "" g).

(** How many texts from the front of [vs] fit in [b] bytes. *)
Fixpoint greedy_count (b : Z) (vs : list string) : nat :=
  match vs with
  | [] => O
  | v :: vs' =>
      if (b - len v <? 0)%Z then O else S (greedy_count (b - len v)%Z vs')
  end.

(** [vs] cut into groups, each taking as many texts as fit in [b] bytes. *)
Fixpoint greedy_groups (fuel : nat) (b : Z) (vs : list string)
  : list (list string) :=
  match vs with
  | [] => []
  | _ :: _ =>
      match fuel with
      | O => []
      | S fuel' =>
          match greedy_count b vs with
          | O => []
          | S j => firstn (S j) vs :: greedy_groups fuel' b (skipn (S j) vs)
          end
      end
  end.

(** No group could have taken the first text of the group after it. *)
Fixpoint maximal_groups (b : Z) (groups : list (list string)) : Prop :=
  match groups with
  | g1 :: rest =>
      match rest with
      | g2 :: _ => (b < total g1 + len (hd "" g2))%Z
      | [] => True
      end /\ maximal_groups b rest
  | [] => True
  end.

Definition is_log (ev : event) : bool :=
  match ev with
  | LogWarn _ _ | LogDebug _ _ => true
  | _ => false
  end.

Definition is_commit (ev : event) : bool :=
  match ev with Commit => true | _ => false end.


(** A record [(0.1, 1.5)], whose literal is longer than that of [ab_row],
    and a catalog with rows of both kinds. *)
Definition tenth_row : Row :=
  fun k =>
    match k with
    | O => Some (VFloat (S754_finite false 3602879701896397 (-55)))
    | _ => Some (VFloat (S754_finite false 3 (-1)))
    end.

Definition mixed_catalog : Catalog :=
  mkCatalog ab_schema [ab_row; ab_row; tenth_row; ab_row].


(** ** Classes of names *)

(** [equivalence_classes.get(k, [])] *)
Fixpoint class_of (k : string) (d : list (string * list string))
  : list string :=
  match d with
  | [] => []
  | (k', names) :: d' => if String.eqb k' k then names else class_of k d'
  end.

(** The names of the fields that [_schema_items] yields. *)
Definition ingestible_names (config : IngestCatalogConfig) (sch : Schema)
  : list string :=
  List.map getName (List.map field (ingestible config sch)).


(** A server that answers every statement with the exception [e]. *)
Definition refusing_exec (e : exn) (s : unit) (sql : string)
  : unit * res (list (list string)) :=
  (s, Raise e).

(** A field of type [String] whose size is not positive: its column type
    cannot be given. *)
Definition bad_string_schema : Schema :=
  mkSchema [mkSchemaItem 0 (double_field "a");
            mkSchemaItem 1 (mkField "s" "String" 0)] ∅.


(** The error of MySQL for a table that does not exist. *)
Definition MYSQL_ER_NO_SUCH_TABLE : Z := 1146.


(** ** Forward alias substitution *)

(** The list is in ascending order of its sources, no source twice: what
    [sorted(aliasMap.items())] gives. *)
Fixpoint sources_ascending (mappings : list (string * string)) : Prop :=
  match mappings with
  | [] => True
  | p :: later =>
      Forall (fun q => str_leb (fst p) (fst q) = true /\ fst p <> fst q) later
      /\ sources_ascending later
  end.

(** One substitution of the alias map: [source] is the longest prefix of
    [alias] among the sources, and [name] is [alias] with that prefix
    replaced by its target. *)
Definition substitutes (mappings : list (string * string))
    (alias name : string) : Prop :=
  exists source target rest,
    In (source, target) mappings
    /\ alias = source ++ rest
    /\ name = target ++ rest
    /\ forall s t, In (s, t) mappings -> PyStr.startswith alias s = true ->
                   (String.length s <= String.length source)%nat.

(** [name] is reached from [alias] by [k] substitutions. *)
Fixpoint resolves_in (k : nat) (mappings : list (string * string))
    (alias name : string) : Prop :=
  match k with
  | O => alias = name
  | S k' =>
      exists mid, substitutes mappings alias mid
                  /\ resolves_in k' mappings mid name
  end.

Definition three_rules : list (string * string) :=
  [("a_", "b_"); ("b_", "c_"); ("c_", "d_")].


(** [l] ascends in the order [leb]. *)
Fixpoint ascending {A} (leb : A -> A -> bool) (l : list A) : Prop :=
  match l with
  | [] => True
  | x :: l' => Forall (fun y => leb x y = true) l' /\ ascending leb l'
  end.

(** [sorted(aliasMap.items())], as [_create_view] computes it. *)
Definition view_mappings (aliasMap : gmap string string)
  : list (string * string) :=
  sorted pair_leb (map_to_list aliasMap).


(** ** The order of events in a run *)

(** What may happen while the staging table is made and filled: statements
    other than a [RENAME], and log records. *)
Definition staging_event (ev : event) : bool :=
  match ev with
  | Query sql => negb (PyStr.startswith sql "RENAME TABLE ")
  | LogWarn _ _ | LogDebug _ _ => true
  | Commit | Close => false
  end.

(** What may happen after the commit: the [RENAME] of the staging table
    to the destination, the [DROP] of the destination, and the warning
    that the rename did not take place. *)
Definition publishing_event (from_name to_name : string) (ev : event)
  : Prop :=
  ev = Query (rename_sql from_name to_name)
  \/ ev = Query (drop_sql to_name)
  \/ ev = rename_warning to_name.

(** Every event of [m] satisfies [P], and every result satisfies [Q]. *)
Definition emits {ServerState A : Type} (P : event -> bool) (Q : A -> Prop)
    (m : M ServerState A) : Prop :=
  forall c, exists new,
    trace (fst (m c)) = (trace c ++ new)%list
    /\ forallb P new = true
    /\ forall a, snd (m c) = Ok a -> Q a.

(** A run of [m] stages, then commits at most once, then publishes the
    table [from_name] as [to_name]; it returns normally only after the
    commit; and when the destination name is [unclean], it raises, at the
    latest right after the commit. *)
Definition follows_protocol {ServerState A : Type}
    (from_name to_name : string) (unclean : bool)
    (m : M ServerState A) : Prop :=
  forall c, exists staged published,
    trace (fst (m c)) = (trace c ++ staged ++ published)%list
    /\ forallb staging_event staged = true
    /\ (published = []
        \/ exists renaming,
             published = Commit :: renaming
             /\ Forall (publishing_event from_name to_name) renaming)
    /\ (forall a, snd (m c) = Ok a -> published <> [])
    /\ (unclean = true ->
        (published = [] /\ exists e, snd (m c) = Raise e)
        \/ (published = [Commit]
            /\ snd (m c) = Raise (RuntimeError "Illegal SQL."))).


(** ** Reading a binary literal *)

Definition hex_value (c : ascii) : Z :=
  let n := Z.of_nat (nat_of_ascii c) in
  if (n <? 58)%Z then (n - 48)%Z else (n - 87)%Z.

(** The number that [width] bytes in hexadecimal at the start of [s]
    denote, least significant byte first, and the rest of [s]. *)
Fixpoint read_le (width : nat) (s : string) : option (Z * string) :=
  match width with
  | O => Some (0%Z, s)
  | S width' =>
      match s with
      | String hi (String lo s') =>
          match read_le width' s' with
          | Some (z, rest) =>
              Some ((16 * hex_value hi + hex_value lo + 256 * z)%Z, rest)
          | None => None
          end
      | _ => None
      end
  end.

(** The value of the bytes of an element: two's complement for [i]. *)
Definition from_unsigned (c : format_char) (u : Z) : Z :=
  match c with
  | fmt_i => if (u <? 2147483648)%Z then u else (u - 4294967296)%Z
  | _ => u
  end.

(** The integers that the hexadecimal text [s] holds, element by element
    ([struct.unpack] on the bytes). *)
Fixpoint unpack (c : format_char) (fuel : nat) (s : string)
  : option (list Z) :=
  match s with
  | EmptyString => Some []
  | String _ _ =>
      match fuel with
      | O => None
      | S fuel' =>
          match read_le (Z.to_nat (calcsize c)) s with
          | Some (u, rest) =>
              match unpack c fuel' rest with
              | Some zs => Some (from_unsigned c u :: zs)
              | None => None
              end
          | None => None
          end
      end
  end.


(** ** Retrieval of a catalog *)

(** A catalog that has been read: the fields of its schema and, per
    record, the values that were set, each with its key. *)
Record BaseCatalog : Type := mkBaseCatalog {
  catalog_schema : list (string * option pytype);
  catalog_records : list (list (nat * string));
}.

Section Retrieval.

Variable ServerState : Type.
Variable server_exec :
  ServerState -> string -> ServerState * res (list (list string)).

(** [cursor.description] once a statement has been executed. *)
Variable description : ServerState -> list ColumnDescription.
Variable MySQLdb : TypeObjects.

(** [_egest]; the connection is closed on every way out.  The rows are
    fetched one by one and each value is set under the key at its
    position, [zip(keys, row)]. *)
Definition _egest (table_name : string) (view_name : option string)
  : M ServerState BaseCatalog :=
  let table_name := quote_mysql_identifier table_name in
  let view_name :=
    match view_name with
    | Some v => if String.eqb v "" then None else Some (quote_mysql_identifier v)
    | None => None
    end in
  fun c =>
    let sql := "SELECT * FROM " ++ table_name in
    let '(c', r) :=
      bind (execute server_exec sql)
        (fun fetched c1 =>
           bind (lift (_egest_makeSchema MySQLdb (description (server c1))))
             (fun built =>
                let '(keys, schema) := built in
                ret (mkBaseCatalog schema
                       (List.map (fun row => combine keys row) fetched)))
             c1) c in
    (mkConn (server c') (trace c' ++ [Close]), r).

End Retrieval.

(** ** The repository configuration: [butlerRepoCfgFmt.py] *)

Record RepositoryCfg (obj : Type) : Type := mkRepositoryCfg {
  root : obj;
  mapper : obj;
  mapperArgs : obj;
  parents : obj;
  policy : obj;
}.
Arguments mkRepositoryCfg {obj} root mapper mapperArgs parents policy.
Arguments root {obj} r.
Arguments mapper {obj} r.
Arguments mapperArgs {obj} r.
Arguments parents {obj} r.
Arguments policy {obj} r.

(** [row[i]] *)
Definition cell (row : list string) (i : nat) : res string :=
  match nth_error row i with
  | Some x => Ok x
  | None => Raise IndexError
  end.

Definition sVersion_sql : string := "SELECT sVersion FROM repositoryCfg".

Definition _readV1_sql : string :=
  "SELECT root, mapper, mapperArgs, parents, policy" ++ nl
  ++ "                FROM repositoryCfg" ++ nl
  ++ "                WHERE id = 0".

Section ButlerRepoCfgFmt.

Variable ServerState : Type.
Variable server_exec :
  ServerState -> string -> ServerState * res (list (list string)).

(** The objects that are pickled, and [pickle.loads]. *)
Variable obj : Type.
Variable pickle_loads : string -> res obj.

(** [_readV1]; the cells of the row are the texts stored in the [TEXT]
    columns. *)
Definition _readV1 : M ServerState (option (RepositoryCfg obj)) :=
  fun c =>
    match execute server_exec _readV1_sql c with
    | (c', Ok result) =>
        lift
          (match head result with
           | None => Raise TypeError
           | Some row =>
               let? root := res_bind (cell row 0) pickle_loads in
               let? mapper := res_bind (cell row 1) pickle_loads in
               let? mapperArgs := res_bind (cell row 2) pickle_loads in
               let? parents := res_bind (cell row 3) pickle_loads in
               let? policy := res_bind (cell row 1) pickle_loads in
               Ok (Some (mkRepositoryCfg root mapper mapperArgs parents policy))
           end) c'
    | (c', Raise (ProgrammingError _)) => (c', Ok None)
    | (c', Raise e) => (c', Raise e)
    end.

(** [ButlerRepoCfgFmt.read]; the cell of the [INT] column [sVersion] is
    given by its decimal text, so [row[0] == 1] is the comparison with
    ["1"]. *)
Definition ButlerRepoCfgFmt_read (table_name host db : string) (port : Z)
  : M ServerState (option (RepositoryCfg obj)) :=
  fun c =>
    let '(c', r) :=
      match execute server_exec sVersion_sql c with
      | (c1, Ok result) =>
          match head result with
          | None => (c1, Raise TypeError)
          | Some row =>
              match cell row 0 with
              | Ok v =>
                  if String.eqb v "1" then _readV1 c1
                  else
                    (c1, Raise (RuntimeError
                                  ("Unsupported serilizaion version " ++ v
                                   ++ " for repository in database:" ++ db)))
              | Raise e => (c1, Raise e)
              end
          end
      | (c1, Raise (ProgrammingError _)) => (c1, Ok None)
      | (c1, Raise e) => (c1, Raise e)
      end in
    (mkConn (server c') (trace c' ++ [Close]), r).

End ButlerRepoCfgFmt.

Arguments _egest {ServerState} server_exec description MySQLdb table_name view_name c.
Arguments _readV1 {ServerState} server_exec {obj} pickle_loads c.
Arguments ButlerRepoCfgFmt_read {ServerState} server_exec {obj} pickle_loads table_name host db port c.

(** A server whose tables all have the columns [cols]. *)
Definition two_number_columns : list ColumnDescription :=
  [("a", 5%Z); ("b", 5%Z)].


(** ** The storage: [mysqlStorage.py] *)

(** A class object, given by the text that [format] writes for it. *)
Definition pyclass : Type := string.

(** [registerFormatter]: the dict [MySqlStorage.formatters] after the
    call.  In the message, [format] is applied to the second string
    literal only. *)
Definition registerFormatter (formatters : gmap pyclass pyclass)
    (formattable formatter : pyclass) : res (gmap pyclass pyclass) :=
  match formatters !! formattable with
  | Some _ =>
      Raise (RuntimeError ("Registration of second formatter {} for "
                           ++ "formattable class " ++ formatter))
  | None => Ok (<[formattable := formatter]> formatters)
  end.

(** [_getFormatter] *)
Definition _getFormatter (formatters : gmap pyclass pyclass)
    (objType : pyclass) : option pyclass :=
  formatters !! objType.

Record MySqlStorage : Type := mkMySqlStorage {
  host : string;
  port : Z;
  repoDbName : string;
}.

Section Storage.

Variable ServerState : Type.
Variable server_exec :
  ServerState -> string -> ServerState * res (list (list string)).

(** The objects that are written, and the method [write] of an instance of
    a formatter class. *)
Variable Obj : Type.
Variable formatter_write :
  pyclass -> Obj -> string -> string -> string -> Z -> option string ->
  M ServerState unit.

(** [MySqlStorage.write]; [str_self] is the text that [format] writes for
    the storage. *)
Definition MySqlStorage_write (self : MySqlStorage) (str_self : string)
    (formatters : gmap pyclass pyclass) (pythonType : pyclass)
    (locationList : list string) (obj : Obj) : M ServerState unit :=
  match _getFormatter formatters pythonType with
  | None =>
      raise (RuntimeError ("No formatter registered with storage "
                           ++ str_self ++ " for" ++ nl
                           ++ "                python type " ++ pythonType
                           ++ "."))
  | Some formatter =>
      bind (lift (match locationList with
                  | [] => Raise IndexError
                  | location :: _ => Ok location
                  end))
        (fun table_name =>
           formatter_write formatter obj table_name (host self)
             (repoDbName self) (port self) None)
  end.

(** [copyFile]; the connection is closed on every way out. *)
Definition copyFile (fromLocation toLocation : string) : M ServerState unit :=
  fun c =>
    let '(c', r) :=
      bind (lift (identifierQuote toLocation))
        (fun to_quoted =>
           bind (lift (identifierQuote fromLocation))
             (fun from_quoted =>
                bind (execute server_exec
                        ("CREATE TABLE IF NOT EXISTS " ++ to_quoted ++ nl
                         ++ "                AS SELECT * FROM "
                         ++ from_quoted ++ ";"))
                  (fun _ => ret tt))) c in
    (mkConn (server c') (trace c' ++ [Close]), r).

(** [_createDb], on the connection [self.mysql]. *)
Definition _createDb (self : MySqlStorage) : M ServerState unit :=
  bind (lift (_testSqlIsClean (repoDbName self)))
    (fun _ =>
       bind (execute server_exec
               ("CREATE DATABASE IF NOT EXISTS " ++ repoDbName self))
         (fun _ => ret tt)).

End Storage.

Arguments MySqlStorage_write {ServerState Obj} formatter_write self str_self formatters pythonType locationList obj c.
Arguments copyFile {ServerState} server_exec fromLocation toLocation c.
Arguments _createDb {ServerState} server_exec self c.




(** ** What the generator of schema items lets through *)

Definition has_formatter (type_string : string) : bool :=
  match field_formatters !! type_string with
  | Some _ => true
  | None => false
  end.

(** The field has a type with a formatter and a column name that is not
    too long. *)
Definition yielded (config : IngestCatalogConfig) (item : SchemaItem) : bool :=
  has_formatter (getTypeString (field item))
  && (len (_column_name config (getName (field item)))
      <=? max_column_len config)%Z.

(* ================================================================= *)
(** * Verification *)

(** ** Strings *)

Lemma is_word_underscore : PyStr.is_word "_" = true.
Proof. reflexivity. Qed.

Lemma contains_char_In (c : ascii) (s : string) :
  PyStr.contains_char c s = true <-> In c (list_ascii_of_string s).
Proof.
  induction s as [|d s IH]; simpl.
  - split; [discriminate | tauto].
  - rewrite orb_true_iff, IH, Ascii.eqb_eq. tauto.
Qed.

Lemma contains_char_count (c : ascii) (s : string) :
  PyStr.contains_char c s = false <-> PyStr.count_char c s = 0%nat.
Proof.
  induction s as [|d s IH]; simpl; [tauto|].
  destruct (Ascii.eqb d c); simpl; [split; discriminate | exact IH].
Qed.

Lemma count_char_app (c : ascii) (s t : string) :
  PyStr.count_char c (s ++ t) = (PyStr.count_char c s + PyStr.count_char c t)%nat.
Proof. induction s as [|d s IH]; simpl; [reflexivity | rewrite IH; lia]. Qed.

Lemma replace_char_absent (c : ascii) (by_ s : string) :
  PyStr.contains_char c s = false -> PyStr.replace_char c by_ s = s.
Proof.
  induction s as [|d s IH]; simpl; [reflexivity|].
  destruct (Ascii.eqb d c); simpl; [discriminate|].
  intros H. now rewrite IH.
Qed.

Lemma count_backtick_doubled (s : string) :
  PyStr.count_char "`" (PyStr.replace_char "`" "``" s)
  = (2 * PyStr.count_char "`" s)%nat.
Proof.
  induction s as [|d s IH]; [reflexivity|].
  cbn [PyStr.replace_char PyStr.count_char].
  destruct (Ascii.eqb d "`") eqn:E.
  - rewrite count_char_app, IH. simpl. lia.
  - cbn [PyStr.count_char]. rewrite E, IH. lia.
Qed.

(** ** C8: canonicalization *)

(** C8. Canonicalizing a field name twice gives the same name as
    canonicalizing it once, for every string. *)
Theorem canonicalize_field_name_idempotent (x : string) :
  canonicalize_field_name (canonicalize_field_name x)
  = canonicalize_field_name x.
Proof.
  unfold canonicalize_field_name.
  induction x as [|c x IH]; simpl; [reflexivity|].
  rewrite IH. f_equal.
  destruct (PyStr.is_word c) eqn:E.
  - now rewrite E.
  - now rewrite is_word_underscore.
Qed.

(** ** C9: the two quoting functions *)

(** C9. [identifierQuote] raises on every field that contains a back-tick
    and wraps every other field in back-ticks unchanged;
    [quote_mysql_identifier] returns a quoted text for every identifier,
    with each embedded back-tick doubled, and agrees with [identifierQuote]
    on the identifiers free of back-ticks. *)
Theorem identifierQuote_rejects_where_quote_escapes (field : string) :
  (In "`"%char (list_ascii_of_string field) ->
   identifierQuote field = Raise (RuntimeError "Illegal ` character in field."))
  /\ (~ In "`"%char (list_ascii_of_string field) ->
      identifierQuote field = Ok ("`" ++ field ++ "`")
      /\ quote_mysql_identifier field = "`" ++ field ++ "`")
  /\ (exists body,
        quote_mysql_identifier field = "`" ++ body ++ "`"
        /\ PyStr.count_char "`" body = (2 * PyStr.count_char "`" field)%nat).
Proof.
  unfold identifierQuote, quote_mysql_identifier.
  split; [|split].
  - intros H. apply contains_char_In in H. now rewrite H.
  - intros H.
    destruct (PyStr.contains_char "`" field) eqn:E.
    + exfalso. apply H. now apply contains_char_In.
    + split; [reflexivity|]. now rewrite replace_char_absent.
  - eexists. split; [reflexivity|]. apply count_backtick_doubled.
Qed.

Lemma identifierQuote_rejects_where_quote_escapes_witness :
  identifierQuote "a`b" = Raise (RuntimeError "Illegal ` character in field.")
  /\ identifierQuote "ab" = Ok "`ab`"
  /\ quote_mysql_identifier "ab" = "`ab`".
Proof.
  split.
  - apply (proj1 (identifierQuote_rejects_where_quote_escapes "a`b")).
    simpl. tauto.
  - apply (proj1 (proj2 (identifierQuote_rejects_where_quote_escapes "ab"))).
    simpl. intros [H|[H|[]]]; discriminate H.
Defined.

(** ** C6: null markers, NaNs and infinities *)

Lemma registered_formatter (type_string : string) (f : FieldFormatter) :
  field_formatters !! type_string = Some f ->
  In (type_string, f) formatter_table.
Proof.
  intros H. apply list_elem_of_In.
  now apply elem_of_list_to_map_2.
Qed.

Lemma asDegrees_not_finite (x : spec_float) :
  PyNum.isnan x || PyNum.isinf x = true ->
  PyNum.isnan (asDegrees x) || PyNum.isinf (asDegrees x) = true.
Proof. destruct x as [s|s| |s m e]; try discriminate; reflexivity. Qed.

(** C6. Every formatter of the registry formats the null marker as
    ["NULL"]; and the formatters registered for [F], [D] and [Angle] format
    every NaN and every infinity as ["NULL"]. *)
Theorem format_value_null (type_string : string) (f : FieldFormatter)
    (x : spec_float) :
  field_formatters !! type_string = Some f ->
  PyNum.isnan x || PyNum.isinf x = true ->
  format_value f None = Ok "NULL"
  /\ (type_string = "F" \/ type_string = "D" ->
      format_value f (Some (VFloat x)) = Ok "NULL")
  /\ (type_string = "Angle" ->
      format_value f (Some (VAngle x)) = Ok "NULL").
Proof.
  intros Hf Hx. split; [reflexivity|].
  apply registered_formatter in Hf. simpl in Hf.
  split.
  - intros Ht.
    repeat (destruct Hf as [Hf|Hf];
            [ injection Hf as <- <-; simpl; unfold _format_number;
              try rewrite Hx; try reflexivity;
              destruct Ht as [Ht|Ht]; discriminate Ht | ]).
    destruct Hf.
  - intros Ht.
    repeat (destruct Hf as [Hf|Hf];
            [ injection Hf as <- <-; simpl; try discriminate Ht;
              unfold _format_number;
              now rewrite (asDegrees_not_finite x Hx) | ]).
    destruct Hf.
Qed.

Lemma format_value_null_witness :
  format_value (mkFieldFormatter (fun f => Ok "DOUBLE") format_angle) None
  = Ok "NULL"
  /\ format_value (mkFieldFormatter (fun f => Ok "DOUBLE") format_angle)
       (Some (VAngle (S754_infinity true))) = Ok "NULL".
Proof.
  pose proof (format_value_null "Angle"
                (mkFieldFormatter (fun f => Ok "DOUBLE") format_angle)
                (S754_infinity true) eq_refl eq_refl) as [H0 [_ H2]].
  split; [exact H0 | exact (H2 eq_refl)].
Defined.

(** ** C10: type codes on retrieval *)





(** ** C4: alias resolution *)

Lemma aliases_two_rules_new_y :
  aliases_for "new_y" two_rules = {[ "old_x"; "old_y" ]}.
Proof. vm_compute. reflexivity. Qed.

Lemma aliases_two_rules_new_x : aliases_for "new_x" two_rules = ∅.
Proof. vm_compute. reflexivity. Qed.

(** C4, as the code has it. With the single rule the aliases of ["new_x"]
    are exactly [{"old_x"}]. With the longer rule added, that rule takes
    precedence for ["old_x"]: it is an alias of ["new_y"] (next to
    ["old_y"]) and is no alias of ["new_x"], which has none. *)
Theorem aliases_for_longest_prefix :
  aliases_for "new_x" one_rule = {[ "old_x" ]}
  /\ aliases_for "new_y" two_rules = {[ "old_x"; "old_y" ]}
  /\ aliases_for "new_x" two_rules = ∅.
Proof.
  split; [vm_compute; reflexivity|].
  split; [apply aliases_two_rules_new_y | apply aliases_two_rules_new_x].
Qed.

(** The claim as written fails: ["old_x"] is not excluded from the aliases
    of ["new_y"], and it is not among those of ["new_x"]. *)
Lemma aliases_for_old_x_counterexample :
  ~ (("old_x" ∉ aliases_for "new_y" two_rules)
     /\ ("old_x" ∈ aliases_for "new_x" two_rules)).
Proof.
  rewrite aliases_two_rules_new_y, aliases_two_rules_new_x.
  intros [_ H]. exact (not_elem_of_empty (C:=gset string) "old_x" H).
Qed.

(** ** C2: names that clash after canonicalization *)

(** C2, at the input ["a.b"], ["a-b"]. Both names get the column name
    [a_b], yet no clash is found: on every server [_create_table] sends
    the [CREATE TABLE] statement, with the column [a_b] twice, as its first
    and only action. Names that differ by case alone are refused before any
    statement. *)
Theorem create_table_misses_canonical_clash (ServerState : Type)
    (server_exec : ServerState -> string ->
                   ServerState * res (list (list string)))
    (s : ServerState) :
  _column_name default_config "a.b" = "a_b"
  /\ _column_name default_config "a-b" = "a_b"
  /\ clashes ["a.b"; "a-b"] = ""
  /\ trace (fst (_create_table server_exec default_config "tmpq3k9xz"
                   clash_schema (mkConn s [])))
     = [LogDebug clash_ddl []; Query clash_ddl]
  /\ (exists msg,
        _create_table server_exec default_config "tmpq3k9xz"
          case_clash_schema (mkConn s [])
        = (mkConn s [], Raise (RuntimeError msg))).
Proof.
  split; [reflexivity|]. split; [reflexivity|]. split; [reflexivity|].
  split.
  - vm_compute. destruct (server_exec s _) as [s' [rows|e]]; reflexivity.
  - eexists. vm_compute. reflexivity.
Qed.

(** ** C5: the view and the rename *)

(** C5, at the catalog of the unit test written to ["dest"] with the view
    ["dest_view"]: the statements sent, in order. The view is created right
    after the staging table, selects from the staging name, and precedes
    both the insertion and the rename. *)
Theorem write_creates_view_on_staging_table :
  queries (trace (fst (write scripted_exec sample_config "tmpq3k9xz"
                         ab_catalog "dest" (Some "dest_view")
                         (mkConn [Ok []; Ok [["a"]; ["b"]]] []))))
  = [ ab_create_table;
      "SHOW COLUMNS FROM tmpq3k9xz";
      ab_create_view;
      "INSERT INTO tmpq3k9xz (a,b) VALUES (1,1.5)";
      "RENAME TABLE tmpq3k9xz TO `dest`" ].
Proof. vm_compute. reflexivity. Qed.

(** ** C7: the rename protocol *)

Lemma queries_app (tr1 tr2 : list event) :
  queries (tr1 ++ tr2) = (queries tr1 ++ queries tr2)%list.
Proof. unfold queries. apply omap_app. Qed.

Lemma count_query_app (sql : string) (tr1 tr2 : list event) :
  count_query sql (tr1 ++ tr2)
  = (count_query sql tr1 + count_query sql tr2)%nat.
Proof.
  unfold count_query. now rewrite queries_app, List.filter_app, length_app.
Qed.

Lemma rename_is_not_drop (from_name to_name : string) :
  String.eqb (rename_sql from_name to_name) (drop_sql to_name) = false
  /\ String.eqb (drop_sql to_name) (rename_sql from_name to_name) = false.
Proof. split; reflexivity. Qed.

Section RenameProtocol.

Variable ServerState : Type.
Variable server_exec :
  ServerState -> string -> ServerState * res (list (list string)).
Variables from_name to_name : string.

(** The statements of the loop are renames and drops of the destination;
    there are at most [tries] renames and no more drops than renames. *)
Lemma rename_loop_bounded (tries : nat) (c : conn ServerState) :
  exists new,
    trace (fst (rename_loop server_exec tries from_name to_name c))
    = (trace c ++ new)%list
    /\ (count_query (rename_sql from_name to_name) new <= tries)%nat
    /\ (count_query (drop_sql to_name) new
        <= count_query (rename_sql from_name to_name) new)%nat
    /\ Forall (fun sql => sql = rename_sql from_name to_name
                          \/ sql = drop_sql to_name) (queries new)
    /\ Forall (fun ev => is_query ev = true) new.
Proof.
  revert c. induction tries as [|tries IH]; intros c.
  - exists []. simpl. rewrite app_nil_r. repeat split; auto.
  - cbn [rename_loop]. fold (rename_sql from_name to_name).
    fold (drop_sql to_name). unfold execute at 1.
    destruct (rename_is_not_drop from_name to_name) as [HRD HDR].
    remember (rename_sql from_name to_name) as R eqn:HeqR.
    remember (drop_sql to_name) as D eqn:HeqD.
    clear HeqR HeqD.
    destruct (server_exec (server c) R) as [s1 r1].
    assert (HRR : String.eqb R R = true) by apply String.eqb_refl.
    assert (HDD : String.eqb D D = true) by apply String.eqb_refl.
    assert (Hone : exists new,
               (trace c ++ [Query R])%list = (trace c ++ new)%list
               /\ (count_query R new <= S tries)%nat
               /\ (count_query D new <= count_query R new)%nat
               /\ Forall (fun sql => sql = R \/ sql = D) (queries new)
               /\ Forall (fun ev => is_query ev = true) new).
    { exists [Query R]. unfold count_query. simpl. rewrite HRR, HDR. simpl.
      repeat split; auto; lia. }
    destruct r1 as [rows|e]; [exact Hone|].
    destruct e; try exact Hone.
    destruct (code =? MYSQL_ER_TABLE_EXISTS_ERROR)%Z.
    + unfold bind, execute. cbn [server trace].
      destruct (server_exec s1 D) as [s2 r2].
      destruct r2 as [rows|e].
      * destruct (IH (mkConn s2 ((trace c ++ [Query R]) ++ [Query D])%list))
          as (new & Ht & HR & HD & HQ & HE).
        exists ([Query R; Query D] ++ new)%list.
        rewrite Ht. cbn [trace].
        rewrite !count_query_app. unfold count_query at 1 3 5. simpl.
        rewrite HRR, HDD, HRD, HDR. simpl.
        repeat split; auto; try lia.
        now rewrite <- !app_assoc.
      * exists [Query R; Query D]. cbn [fst trace].
        unfold count_query. simpl. rewrite HRR, HDD, HRD, HDR. simpl.
        repeat split; auto; try lia.
        now rewrite <- !app_assoc.
    + destruct (IH (mkConn s1 (trace c ++ [Query R])%list))
        as (new & Ht & HR & HD & HQ & HE).
      exists ([Query R] ++ new)%list.
      rewrite Ht. cbn [trace].
      rewrite !count_query_app. unfold count_query at 1 3 5. simpl.
      rewrite HRR, HDR. simpl.
      repeat split; auto; try lia.
      now rewrite <- !app_assoc.
Qed.

(** On a server that finds the name taken at every rename and accepts
    every drop, the loop uses up its tries. *)
Lemma rename_loop_exhausted (tries : nat) (c : conn ServerState) :
  (forall s, exists s',
      server_exec s (rename_sql from_name to_name)
      = (s', Raise (OperationalError MYSQL_ER_TABLE_EXISTS_ERROR))) ->
  (forall s, exists s' rows,
      server_exec s (drop_sql to_name) = (s', Ok rows)) ->
  exists s',
    rename_loop server_exec tries from_name to_name c
    = (mkConn s' (trace c ++ concat (repeat (failed_turn from_name to_name) tries))%list,
       Ok false).
Proof.
  intros HR HD. revert c.
  induction tries as [|tries IH]; intros [s tr].
  - exists s. simpl. now rewrite app_nil_r.
  - cbn [rename_loop]. fold (rename_sql from_name to_name).
    fold (drop_sql to_name). unfold execute at 1. cbn [server trace].
    destruct (HR s) as [s1 ->]. rewrite Z.eqb_refl.
    unfold bind, execute. cbn [server trace].
    destruct (HD s1) as (s2 & rows & ->).
    destruct (IH (mkConn s2 ((tr ++ [Query (rename_sql from_name to_name)])
                              ++ [Query (drop_sql to_name)])%list))
      as [s' ->].
    exists s'. cbn [trace repeat concat]. unfold failed_turn at 2.
    now rewrite <- !app_assoc.
Qed.

(** A [RENAME] that goes through after [k] turns that found the name
    taken ends the loop with success, if there are tries left for it. *)
Lemma rename_loop_recovers (tries k : nat) (c : conn ServerState)
    (s1 s2 : ServerState) (rows : list (list string)) :
  (k < tries)%nat ->
  taken_turns server_exec from_name to_name k (server c) s1 ->
  server_exec s1 (rename_sql from_name to_name) = (s2, Ok rows) ->
  rename_loop server_exec tries from_name to_name c
  = (mkConn s2 (trace c ++ concat (repeat (failed_turn from_name to_name) k)
                ++ [Query (rename_sql from_name to_name)])%list,
     Ok true).
Proof.
  revert tries c. induction k as [|k IH]; intros tries [s tr] Hk Hturns Hok;
    (destruct tries as [|tries]; [lia|]);
    cbn [rename_loop]; fold (rename_sql from_name to_name);
    fold (drop_sql to_name); unfold execute at 1;
    cbn [server trace taken_turns] in *.
  - subst s1. rewrite Hok. reflexivity.
  - destruct Hturns as (sa & sb & rows' & HR & HD & Hturns).
    rewrite HR, Z.eqb_refl. unfold bind, execute. cbn [server trace].
    rewrite HD.
    rewrite (IH tries (mkConn sb ((tr ++ [Query (rename_sql from_name to_name)])
                                  ++ [Query (drop_sql to_name)])%list));
      [|lia | exact Hturns | exact Hok].
    cbn [trace repeat concat]. unfold failed_turn at 2.
    now rewrite <- !app_assoc.
Qed.

(** As many turns that find the name taken as there are tries use the
    loop up. *)
Lemma rename_loop_used_up (tries : nat) (c : conn ServerState)
    (s' : ServerState) :
  taken_turns server_exec from_name to_name tries (server c) s' ->
  rename_loop server_exec tries from_name to_name c
  = (mkConn s' (trace c
                ++ concat (repeat (failed_turn from_name to_name) tries))%list,
     Ok false).
Proof.
  revert c. induction tries as [|tries IH]; intros [s tr] Hturns;
    cbn [server trace taken_turns] in *.
  - subst s'. simpl. now rewrite app_nil_r.
  - destruct Hturns as (sa & sb & rows' & HR & HD & Hturns).
    cbn [rename_loop]. fold (rename_sql from_name to_name).
    fold (drop_sql to_name). unfold execute at 1. cbn [server trace].
    rewrite HR, Z.eqb_refl. unfold bind, execute. cbn [server trace].
    rewrite HD.
    rewrite (IH (mkConn sb ((tr ++ [Query (rename_sql from_name to_name)])
                            ++ [Query (drop_sql to_name)])%list) Hturns).
    cbn [trace repeat concat]. unfold failed_turn at 2.
    now rewrite <- !app_assoc.
Qed.

(** C7. For names that pass the statement check: when the server accepts
    the first [RENAME] (the destination name is free), [_rename_table]
    returns after that single statement; whatever the server answers, it
    sends at most 3 [RENAME]s, at most one [DROP] of the destination per
    [RENAME], and nothing else; and when every [RENAME] finds the name
    taken, it ends after three rename-and-drop turns with a warning and
    without an exception, the staging table never renamed or dropped.
    When the destination is taken, the loop recovers: after one or two
    turns in which the [RENAME] finds the name taken and the [DROP] of the
    destination is accepted, a [RENAME] that the server accepts ends the
    call normally, without a warning and with nothing sent after it; and
    three such turns in a row end it with the warning, the result still
    normal. *)
Theorem rename_table_protocol (c : conn ServerState) :
  PyStr.contains_char ";" from_name = false ->
  PyStr.contains_char ";" to_name = false ->
  (forall s' rows,
      server_exec (server c) (rename_sql from_name to_name) = (s', Ok rows) ->
      _rename_table server_exec from_name to_name c
      = (mkConn s' (trace c ++ [Query (rename_sql from_name to_name)])%list,
         Ok tt))
  /\ (exists new,
        trace (fst (_rename_table server_exec from_name to_name c))
        = (trace c ++ new)%list
        /\ (count_query (rename_sql from_name to_name) new <= 3)%nat
        /\ (count_query (drop_sql to_name) new
            <= count_query (rename_sql from_name to_name) new)%nat
        /\ Forall (fun sql => sql = rename_sql from_name to_name
                              \/ sql = drop_sql to_name) (queries new))
  /\ ((forall s, exists s',
          server_exec s (rename_sql from_name to_name)
          = (s', Raise (OperationalError MYSQL_ER_TABLE_EXISTS_ERROR))) ->
      (forall s, exists s' rows,
          server_exec s (drop_sql to_name) = (s', Ok rows)) ->
      exists s',
        _rename_table server_exec from_name to_name c
        = (mkConn s' (trace c ++ failed_turn from_name to_name
                      ++ failed_turn from_name to_name
                      ++ failed_turn from_name to_name
                      ++ [rename_warning to_name])%list,
           Ok tt))
  /\ (forall k s1 s2 rows,
         (k < 3)%nat ->
         taken_turns server_exec from_name to_name k (server c) s1 ->
         server_exec s1 (rename_sql from_name to_name) = (s2, Ok rows) ->
         _rename_table server_exec from_name to_name c
         = (mkConn s2
              (trace c ++ concat (repeat (failed_turn from_name to_name) k)
               ++ [Query (rename_sql from_name to_name)])%list,
            Ok tt))
  /\ (forall s',
         taken_turns server_exec from_name to_name 3 (server c) s' ->
         _rename_table server_exec from_name to_name c
         = (mkConn s'
              (trace c ++ concat (repeat (failed_turn from_name to_name) 3)
               ++ [rename_warning to_name])%list,
            Ok tt)).
Proof.
  intros Hfrom Hto.
  assert (Hunfold :
            _rename_table server_exec from_name to_name c
            = match rename_loop server_exec num_tries from_name to_name c with
              | (c', Ok true) => (c', Ok tt)
              | (c', Ok false) => emit (rename_warning to_name) c'
              | (c', Raise e) => (c', Raise e)
              end).
  { unfold _rename_table, _testSqlIsClean, bind, lift.
    rewrite Hfrom, Hto.
    destruct (rename_loop server_exec num_tries from_name to_name c)
      as [c' [[|]|e]]; reflexivity. }
  split; [|split; [|split; [|split]]].
  - intros s' rows Hfree. rewrite Hunfold.
    unfold num_tries. cbn [rename_loop]. fold (rename_sql from_name to_name).
    unfold execute. now rewrite Hfree.
  - rewrite Hunfold.
    destruct (rename_loop_bounded num_tries c)
      as (new & Ht & HR & HD & HQ & HE).
    destruct (rename_loop server_exec num_tries from_name to_name c)
      as [c' [[|]|e]]; cbn [fst] in Ht |- *;
      try (exists new; repeat split; assumption).
    exists (new ++ [rename_warning to_name])%list.
    unfold emit. cbn [fst trace]. rewrite Ht, app_assoc.
    rewrite !count_query_app, queries_app.
    unfold count_query at 2 4. simpl. rewrite app_nil_r, !Nat.add_0_r.
    repeat split; assumption.
  - intros HR HD. rewrite Hunfold.
    destruct (rename_loop_exhausted num_tries c HR HD) as [s' ->].
    exists s'. unfold emit. cbn [server trace]. unfold num_tries.
    cbn [repeat concat]. now rewrite app_nil_r, <- !app_assoc.
  - intros k s1 s2 rows Hk Hturns Hok. rewrite Hunfold.
    now rewrite (rename_loop_recovers num_tries k c s1 s2 rows Hk Hturns Hok).
  - intros s' Hturns. rewrite Hunfold.
    rewrite (rename_loop_used_up num_tries c s' Hturns).
    unfold emit. cbn [server trace]. now rewrite <- app_assoc.
Qed.

End RenameProtocol.

Lemma rename_table_protocol_witness :
  _rename_table accepting_exec "tmpq3k9xz" "`dest`" (mkConn tt [])
  = (mkConn tt [Query "RENAME TABLE tmpq3k9xz TO `dest`"], Ok tt)
  /\ _rename_table scripted_exec "tmpq3k9xz" "`dest`"
       (mkConn [Raise (OperationalError MYSQL_ER_TABLE_EXISTS_ERROR);
                Ok []; Ok []] [])
     = (mkConn [] [Query "RENAME TABLE tmpq3k9xz TO `dest`";
                   Query "DROP TABLE `dest`";
                   Query "RENAME TABLE tmpq3k9xz TO `dest`"],
        Ok tt)
  /\ exists s',
      _rename_table thrashing_exec "tmpq3k9xz" "`dest`" (mkConn tt [])
      = (mkConn s'
           [Query "RENAME TABLE tmpq3k9xz TO `dest`"; Query "DROP TABLE `dest`";
            Query "RENAME TABLE tmpq3k9xz TO `dest`"; Query "DROP TABLE `dest`";
            Query "RENAME TABLE tmpq3k9xz TO `dest`"; Query "DROP TABLE `dest`";
            rename_warning "`dest`"],
         Ok tt).
Proof.
  split; [|split].
  - apply (proj1 (rename_table_protocol unit accepting_exec
                    "tmpq3k9xz" "`dest`" (mkConn tt []) eq_refl eq_refl)
             tt []).
    reflexivity.
  - apply (proj1 (proj2 (proj2 (proj2
             (rename_table_protocol _ scripted_exec "tmpq3k9xz" "`dest`"
                (mkConn [Raise (OperationalError MYSQL_ER_TABLE_EXISTS_ERROR);
                         Ok []; Ok []] [])
                eq_refl eq_refl))))
             1%nat [Ok []] [] []).
    + lia.
    + exists [Ok []; Ok []], [Ok []], []. repeat split.
    + reflexivity.
  - apply (proj1 (proj2 (proj2 (rename_table_protocol unit thrashing_exec
                                  "tmpq3k9xz" "`dest`" (mkConn tt [])
                                  eq_refl eq_refl)))).
    + intros s. exists s. reflexivity.
    + intros s. exists s, []. reflexivity.
Defined.

(** ** C1: the batch engine *)

Lemma str_app_nil_r (s : string) : s ++ "" = s.
Proof.
  induction s as [|c s IH]; [reflexivity|].
  change (String c (s ++ "") = String c s). now rewrite IH.
Qed.

Lemma str_app_assoc (s t u : string) : (s ++ t) ++ u = s ++ (t ++ u).
Proof.
  induction s as [|c s IH]; [reflexivity|].
  change (String c ((s ++ t) ++ u) = String c (s ++ (t ++ u))).
  now rewrite IH.
Qed.

Lemma res_map_cons_inv {A B} (f : A -> res B) (a : A) (l : list A)
    (bs : list B) :
  res_map f (a :: l) = Ok bs ->
  exists b bs', f a = Ok b /\ res_map f l = Ok bs' /\ bs = b :: bs'.
Proof.
  simpl. destruct (f a) as [b|e]; simpl; [|discriminate].
  destruct (res_map f l) as [bs'|e]; simpl; [|discriminate].
  intros [= <-]. now exists b, bs'.
Qed.

Lemma res_map_length {A B} (f : A -> res B) (l : list A) (bs : list B) :
  res_map f l = Ok bs -> length bs = length l.
Proof.
  revert bs. induction l as [|a l IH]; intros bs H.
  - injection H as <-. reflexivity.
  - apply res_map_cons_inv in H as (b & bs' & _ & H & ->).
    simpl. now rewrite (IH bs' H).
Qed.

Lemma res_map_skipn {A B} (f : A -> res B) (n : nat) (l : list A)
    (bs : list B) :
  res_map f l = Ok bs -> res_map f (skipn n l) = Ok (skipn n bs).
Proof.
  revert l bs. induction n as [|n IH]; intros l bs H; [exact H|].
  destruct l as [|a l].
  - injection H as <-. reflexivity.
  - apply res_map_cons_inv in H as (b & bs' & _ & H & ->).
    simpl. now apply IH.
Qed.

(** Cutting a list into groups of [m >= 1]: nothing is lost, no group is
    empty, and there are [ceil(n / m)] groups. *)
Lemma chunks_fuel_concat {A} (fuel m : nat) (l : list A) :
  (1 <= m)%nat -> (length l <= fuel)%nat ->
  concat (chunks_fuel fuel m l) = l
  /\ Forall (fun g => g <> []) (chunks_fuel fuel m l)
  /\ Z.of_nat (length (chunks_fuel fuel m l))
     = ceil_div (Z.of_nat (length l)) (Z.of_nat m).
Proof.
  intros Hm. revert l.
  induction fuel as [|fuel IH]; intros l Hl.
  - destruct l; [|simpl in Hl; lia].
    simpl. repeat split; auto.
    unfold ceil_div. symmetry. apply Z.div_small. lia.
  - destruct l as [|a l].
    { simpl. repeat split; auto.
      unfold ceil_div. symmetry. apply Z.div_small. simpl. lia. }
    cbn [chunks_fuel].
    assert (Hs : (length (skipn m (a :: l)) <= fuel)%nat).
    { rewrite length_skipn. simpl in *. lia. }
    destruct (IH (skipn m (a :: l)) Hs) as (Hc & Hn & Hlen).
    split; [|split].
    + cbn [concat]. rewrite Hc. apply firstn_skipn.
    + constructor; [|exact Hn]. destruct m; [lia|]. discriminate.
    + cbn [length]. rewrite Nat2Z.inj_succ, Hlen, length_skipn.
      unfold ceil_div. cbn [length].
      destruct (le_lt_dec (S (length l)) m) as [Hle|Hgt].
      * replace (S (length l) - m)%nat with 0%nat by lia.
        rewrite (Z.div_small (Z.of_nat 0 + _ - 1)) by lia.
        apply Z.div_unique with (r := (Z.of_nat (length l))); lia.
      * rewrite Nat2Z.inj_sub by lia.
        replace (Z.of_nat (S (length l)) + Z.of_nat m - 1)%Z
          with ((Z.of_nat (S (length l)) - Z.of_nat m + Z.of_nat m - 1)
                + 1 * Z.of_nat m)%Z by lia.
        rewrite Z.div_add by lia. lia.
Qed.

Section BatchEngine.

Variable ServerState : Type.
Variable server_exec :
  ServerState -> string -> ServerState * res (list (list string)).
Variable config : IngestCatalogConfig.

(** The server accepts every statement. *)
Hypothesis server_accepts :
  forall s sql, exists s' result, server_exec s sql = (s', Ok result).

Variable keys : list (nat * FieldFormatter).
Variable K : Z.
Hypothesis K_positive : (0 < K)%Z.

(** The inner loop takes as many rows of [K] bytes as fit in the budget. *)
Lemma fill_statement_uniform (remaining : list Row) (vs : list string)
    (sql : string) (max_value_len : Z) :
  res_map (row_literal keys) remaining = Ok vs ->
  Forall (fun v => len v = K) vs ->
  (0 <= max_value_len)%Z ->
  fill_statement keys remaining sql max_value_len
  = Ok (sql ++ String.concat "" (firstn (Z.to_nat (max_value_len / K)) vs),
        skipn (Z.to_nat (max_value_len / K)) remaining).
Proof.
  revert vs sql max_value_len.
  induction remaining as [|row rest IH]; intros vs sql b Hvs HK Hb.
  - injection Hvs as <-. simpl.
    rewrite firstn_nil, skipn_nil. simpl. now rewrite str_app_nil_r.
  - apply res_map_cons_inv in Hvs as (v & vs' & Hv & Hvs' & ->).
    apply Forall_cons_iff in HK as [Hlen HK].
    cbn [fill_statement]. rewrite Hv. cbn [res_bind]. rewrite Hlen.
    destruct (b - K <? 0)%Z eqn:E.
    + apply Z.ltb_lt in E.
      rewrite (Z.div_small b K) by lia. simpl. now rewrite str_app_nil_r.
    + apply Z.ltb_ge in E.
      rewrite (IH vs' (sql ++ v) (b - K)%Z Hvs' HK E).
      replace (b / K)%Z with ((b - K) / K + 1)%Z.
      2:{ replace b with ((b - K) + 1 * K)%Z at 2 by lia.
          now rewrite Z.div_add by lia. }
      rewrite Z2Nat.inj_add by (try apply Z.div_pos; lia).
      rewrite Nat.add_1_r. cbn [firstn skipn String.concat].
      f_equal. f_equal. rewrite str_app_assoc. f_equal.
      destruct (firstn (Z.to_nat ((b - K) / K)) vs') eqn:F; simpl.
      * now rewrite str_app_nil_r.
      * reflexivity.
Qed.

Lemma schema_item_skipped_warns (item : SchemaItem) (ev : event) :
  schema_item_skipped config item = Some ev -> queries [ev] = [].
Proof.
  unfold schema_item_skipped.
  destruct (field_formatters !! getTypeString (field item)).
  - destruct (max_column_len config <? _)%Z; [|discriminate].
    now intros [= <-].
  - now intros [= <-].
Qed.

(** [_schema_items] yields the ingestible items and sends no statement. *)
Lemma schema_items_run (sch : Schema) (c : conn ServerState) :
  exists warnings,
    _schema_items config sch c
    = (mkConn (server c) (trace c ++ warnings)%list, Ok (ingestible config sch))
    /\ queries warnings = [].
Proof.
  unfold _schema_items, ingestible.
  assert (Hgen : forall its acc (c : conn ServerState),
             exists warnings,
               foldM
                 (fun acc item =>
                    match schema_item_skipped config item with
                    | Some warning => bind (emit warning) (fun _ => ret acc)
                    | None => ret (acc ++ [item])%list
                    end) its acc c
               = (mkConn (server c) (trace c ++ warnings)%list,
                  Ok (acc ++ List.filter
                               (fun item =>
                                  match schema_item_skipped config item with
                                  | None => true
                                  | Some _ => false
                                  end) its)%list)
               /\ queries warnings = []).
  { clear c. induction its as [|item its IH]; intros acc c.
    - exists []. simpl. unfold ret. rewrite !app_nil_r. now destruct c.
    - cbn [foldM List.filter]. unfold bind at 1.
      destruct (schema_item_skipped config item) as [w|] eqn:E.
      + change (bind (emit w) (fun _ => ret acc) c)
          with (mkConn (server c) (trace c ++ [w])%list, Ok acc).
        destruct (IH acc (mkConn (server c) (trace c ++ [w])%list))
          as (ws & -> & Hq).
        exists ([w] ++ ws)%list. cbn [server trace].
        rewrite <- app_assoc. split; [reflexivity|].
        rewrite queries_app, Hq, (schema_item_skipped_warns item w E).
        reflexivity.
      + change (ret (acc ++ [item])%list c) with (c, Ok (acc ++ [item])%list).
        cbv iota beta.
        destruct (IH (acc ++ [item])%list c) as (ws & -> & Hq).
        exists ws. rewrite <- app_assoc. now split. }
  destruct (Hgen (items sch) [] c) as (ws & H & Hq).
  exists ws. split; [exact H | exact Hq].
Qed.

(** The outer loop sends one statement per group of [m] rows, where [m] is
    the number of rows of [K] bytes that fit in the budget, and ends. *)
Lemma ingest_loop_uniform (sql_prefix : string) (B : Z) (fuel : nat)
    (remaining : list Row) (vs : list string) (c : conn ServerState) :
  res_map (row_literal keys) remaining = Ok vs ->
  Forall (fun v => len v = K) vs ->
  (K <= B - len sql_prefix)%Z ->
  (length remaining <= fuel)%nat ->
  exists s',
    ingest_loop server_exec fuel keys sql_prefix B remaining c
    = (mkConn s'
         (trace c ++
          concat (List.map (statement_events sql_prefix)
                    (chunks_fuel fuel
                       (Z.to_nat ((B - len sql_prefix) / K)) vs)))%list,
       Ok tt).
Proof.
  intros Hvs HK Hfit. revert remaining vs c Hvs HK.
  set (m := Z.to_nat ((B - len sql_prefix) / K)).
  assert (Hm : (1 <= m)%nat).
  { assert (1 <= (B - len sql_prefix) / K)%Z
      by (apply Z.div_le_lower_bound; lia).
    unfold m. lia. }
  induction fuel as [|fuel IH]; intros remaining vs c Hvs HK Hlen.
  - destruct remaining; [|simpl in Hlen; lia].
    injection Hvs as <-. exists (server c). simpl.
    rewrite app_nil_r. now destruct c.
  - destruct remaining as [|row rest].
    { injection Hvs as <-. exists (server c). simpl.
      rewrite app_nil_r. now destruct c. }
    pose proof (res_map_length _ _ _ Hvs) as Hlv.
    destruct vs as [|v vs']; [discriminate Hlv|].
    cbn [ingest_loop chunks_fuel List.map concat].
    unfold bind at 1, lift.
    rewrite (fill_statement_uniform (row :: rest) (v :: vs') sql_prefix
               (B - len sql_prefix)%Z Hvs HK) by lia.
    fold m. cbv iota beta.
    assert (Hprog : (length (skipn m (row :: rest))
                     =? length (row :: rest))%nat = false).
    { apply Nat.eqb_neq. rewrite length_skipn. simpl. lia. }
    rewrite Hprog.
    unfold bind at 1, _execute_sql, bind, emit, execute.
    cbn [server trace].
    fold (statement sql_prefix (firstn m (v :: vs'))).
    destruct (server_accepts (server c)
                (statement sql_prefix (firstn m (v :: vs'))))
      as (s1 & result & ->).
    unfold ret. cbv iota beta.
    destruct (IH (skipn m (row :: rest)) (skipn m (v :: vs'))
                (mkConn s1 ((trace c ++ [LogDebug
                                           (statement sql_prefix
                                              (firstn m (v :: vs'))) []])
                            ++ [Query (statement sql_prefix
                                         (firstn m (v :: vs')))])%list))
      as [s' ->].
    + now apply res_map_skipn.
    + now apply Forall_drop.
    + rewrite length_skipn. simpl in *. lia.
    + exists s'. cbn [trace]. unfold statement_events at 2.
      now rewrite <- !app_assoc.
Qed.

Lemma queries_statement_events (sql_prefix : string)
    (groups : list (list string)) :
  queries (concat (List.map (statement_events sql_prefix) groups))
  = List.map (statement sql_prefix) groups.
Proof.
  induction groups as [|g groups IH]; [reflexivity|].
  cbn [List.map concat]. rewrite queries_app, IH. reflexivity.
Qed.

(** C1. Let every row literal be [K] bytes long, let the server accept all
    statements, and let [budget] be the byte budget less the length of the
    statement prefix. If a row fits ([K <= budget]), [_do_ingest] ends
    normally, the statements it sends are the prefix followed by the
    literals of consecutive groups of [budget / K] whole rows (the last
    group possibly smaller, none empty, no row left out), and their number
    is [ceil(N / (budget / K))]. If a row does not fit and there is one, it
    raises the error of the single row too large, having sent no
    statement. *)
Theorem do_ingest_batches (cat : Catalog) (table_name : string) (B : Z)
    (vs : list string) (c : conn ServerState) :
  ingest_keys (ingestible config (schema cat)) = Ok keys ->
  res_map (row_literal keys) (rows cat) = Ok vs ->
  Forall (fun v => len v = K) vs ->
  let sql_prefix :=
    ingest_prefix config table_name (ingestible config (schema cat)) in
  let budget := (B - len sql_prefix)%Z in
  let groups := chunks (Z.to_nat (budget / K)) vs in
  ((K <= budget)%Z ->
   (exists c',
       _do_ingest server_exec config cat table_name B c = (c', Ok tt)
       /\ queries (trace c')
          = (queries (trace c) ++ List.map (statement sql_prefix) groups)%list)
   /\ Z.of_nat (length groups)
      = ceil_div (Z.of_nat (length (rows cat))) (budget / K)
   /\ concat groups = vs
   /\ Forall (fun g => g <> []) groups)
  /\ ((budget < K)%Z -> rows cat <> [] ->
      exists c',
        _do_ingest server_exec config cat table_name B c
        = (c', Raise (RuntimeError "Single row is too large to insert"))
        /\ queries (trace c') = queries (trace c)).
Proof.
  intros Hkeys Hvs HK sql_prefix budget groups.
  destruct (schema_items_run (schema cat) c) as (ws & Hs & Hq).
  pose proof (res_map_length _ _ _ Hvs) as Hlen.
  split.
  - intros Hfit.
    assert (H1 : (1 <= budget / K)%Z)
      by (apply Z.div_le_lower_bound; lia).
    destruct (chunks_fuel_concat (length vs) (Z.to_nat (budget / K)) vs)
      as (Hc & Hn & Hcount); [lia | lia |].
    split; [|split; [|split]].
    + destruct (ingest_loop_uniform sql_prefix B (length (rows cat))
                  (rows cat) vs
                  (mkConn (server c) (trace c ++ ws)%list) Hvs HK Hfit)
        as [s' Hloop]; [lia|].
      eexists. split.
      * unfold _do_ingest, bind at 1. rewrite Hs.
        unfold bind at 1, lift. rewrite Hkeys.
        unfold bind at 1. fold sql_prefix. rewrite Hloop.
        unfold emit. reflexivity.
      * cbn [trace]. rewrite !queries_app, queries_statement_events, Hq.
        fold budget. rewrite <- Hlen. fold (chunks (Z.to_nat (budget / K)) vs).
        fold groups. simpl. now rewrite !app_nil_r.
    + unfold groups, chunks. rewrite Hcount, Hlen.
      now rewrite Z2Nat.id by lia.
    + exact Hc.
    + exact Hn.
  - intros Hbig Hrows.
    destruct (rows cat) as [|row rest] eqn:Erows; [congruence|].
    apply res_map_cons_inv in Hvs as (v & vs' & Hv & Hvs' & ->).
    apply Forall_cons_iff in HK as [HKv _].
    eexists. split.
    + unfold _do_ingest, bind at 1. rewrite Hs.
      unfold bind at 1, lift. rewrite Hkeys.
      unfold bind at 1. fold sql_prefix. rewrite Erows.
      cbn [length ingest_loop fill_statement].
      unfold bind at 1, lift. rewrite Hv. cbn [res_bind]. rewrite HKv.
      fold budget.
      replace (budget - K <? 0)%Z with true by (symmetry; apply Z.ltb_lt; lia).
      cbv iota beta. rewrite Nat.eqb_refl. unfold raise. reflexivity.
    + cbn [trace]. now rewrite queries_app, Hq, app_nil_r.
Qed.

End BatchEngine.

Lemma do_ingest_batches_witness :
  (exists c',
      _do_ingest accepting_exec sample_config three_rows_catalog
        "tmpq3k9xz" 52 (mkConn tt [])
      = (c', Ok tt)
      /\ queries (trace c')
         = [ "INSERT INTO tmpq3k9xz (a,b) VALUES (1,1.5),(1,1.5)";
             "INSERT INTO tmpq3k9xz (a,b) VALUES (1,1.5)" ])
  /\ (exists c',
         _do_ingest accepting_exec sample_config three_rows_catalog
           "tmpq3k9xz" 40 (mkConn tt [])
         = (c', Raise (RuntimeError "Single row is too large to insert"))
         /\ queries (trace c') = []).
Proof.
  assert (Haccept : forall (s : unit) (sql : string),
             exists s' result, accepting_exec s sql = (s', Ok result)).
  { intros s sql. exists s, []. reflexivity. }
  assert (Hkeys : ingest_keys (ingestible sample_config
                                 (schema three_rows_catalog))
                  = Ok [double_key 0; double_key 1])
    by reflexivity.
  assert (Hvs : res_map (row_literal [double_key 0; double_key 1])
                  (rows three_rows_catalog)
                = Ok ["(1,1.5),"; "(1,1.5),"; "(1,1.5),"])
    by (vm_compute; reflexivity).
  assert (HK : Forall (fun v => len v = 8%Z)
                 ["(1,1.5),"; "(1,1.5),"; "(1,1.5),"])
    by (repeat constructor).
  split.
  - destruct (do_ingest_batches unit accepting_exec sample_config Haccept
                [double_key 0; double_key 1] 8%Z eq_refl
                three_rows_catalog "tmpq3k9xz" 52%Z _ (mkConn tt [])
                Hkeys Hvs HK) as [Hfit _].
    destruct Hfit as [(c' & Hrun & Hq) _]; [vm_compute; discriminate|].
    exists c'. split; [exact Hrun | exact Hq].
  - destruct (do_ingest_batches unit accepting_exec sample_config Haccept
                [double_key 0; double_key 1] 8%Z eq_refl
                three_rows_catalog "tmpq3k9xz" 40%Z _ (mkConn tt [])
                Hkeys Hvs HK) as [_ Hbig].
    destruct Hbig as (c' & Hrun & Hq); [reflexivity | discriminate |].
    exists c'. split; [exact Hrun | exact Hq].
Defined.

(** The fuel of the outer loop is never used up: whatever the rows, the
    formatters and the server do, more fuel than [len(cat)] changes
    nothing. *)
Lemma fill_statement_suffix (keys : list (nat * FieldFormatter))
    (remaining : list Row) (sql : string) (max_value_len : Z)
    (sql' : string) (rest : list Row) :
  fill_statement keys remaining sql max_value_len = Ok (sql', rest) ->
  (length rest <= length remaining)%nat.
Proof.
  revert sql max_value_len.
  induction remaining as [|row rest0 IH]; intros sql b H.
  - injection H as _ <-. reflexivity.
  - cbn [fill_statement] in H.
    destruct (row_literal keys row) as [v|e]; [|discriminate].
    cbn [res_bind] in H.
    destruct (b - len v <? 0)%Z.
    + injection H as _ <-. reflexivity.
    + apply IH in H. simpl. lia.
Qed.

Lemma bind_run {ServerState A B : Type} (m : M ServerState A)
    (k : A -> M ServerState B) (c : conn ServerState) :
  bind m k c
  = match m c with
    | (c', Ok a) => k a c'
    | (c', Raise e) => (c', Raise e)
    end.
Proof. reflexivity. Qed.

Lemma bind_lift {ServerState A B : Type} (r : res A)
    (k : A -> M ServerState B) (c : conn ServerState) :
  bind (lift r) k c
  = match r with
    | Ok a => k a c
    | Raise e => (c, Raise e)
    end.
Proof. unfold bind, lift. now destruct r. Qed.

Lemma ingest_loop_fuel (ServerState : Type)
    (server_exec : ServerState -> string ->
                   ServerState * res (list (list string)))
    (keys : list (nat * FieldFormatter)) (sql_prefix : string) (B : Z)
    (fuel1 fuel2 : nat) (remaining : list Row) (c : conn ServerState) :
  (length remaining <= fuel1)%nat -> (length remaining <= fuel2)%nat ->
  ingest_loop server_exec fuel1 keys sql_prefix B remaining c
  = ingest_loop server_exec fuel2 keys sql_prefix B remaining c.
Proof.
  revert fuel2 remaining c.
  induction fuel1 as [|fuel1 IH]; intros fuel2 remaining c H1 H2.
  - destruct remaining; [|simpl in H1; lia]. now destruct fuel2.
  - destruct remaining as [|row rest0]; [now destruct fuel2|].
    destruct fuel2 as [|fuel2]; [simpl in H2; lia|].
    cbn [ingest_loop]. rewrite !bind_lift.
    destruct (fill_statement keys (row :: rest0) sql_prefix
                (B - len sql_prefix)) as [[sql rest]|e] eqn:Efill;
      [|reflexivity].
    apply fill_statement_suffix in Efill.
    destruct (length rest =? length (row :: rest0))%nat eqn:Eprog;
      [reflexivity|].
    apply Nat.eqb_neq in Eprog.
    rewrite !bind_run.
    destruct (_execute_sql server_exec (PyStr.drop_last sql) c)
      as [c' [[]|e]]; [|reflexivity].
    apply IH; simpl in *; lia.
Qed.

(** ** C3: significant digits of the float formatters *)

Section DecimalRounding.

Local Open Scope Z_scope.

Lemma count_digits_spec (fuel : nat) (n : Z) :
  1 <= n < 2 ^ (Z.of_nat fuel + 1) ->
  1 <= PyNum.count_digits fuel n
  /\ 10 ^ (PyNum.count_digits fuel n - 1) <= n
     < 10 ^ PyNum.count_digits fuel n.
Proof.
  revert n. induction fuel as [|fuel IH]; intros n Hn.
  - simpl in *. lia.
  - cbn [PyNum.count_digits].
    destruct (n <? 10) eqn:E.
    + apply Z.ltb_lt in E. simpl. lia.
    + apply Z.ltb_ge in E.
      assert (Hdiv : 1 <= n / 10 < 2 ^ (Z.of_nat fuel + 1)).
      { split; [apply Z.div_le_lower_bound; lia|].
        apply Z.div_lt_upper_bound; [lia|].
        rewrite Nat2Z.inj_succ in Hn.
        replace (Z.succ (Z.of_nat fuel) + 1) with (Z.of_nat fuel + 1 + 1)
          in Hn by lia.
        rewrite (Z.pow_add_r 2 _ 1) in Hn by lia.
        assert (0 < 2 ^ (Z.of_nat fuel + 1)) by (apply Z.pow_pos_nonneg; lia).
        lia. }
      destruct (IH (n / 10) Hdiv) as (Hk & Hlo & Hhi).
      set (k := PyNum.count_digits fuel (n / 10)) in *.
      replace (1 + k - 1) with (k - 1 + 1) by lia.
      replace (1 + k) with (k + 1) by lia.
      rewrite !Z.pow_add_r by lia. change (10 ^ 1) with 10.
      pose proof (Z.div_mod n 10 ltac:(lia)) as Hdm.
      pose proof (Z.mod_pos_bound n 10 ltac:(lia)) as Hmod.
      lia.
Qed.

Lemma ndigits_spec (n : Z) :
  1 <= n ->
  1 <= PyNum.ndigits n
  /\ 10 ^ (PyNum.ndigits n - 1) <= n < 10 ^ PyNum.ndigits n.
Proof.
  intros Hn. unfold PyNum.ndigits. apply count_digits_spec.
  split; [exact Hn|].
  rewrite Z2Nat.id by apply Z.log2_nonneg.
  replace (Z.log2 n + 1) with (Z.succ (Z.log2 n)) by lia.
  apply Z.log2_spec. lia.
Qed.

Lemma leading_zeros_spec (fuel : nat) (num den : Z) :
  0 < num < den ->
  den <= num * 2 ^ (Z.of_nat fuel + 1) ->
  0 <= PyNum.leading_zeros fuel num den
  /\ num * 10 ^ PyNum.leading_zeros fuel num den < den
     <= num * 10 ^ (PyNum.leading_zeros fuel num den + 1).
Proof.
  revert num. induction fuel as [|fuel IH]; intros num Hnum Hfuel.
  - simpl in *. lia.
  - cbn [PyNum.leading_zeros].
    destruct (den <=? num * 10) eqn:E.
    + apply Z.leb_le in E. simpl. lia.
    + apply Z.leb_gt in E.
      assert (Hfuel' : den <= num * 10 * 2 ^ (Z.of_nat fuel + 1)).
      { rewrite Nat2Z.inj_succ in Hfuel.
        replace (Z.succ (Z.of_nat fuel) + 1) with (Z.of_nat fuel + 1 + 1)
          in Hfuel by lia.
        rewrite (Z.pow_add_r 2 _ 1) in Hfuel by lia.
        assert (0 < 2 ^ (Z.of_nat fuel + 1)) by (apply Z.pow_pos_nonneg; lia).
        nia. }
      destruct (IH (num * 10) ltac:(lia) Hfuel') as (Hj & Hlo & Hhi).
      set (j := PyNum.leading_zeros fuel (num * 10) den) in *.
      replace (1 + j) with (j + 1) by lia.
      split; [lia|].
      rewrite (Z.pow_add_r 10 (j + 1) 1) by lia.
      rewrite (Z.pow_add_r 10 j 1) in * by lia.
      change (10 ^ 1) with 10 in *.
      set (p := 10 ^ j) in *. clearbody p. nia.
Qed.

(** The decimal point is where it should be: [num / den] lies between
    [10 ^ (decpt - 1)] and [10 ^ decpt]. *)
Lemma decimal_point_spec (num den : Z) :
  0 < num -> 0 < den ->
  let decpt := PyNum.decimal_point num den in
  (1 <= decpt /\ 10 ^ (decpt - 1) * den <= num < 10 ^ decpt * den)
  \/ (decpt <= 0 /\ num * 10 ^ (- decpt) < den <= num * 10 ^ (1 - decpt)).
Proof.
  intros Hnum Hden. unfold PyNum.decimal_point.
  destruct (den <=? num) eqn:E.
  - apply Z.leb_le in E. left.
    assert (Hq : 1 <= num / den) by (apply Z.div_le_lower_bound; lia).
    destruct (ndigits_spec (num / den) Hq) as (Hk & Hlo & Hhi).
    set (k := PyNum.ndigits (num / den)) in *.
    pose proof (Z.div_mod num den ltac:(lia)) as Hdm.
    pose proof (Z.mod_pos_bound num den Hden) as Hmod.
    split; [exact Hk|]. nia.
  - apply Z.leb_gt in E. right.
    destruct (leading_zeros_spec (Z.to_nat (Z.log2 den)) num den)
      as (Hj & Hlo & Hhi); [lia | |].
    { rewrite Z2Nat.id by apply Z.log2_nonneg.
      replace (Z.log2 den + 1) with (Z.succ (Z.log2 den)) by lia.
      pose proof (Z.log2_spec den Hden) as Hlog.
      set (T := 2 ^ Z.succ (Z.log2 den)) in *. clearbody T.
      apply Z.le_trans with (1 * T); [lia|].
      apply Z.mul_le_mono_nonneg_r; lia. }
    set (j := PyNum.leading_zeros (Z.to_nat (Z.log2 den)) num den) in *.
    replace (- - j) with j by lia.
    replace (1 - - j) with (j + 1) by lia.
    split; [lia|]. split; assumption.
Qed.

Lemma round_half_even_spec (n d : Z) :
  0 <= n -> 0 < d ->
  n / d <= PyNum.round_half_even n d <= n / d + 1
  /\ Z.abs (2 * (PyNum.round_half_even n d * d - n)) <= d.
Proof.
  intros Hn Hd. unfold PyNum.round_half_even.
  pose proof (Z.div_mod n d ltac:(lia)) as Hdm.
  pose proof (Z.mod_pos_bound n d Hd) as Hmod.
  set (q := n / d) in *. set (r := n mod d) in *. clearbody q r.
  assert (H0 : q * d - n = - r) by lia.
  assert (H1 : (q + 1) * d - n = d - r) by lia.
  destruct (Z.compare_spec (2 * r) d) as [E|E|E].
  - destruct (Z.even q); rewrite ?H0, ?H1; lia.
  - rewrite H0. lia.
  - rewrite H1. lia.
Qed.

Lemma pow10_pos (k : Z) : 0 <= k -> 0 < 10 ^ k.
Proof. intros H. apply Z.pow_pos_nonneg; lia. Qed.

Lemma pow10_split (a b : Z) : 0 <= a -> 0 <= b -> 10 ^ (a + b) = 10 ^ a * 10 ^ b.
Proof. intros. now apply Z.pow_add_r. Qed.

(** Scaled by [10 ^ (P - decpt)], the value lies between [10 ^ (P - 1)]
    and [10 ^ P], so its rounding has [P] digits, or is [10 ^ P]. *)
Lemma scaled_round_spec (P num den : Z) :
  1 <= P -> 0 < num -> 0 < den ->
  let decpt := PyNum.decimal_point num den in
  let q := PyNum.scaled_round num den (P - decpt) in
  10 ^ (P - 1) <= q <= 10 ^ P
  /\ within_half_unit P num den q decpt.
Proof.
  intros HP Hnum Hden decpt q. unfold within_half_unit.
  pose proof (decimal_point_spec num den Hnum Hden) as Hd.
  cbv zeta in Hd. fold decpt in Hd.
  unfold q, PyNum.scaled_round.
  pose proof (pow10_pos (P - 1) ltac:(lia)) as HposP.
  assert (HP10 : 10 ^ P = 10 ^ (P - 1) * 10).
  { replace P with (P - 1 + 1) at 1 by lia. now rewrite pow10_split by lia. }
  destruct (0 <=? P - decpt) eqn:E.
  - apply Z.leb_le in E.
    rewrite (Z.max_r 0 (P - decpt)) by lia.
    rewrite (Z.max_l 0 (decpt - P)) by lia.
    change (10 ^ 0) with 1.
    pose proof (pow10_pos (P - decpt) E) as Hs.
    assert (Hrange : 10 ^ (P - 1) * den <= num * 10 ^ (P - decpt)
                     < 10 ^ P * den).
    { destruct Hd as [(H1 & Hlo & Hhi)|(H0 & Hlo & Hhi)].
      - assert (E1 : 10 ^ (P - 1) = 10 ^ (decpt - 1) * 10 ^ (P - decpt))
          by (rewrite <- pow10_split by lia; f_equal; lia).
        assert (E2 : 10 ^ P = 10 ^ decpt * 10 ^ (P - decpt))
          by (rewrite <- pow10_split by lia; f_equal; lia).
        rewrite E1, E2.
        set (s := 10 ^ (P - decpt)) in *.
        set (lo := 10 ^ (decpt - 1)) in *. set (hi := 10 ^ decpt) in *.
        clearbody s lo hi. nia.
      - assert (E1 : 10 ^ (P - decpt) = 10 ^ (- decpt) * 10 ^ P)
          by (rewrite <- pow10_split by lia; f_equal; lia).
        assert (E2 : 10 ^ (P - decpt) = 10 ^ (1 - decpt) * 10 ^ (P - 1))
          by (rewrite <- pow10_split by lia; f_equal; lia).
        pose proof (pow10_pos P ltac:(lia)) as Hp.
        split; [rewrite E2 | rewrite E1].
        + set (hi := 10 ^ (1 - decpt)) in *. set (p1 := 10 ^ (P - 1)) in *.
          clearbody hi p1. nia.
        + set (lo := 10 ^ (- decpt)) in *. set (p := 10 ^ P) in *.
          clearbody lo p. nia. }
    set (n' := num * 10 ^ (P - decpt)) in *.
    assert (Hn' : 0 <= n') by (unfold n'; nia).
    destruct (round_half_even_spec n' den Hn' Hden) as ((Hq1 & Hq2) & Herr).
    set (r := PyNum.round_half_even n' den) in *.
    split.
    + assert (10 ^ (P - 1) <= n' / den)
        by (apply Z.div_le_lower_bound; lia).
      assert (n' / den < 10 ^ P)
        by (apply Z.div_lt_upper_bound; lia).
      lia.
    + replace (r * den * 1 - n') with (r * den - n') by lia.
      lia.
  - apply Z.leb_gt in E.
    rewrite (Z.max_l 0 (P - decpt)) by lia.
    rewrite (Z.max_r 0 (decpt - P)) by lia.
    change (10 ^ 0) with 1.
    replace (- (P - decpt)) with (decpt - P) by lia.
    pose proof (pow10_pos (decpt - P) ltac:(lia)) as Hs.
    destruct Hd as [(H1 & Hlo & Hhi)|(H0 & _)]; [|lia].
    assert (Hrange : 10 ^ (P - 1) * (den * 10 ^ (decpt - P)) <= num
                     < 10 ^ P * (den * 10 ^ (decpt - P))).
    { assert (E1 : 10 ^ (decpt - 1) = 10 ^ (P - 1) * 10 ^ (decpt - P))
        by (rewrite <- pow10_split by lia; f_equal; lia).
      assert (E2 : 10 ^ decpt = 10 ^ P * 10 ^ (decpt - P))
        by (rewrite <- pow10_split by lia; f_equal; lia).
      rewrite E1 in Hlo. rewrite E2 in Hhi.
      set (s := 10 ^ (decpt - P)) in *. set (p1 := 10 ^ (P - 1)) in *.
      set (p := 10 ^ P) in *. clearbody s p1 p. nia. }
    set (d' := den * 10 ^ (decpt - P)) in *.
    assert (Hd' : 0 < d') by (unfold d'; nia).
    destruct (round_half_even_spec num d' ltac:(lia) Hd')
      as ((Hq1 & Hq2) & Herr).
    set (r := PyNum.round_half_even num d') in *.
    split.
    + assert (10 ^ (P - 1) <= num / d')
        by (apply Z.div_le_lower_bound; lia).
      assert (num / d' < 10 ^ P)
        by (apply Z.div_lt_upper_bound; lia).
      lia.
    + replace (r * den * 10 ^ (decpt - P) - num * 1) with (r * d' - num)
        by (unfold d'; ring).
      exact Herr.
Qed.

(** The conversion to [P] significant digits: [q] has exactly [P] digits
    and [q * 10 ^ (decpt - P)] is within half a unit of the last digit of
    [num / den]. *)
Lemma decimal_round_spec (P num den : Z) :
  1 <= P -> 0 < num -> 0 < den ->
  10 ^ (P - 1) <= fst (PyNum.decimal_round P num den) < 10 ^ P
  /\ within_half_unit P num den (fst (PyNum.decimal_round P num den))
       (snd (PyNum.decimal_round P num den)).
Proof.
  intros HP Hnum Hden.
  destruct (scaled_round_spec P num den HP Hnum Hden) as ((Hlo & Hhi) & Herr).
  unfold PyNum.decimal_round.
  set (decpt := PyNum.decimal_point num den) in *.
  set (q := PyNum.scaled_round num den (P - decpt)) in *. clearbody q.
  pose proof (pow10_pos (P - 1) ltac:(lia)) as HposP.
  assert (HP10 : 10 ^ P = 10 ^ (P - 1) * 10).
  { replace P with (P - 1 + 1) at 1 by lia. now rewrite pow10_split by lia. }
  destruct (q =? 10 ^ P) eqn:E.
  - apply Z.eqb_eq in E. subst q. cbn [fst snd].
    split; [lia|].
    unfold within_half_unit in *.
    destruct (Z_le_gt_dec 1 (P - decpt)) as [Hs|Hs].
    + rewrite (Z.max_r 0 (P - (decpt + 1))) by lia.
      rewrite (Z.max_l 0 (decpt + 1 - P)) by lia.
      rewrite (Z.max_r 0 (P - decpt)) in Herr by lia.
      rewrite (Z.max_l 0 (decpt - P)) in Herr by lia.
      change (10 ^ 0) with 1 in *.
      assert (Es : 10 ^ (P - decpt) = 10 ^ (P - (decpt + 1)) * 10).
      { replace (P - decpt) with (P - (decpt + 1) + 1) at 1 by lia.
        now rewrite pow10_split by lia. }
      rewrite Es, HP10 in Herr.
      set (p1 := 10 ^ (P - 1)) in *. set (s1 := 10 ^ (P - (decpt + 1))) in *.
      clearbody p1 s1. lia.
    + rewrite (Z.max_l 0 (P - (decpt + 1))) by lia.
      rewrite (Z.max_r 0 (decpt + 1 - P)) by lia.
      rewrite (Z.max_l 0 (P - decpt)) in Herr by lia.
      rewrite (Z.max_r 0 (decpt - P)) in Herr by lia.
      change (10 ^ 0) with 1 in *.
      assert (Es : 10 ^ (decpt + 1 - P) = 10 ^ (decpt - P) * 10).
      { replace (decpt + 1 - P) with (decpt - P + 1) by lia.
        now rewrite pow10_split by lia. }
      pose proof (pow10_pos (decpt - P) ltac:(lia)) as Hb.
      rewrite Es. rewrite HP10 in Herr.
      set (p1 := 10 ^ (P - 1)) in *. set (b := 10 ^ (decpt - P)) in *.
      clearbody p1 b.
      replace (p1 * den * (b * 10) - num * 1)
        with (p1 * 10 * den * b - num * 1) by ring.
      assert (0 < den * b) by nia. lia.
  - apply Z.eqb_neq in E. cbn [fst snd]. split; [lia | exact Herr].
Qed.

End DecimalRounding.

Example parse_decimal_samples :
  parse_decimal "0.100000001" = Some (false, 100000001, -9)%Z
  /\ parse_decimal "-4.94065646e-324" = Some (true, 494065646, -332)%Z
  /\ parse_decimal "1e+22" = Some (false, 1, 22)%Z
  /\ parse_decimal "10000000000000000" = Some (false, 10000000000000000, 0)%Z
  /\ parse_decimal "NULL" = None.
Proof. repeat split; reflexivity. Qed.

Section LiteralRoundTrip.

Local Open Scope Z_scope.

Lemma str_cons_app (c : ascii) (s t : string) :
  (String c s ++ t)%string = String c (s ++ t).
Proof. reflexivity. Qed.

Lemma len_cons (c : ascii) (s : string) : len (String c s) = 1 + len s.
Proof. unfold len. cbn [String.length]. lia. Qed.

Lemma len_app (s t : string) : len (s ++ t) = len s + len t.
Proof.
  induction s as [|c s IH]; [reflexivity|].
  rewrite str_cons_app, !len_cons, IH. lia.
Qed.

Lemma all_digits_cons (c : ascii) (s : string) :
  all_digits (String c s) = is_digit c && all_digits s.
Proof. reflexivity. Qed.

Lemma all_digits_app (s t : string) :
  all_digits (s ++ t) = all_digits s && all_digits t.
Proof.
  induction s as [|c s IH]; [reflexivity|].
  rewrite str_cons_app, !all_digits_cons, IH. now rewrite andb_assoc.
Qed.

Lemma value_acc_app (a : Z) (s t : string) :
  value_acc a (s ++ t) = value_acc (value_acc a s) t.
Proof.
  revert a. induction s as [|c s IH]; intros a; [reflexivity|].
  rewrite str_cons_app. cbn [value_acc]. apply IH.
Qed.

Lemma read_digits_app (ds rest : string) (acc count : Z) :
  all_digits ds = true -> starts_nondigit rest = true ->
  read_digits (ds ++ rest) acc count
  = (value_acc acc ds, count + len ds, rest).
Proof.
  intros Hds Hrest. revert acc count.
  induction ds as [|c ds IH]; intros acc count.
  - change ("" ++ rest)%string with rest. cbn [value_acc].
    replace (count + len "") with count by (unfold len; simpl; lia).
    destruct rest as [|d rest]; [reflexivity|].
    cbn [read_digits]. cbn [starts_nondigit] in Hrest.
    now destruct (is_digit d).
  - rewrite all_digits_cons in Hds. apply andb_prop in Hds as [Hc Hds].
    rewrite str_cons_app. cbn [read_digits value_acc]. rewrite Hc.
    rewrite (IH Hds), len_cons. f_equal. f_equal. lia.
Qed.

Lemma zeros_spec (n : nat) :
  all_digits (PyNum.zeros n) = true
  /\ len (PyNum.zeros n) = Z.of_nat n
  /\ forall a, value_acc a (PyNum.zeros n) = a * 10 ^ Z.of_nat n.
Proof.
  induction n as [|n (IH1 & IH2 & IH3)].
  - repeat split. intros a. simpl. lia.
  - cbn [PyNum.zeros]. rewrite all_digits_cons, len_cons, IH1, IH2.
    repeat split; [lia|]. intros a. cbn [value_acc]. rewrite IH3.
    rewrite Nat2Z.inj_succ, Z.pow_succ_r by lia.
    change (digit_value "0") with 0. ring.
Qed.

Lemma take_drop (n : nat) (s : string) :
  (PyNum.take n s ++ PyStr.drop n s)%string = s.
Proof.
  revert s. induction n as [|n IH]; intros s; [now destruct s|].
  destruct s as [|c s]; [reflexivity|].
  cbn [PyNum.take PyStr.drop]. rewrite str_cons_app. now rewrite IH.
Qed.

Lemma len_take (n : nat) (s : string) :
  Z.of_nat n <= len s -> len (PyNum.take n s) = Z.of_nat n.
Proof.
  revert s. induction n as [|n IH]; intros s Hn; [now destruct s|].
  destruct s as [|c s]; [unfold len in Hn; simpl in Hn; lia|].
  cbn [PyNum.take]. rewrite len_cons in *. rewrite IH; lia.
Qed.

Lemma digit_char_spec (d : Z) :
  0 <= d < 10 ->
  is_digit (PyNum.digit_char d) = true
  /\ digit_value (PyNum.digit_char d) = d.
Proof.
  intros Hd.
  assert (H : d = 0 \/ d = 1 \/ d = 2 \/ d = 3 \/ d = 4 \/ d = 5 \/ d = 6
              \/ d = 7 \/ d = 8 \/ d = 9) by lia.
  repeat (destruct H as [->|H]; [split; reflexivity|]).
  subst d. split; reflexivity.
Qed.

(** The [n] digits that [digits_of] writes spell [q mod 10 ^ n]. *)
Lemma digits_of_spec (n : nat) (q : Z) (acc : string) :
  PyNum.digits_of n q acc = (PyNum.digits_of n q "" ++ acc)%string
  /\ all_digits (PyNum.digits_of n q "") = true
  /\ len (PyNum.digits_of n q "") = Z.of_nat n
  /\ forall a, value_acc a (PyNum.digits_of n q "")
               = a * 10 ^ Z.of_nat n + q mod 10 ^ Z.of_nat n.
Proof.
  revert q acc. induction n as [|n IH]; intros q acc.
  - repeat split. intros a. simpl. rewrite Z.mod_1_r. lia.
  - cbn [PyNum.digits_of].
    set (d := PyNum.digit_char (q mod 10)).
    destruct (digit_char_spec (q mod 10)) as [Hd1 Hd2];
      [apply Z.mod_pos_bound; lia|]. fold d in Hd1, Hd2.
    destruct (IH (q / 10) (String d acc)) as (Ha & _).
    destruct (IH (q / 10) (String d "")) as (Hb & Hdig & Hlen & Hval).
    split; [|split; [|split]].
    + rewrite Ha, Hb, str_app_assoc. reflexivity.
    + rewrite Hb, all_digits_app, Hdig, all_digits_cons, Hd1. reflexivity.
    + rewrite Hb, len_app, Hlen, len_cons. unfold len. simpl. lia.
    + intros a. rewrite Hb, value_acc_app, Hval. cbn [value_acc].
      rewrite Hd2, Nat2Z.inj_succ, Z.pow_succ_r by lia.
      rewrite (Z.rem_mul_r q 10 (10 ^ Z.of_nat n)); [ring | lia |].
      apply Z.pow_pos_nonneg; lia.
Qed.

(** Stripping takes away zeros at the end, and only those. *)
Lemma strip_trailing_zeros_spec (s : string) :
  exists z, s = (PyNum.strip_trailing_zeros s ++ PyNum.zeros z)%string.
Proof.
  induction s as [|c s [z IH]].
  - exists 0%nat. reflexivity.
  - cbn [PyNum.strip_trailing_zeros].
    destruct (PyNum.strip_trailing_zeros s) as [|c' t] eqn:E.
    + destruct (Ascii.eqb c "0") eqn:Ec.
      * apply Ascii.eqb_eq in Ec. subst c.
        exists (S z). rewrite IH. reflexivity.
      * exists z. rewrite IH at 1. reflexivity.
    + exists z. rewrite IH at 1. reflexivity.
Qed.

(** [str(a)] of a natural number is its digits. *)
Lemma str_int_nonneg (a : Z) :
  0 <= a ->
  all_digits (PyNum.str_int a) = true
  /\ 1 <= len (PyNum.str_int a)
  /\ value_acc 0 (PyNum.str_int a) = a.
Proof.
  intros Ha. unfold PyNum.str_int.
  replace (a <? 0) with false by (symmetry; apply Z.ltb_ge; lia).
  rewrite Z.abs_eq by lia.
  change ("" ++ PyNum.digits_of (Z.to_nat (PyNum.ndigits a)) a "")%string
    with (PyNum.digits_of (Z.to_nat (PyNum.ndigits a)) a "").
  destruct (digits_of_spec (Z.to_nat (PyNum.ndigits a)) a "")
    as (_ & Hdig & Hlen & Hval).
  assert (Hk : 1 <= PyNum.ndigits a /\ a < 10 ^ PyNum.ndigits a).
  { destruct (Z.eq_dec a 0) as [->|Hne]; [split; reflexivity|].
    destruct (ndigits_spec a ltac:(lia)) as (H1 & _ & H2). now split. }
  destruct Hk as [Hk1 Hk2].
  rewrite Z2Nat.id in * by lia.
  repeat split; [exact Hdig | lia |].
  rewrite Hval, Z.mod_small by lia. lia.
Qed.

Lemma read_exponent_text (e : Z) :
  read_exponent ("e" ++ PyNum.exponent_text e) = Some e
  /\ starts_nondigit ("e" ++ PyNum.exponent_text e) = true.
Proof.
  split; [|reflexivity].
  unfold PyNum.exponent_text.
  destruct (str_int_nonneg (Z.abs e) (Z.abs_nonneg e)) as (Hdig & Hlen & Hval).
  set (ds := PyNum.str_int (Z.abs e)) in *.
  assert (Hread : forall pad : string,
             pad = "0"%string \/ pad = ""%string ->
             read_digits (pad ++ ds) 0 0
             = (Z.abs e, len (pad ++ ds), ""%string)
             /\ 1 <= len (pad ++ ds)).
  { intros pad Hpad.
    rewrite <- (str_app_nil_r (pad ++ ds)) at 1.
    rewrite read_digits_app; [| |reflexivity].
    - rewrite value_acc_app, len_app.
      destruct Hpad as [-> | ->]; cbn [value_acc];
        change (10 * 0 + digit_value "0") with 0; rewrite Hval;
        (split; [reflexivity|]); unfold len at 1; simpl; lia.
    - rewrite all_digits_app, Hdig. now destruct Hpad as [-> | ->]. }
  destruct (Hread (if Z.abs e <? 10 then "0"%string else ""%string))
    as [Hr Hl].
  { destruct (Z.abs e <? 10); auto. }
  destruct (e <? 0) eqn:E.
  - apply Z.ltb_lt in E.
    change (read_exponent
              (String "e" (String "-"
                 ((if Z.abs e <? 10 then "0" else "") ++ ds)))
            = Some e).
    cbn [read_exponent]. rewrite Hr.
    replace (len _ =? 0) with false by (symmetry; apply Z.eqb_neq; lia).
    simpl. f_equal. lia.
  - apply Z.ltb_ge in E.
    change (read_exponent
              (String "e" (String "+"
                 ((if Z.abs e <? 10 then "0" else "") ++ ds)))
            = Some e).
    cbn [read_exponent]. rewrite Hr.
    replace (len _ =? 0) with false by (symmetry; apply Z.eqb_neq; lia).
    simpl. f_equal. lia.
Qed.

Lemma read_exponent_tail (T : string) (X : Z) :
  read_exponent T = Some X ->
  match T with
  | EmptyString => True
  | String c _ => Ascii.eqb c "." = false
  end.
Proof.
  destruct T as [|c [|sign ds]]; [trivial | discriminate |].
  cbn [read_exponent].
  destruct (Ascii.eqb c "e") eqn:E; [|discriminate].
  apply Ascii.eqb_eq in E. now subst c.
Qed.

(** A literal without a fraction: digits and an exponent part. *)
Lemma parse_unsigned_int (neg : bool) (I T : string) (X : Z) :
  all_digits I = true -> 1 <= len I ->
  starts_nondigit T = true -> read_exponent T = Some X ->
  parse_unsigned neg (I ++ T) = Some (neg, value_acc 0 I, X).
Proof.
  intros HI Hlen HT HX. unfold parse_unsigned.
  rewrite (read_digits_app I T 0 0 HI HT).
  replace (0 + len I =? 0) with false by (symmetry; apply Z.eqb_neq; lia).
  pose proof (read_exponent_tail T X HX) as Hdot.
  destruct T as [|c T'].
  - rewrite HX. do 2 f_equal. lia.
  - rewrite Hdot, HX. do 2 f_equal. lia.
Qed.

(** A literal with a fraction: digits, a point, digits and an exponent
    part. *)
Lemma parse_unsigned_frac (neg : bool) (I F T : string) (X : Z) :
  all_digits I = true -> 1 <= len I -> all_digits F = true ->
  starts_nondigit T = true -> read_exponent T = Some X ->
  parse_unsigned neg (I ++ "." ++ F ++ T)
  = Some (neg, value_acc 0 (I ++ F), X - len F).
Proof.
  intros HI Hlen HF HT HX. unfold parse_unsigned.
  rewrite (read_digits_app I ("." ++ F ++ T) 0 0 HI eq_refl).
  replace (0 + len I =? 0) with false by (symmetry; apply Z.eqb_neq; lia).
  change ("." ++ F ++ T)%string with (String "." (F ++ T)).
  cbn [Ascii.eqb Bool.eqb]. cbv iota.
  rewrite (read_digits_app F T (value_acc 0 I) 0 HF HT), HX.
  rewrite value_acc_app. do 2 f_equal. 
Qed.

Lemma digit_is_not_minus (c : ascii) :
  is_digit c = true -> Ascii.eqb c "-" = false.
Proof.
  intros H. destruct (Ascii.eqb c "-") eqn:E; [|reflexivity].
  apply Ascii.eqb_eq in E. subst c. discriminate H.
Qed.

Lemma parse_decimal_sign (neg : bool) (body : string) :
  starts_nondigit body = false ->
  parse_decimal ((if neg then "-" else "") ++ body) = parse_unsigned neg body.
Proof.
  intros H. destruct body as [|c r]; [discriminate|].
  cbn [starts_nondigit] in H. apply negb_false_iff in H.
  destruct neg.
  - reflexivity.
  - change ("" ++ String c r)%string with (String c r).
    cbn [parse_decimal]. now rewrite (digit_is_not_minus c H).
Qed.

(** Whatever layout [layout_g] chooses for the digits [D] and the decimal
    point [decpt], the text reads back as the number [0.D * 10 ^ decpt]. *)
Lemma parse_layout_g (P : Z) (neg : bool) (D : string) (decpt : Z) :
  all_digits D = true -> 1 <= len D <= P ->
  exists c k,
    parse_decimal (PyNum.layout_g P neg D decpt) = Some (neg, c, k)
    /\ decpt - P <= k <= decpt - len D
    /\ c = value_acc 0 D * 10 ^ (decpt - len D - k).
Proof.
  intros HD Hlen.
  destruct D as [|c0 D1]; [unfold len in Hlen; simpl in Hlen; lia|].
  pose proof HD as HD'. rewrite all_digits_cons in HD'.
  apply andb_prop in HD' as [Hc0 HD1].
  unfold PyNum.layout_g. fold (len (String c0 D1)).
  set (nd := len (String c0 D1)) in *.
  assert (Hnd : nd = 1 + len D1) by apply len_cons.
  destruct ((decpt <=? -4) || (P <? decpt)) eqn:Eexp.
  - (* exponent presentation *)
    destruct (read_exponent_text (decpt - 1)) as [HX HT].
    rewrite parse_decimal_sign
      by (change (negb (is_digit c0) = false); now rewrite Hc0).
    cbn [PyNum.take PyStr.drop].
    destruct (1 <? nd) eqn:E1.
    + rewrite str_app_assoc.
      rewrite (parse_unsigned_frac neg (String c0 "") D1 _ (decpt - 1));
        try assumption.
      * exists (value_acc 0 (String c0 D1)), (decpt - 1 - len D1).
        split; [reflexivity|].
        replace (decpt - nd - (decpt - 1 - len D1)) with 0 by lia.
        split; [lia | ring].
      * now rewrite all_digits_cons, Hc0.
      * rewrite len_cons. unfold len. simpl. lia.
    + apply Z.ltb_ge in E1.
      assert (D1 = ""%string) as ->.
      { destruct D1; [reflexivity|]. rewrite len_cons in Hnd.
        unfold len in Hnd. lia. }
      change ("" ++ "e" ++ PyNum.exponent_text (decpt - 1))%string
        with ("e" ++ PyNum.exponent_text (decpt - 1))%string.
      rewrite (parse_unsigned_int neg (String c0 "") _ (decpt - 1));
        try assumption; try lia.
      exists (value_acc 0 (String c0 "")), (decpt - 1).
      split; [reflexivity|].
      replace (decpt - nd - (decpt - 1)) with 0 by lia.
      split; [lia | ring].
  - apply orb_false_elim in Eexp as [E4 EP].
    apply Z.leb_gt in E4. apply Z.ltb_ge in EP.
    destruct (decpt <=? 0) eqn:E0.
    + (* 0.000ddd *)
      apply Z.leb_le in E0.
      destruct (zeros_spec (Z.to_nat (- decpt))) as (Hz1 & Hz2 & Hz3).
      set (zs := PyNum.zeros (Z.to_nat (- decpt))) in *.
      rewrite parse_decimal_sign by reflexivity.
      rewrite <- (str_app_nil_r (zs ++ String c0 D1)).
      change ("0." ++ (zs ++ String c0 D1) ++ "")%string
        with ("0" ++ "." ++ (zs ++ String c0 D1) ++ "")%string.
      rewrite (parse_unsigned_frac neg "0" (zs ++ String c0 D1) "" 0);
        try reflexivity.
      * exists (value_acc 0 ("0" ++ zs ++ String c0 D1)),
          (0 - len (zs ++ String c0 D1)).
        split; [reflexivity|].
        rewrite len_app, Hz2. fold nd.
        rewrite Z2Nat.id by lia.
        replace (decpt - nd - (0 - (- decpt + nd))) with 0 by lia.
        split; [lia|].
        change ("0" ++ zs ++ String c0 D1)%string
          with (String "0" (zs ++ String c0 D1)).
        cbn [value_acc]. change (10 * 0 + digit_value "0") with 0.
        rewrite value_acc_app, Hz3, Z.mul_0_l, Z.pow_0_r.
        cbn [value_acc]. lia.
      * now rewrite all_digits_app, Hz1, HD.
    + apply Z.leb_gt in E0.
      destruct (nd <=? decpt) eqn:En.
      * (* ddd000 *)
        apply Z.leb_le in En.
        destruct (zeros_spec (Z.to_nat (decpt - nd))) as (Hz1 & Hz2 & Hz3).
        set (zs := PyNum.zeros (Z.to_nat (decpt - nd))) in *.
        rewrite parse_decimal_sign
          by (change (negb (is_digit c0) = false); now rewrite Hc0).
        rewrite <- (str_app_nil_r (String c0 D1 ++ zs)).
        rewrite (parse_unsigned_int neg (String c0 D1 ++ zs) "" 0);
          try reflexivity.
        -- exists (value_acc 0 (String c0 D1 ++ zs)), 0.
           split; [reflexivity|]. split; [lia|].
           rewrite value_acc_app, Hz3, Z2Nat.id by lia.
           f_equal. f_equal. lia.
        -- now rewrite all_digits_app, HD, Hz1.
        -- rewrite len_app. fold nd. lia.
      * (* dd.ddd *)
        apply Z.leb_gt in En.
        set (d := Z.to_nat decpt) in *.
        pose proof (take_drop d (String c0 D1)) as Htd.
        assert (Hd : Z.of_nat d = decpt) by (unfold d; lia).
        pose proof (len_take d (String c0 D1) ltac:(fold nd; lia)) as Hlt.
        assert (Hparts : all_digits (PyNum.take d (String c0 D1)) = true
                         /\ all_digits (PyStr.drop d (String c0 D1)) = true).
        { rewrite <- Htd, all_digits_app in HD. now apply andb_prop in HD. }
        destruct Hparts as [Ht Hdr].
        assert (Hld : len (PyStr.drop d (String c0 D1)) = nd - decpt).
        { pose proof (f_equal len Htd) as Hl. rewrite len_app in Hl.
          fold nd in Hl. lia. }
        rewrite parse_decimal_sign.
        2:{ destruct d as [|d']; [lia|].
            change (negb (is_digit c0) = false). now rewrite Hc0. }
        rewrite <- (str_app_nil_r (PyStr.drop d (String c0 D1))).
        rewrite (parse_unsigned_frac neg _ _ "" 0);
          try assumption; try reflexivity; [|lia].
        rewrite Htd.
        exists (value_acc 0 (String c0 D1)), (0 - (nd - decpt)).
        rewrite Hld. split; [reflexivity|].
        replace (decpt - nd - (0 - (nd - decpt))) with 0 by lia.
        split; [lia | ring].
Qed.

Lemma dyadic_pos (m : positive) (e : Z) :
  0 < fst (PyNum.dyadic m e) /\ 0 < snd (PyNum.dyadic m e).
Proof.
  unfold PyNum.dyadic. destruct (0 <=? e) eqn:E; cbn [fst snd].
  - apply Z.leb_le in E.
    assert (0 < 2 ^ e) by (apply Z.pow_pos_nonneg; lia). split; nia.
  - apply Z.leb_gt in E.
    assert (0 < 2 ^ (- e)) by (apply Z.pow_pos_nonneg; lia). split; lia.
Qed.

(** ["{:.Pg}".format(x)] reads back as a decimal of [P] significant digits
    within half a unit of the last one of [x], for every finite [x] other
    than zero. *)
Lemma format_g_reads_back (P : Z) (neg : bool) (m : positive) (e : Z) :
  1 <= P ->
  reads_back_within P neg (fst (PyNum.dyadic m e)) (snd (PyNum.dyadic m e))
    (Ok (PyNum.format_g P (S754_finite neg m e))).
Proof.
  intros HP. unfold PyNum.format_g.
  destruct (dyadic_pos m e) as [Hnum Hden].
  destruct (PyNum.dyadic m e) as [num den]. cbn [fst snd] in *.
  destruct (decimal_round_spec P num den HP Hnum Hden) as [Hq Herr].
  destruct (PyNum.decimal_round P num den) as [q decpt]. cbn [fst snd] in *.
  destruct (digits_of_spec (Z.to_nat P) q "") as (_ & Hdig & Hlen & Hval).
  rewrite Z2Nat.id in * by lia.
  set (D := PyNum.digits_of (Z.to_nat P) q "") in *.
  destruct (strip_trailing_zeros_spec D) as [z Hz].
  destruct (zeros_spec z) as (Hz1 & Hz2 & Hz3).
  set (D' := PyNum.strip_trailing_zeros D) in *.
  assert (HqD : value_acc 0 D = q).
  { rewrite Hval, Z.mod_small by lia. lia. }
  assert (HD' : all_digits D' = true).
  { rewrite Hz, all_digits_app in Hdig. now apply andb_prop in Hdig. }
  assert (HlenD' : len D' = P - Z.of_nat z).
  { pose proof (f_equal len Hz) as Hl. rewrite len_app, Hz2 in Hl. lia. }
  assert (HvalD' : q = value_acc 0 D' * 10 ^ Z.of_nat z).
  { rewrite <- HqD, Hz at 1. now rewrite value_acc_app, Hz3. }
  assert (Hpos : 0 < 10 ^ (P - 1)) by (apply pow10_pos; lia).
  assert (HD'1 : 1 <= len D').
  { destruct D' as [|c D'']; [|rewrite len_cons; unfold len; lia].
    cbn [value_acc] in HvalD'. lia. }
  destruct (parse_layout_g P neg D' decpt HD' ltac:(lia))
    as (c & k & Hparse & Hk & Hc).
  exists (PyNum.layout_g P neg D' decpt), c, k, q, decpt.
  split; [reflexivity|]. split; [exact Hparse|]. split; [lia|].
  split; [|split; assumption].
  rewrite Hc, HvalD', <- Z.mul_assoc, <- pow10_split by lia.
  f_equal. f_equal. lia.
Qed.

End LiteralRoundTrip.

(** C3, as the code has it. The formatter of [F] renders every finite float
    other than zero with 9 significant digits and that of [D] with 17: the
    literal reads back as a decimal number of that many significant digits
    which lies within half a unit of the last of them of the input. A zero
    is rendered as [0] or [-0]. *)
Theorem float_formatters_precision (fF fD : FieldFormatter) (neg : bool)
    (m : positive) (e : Z) :
  field_formatters !! "F" = Some fF ->
  field_formatters !! "D" = Some fD ->
  reads_back_within 9 neg (fst (PyNum.dyadic m e)) (snd (PyNum.dyadic m e))
    (format_value fF (Some (VFloat (S754_finite neg m e))))
  /\ reads_back_within 17 neg (fst (PyNum.dyadic m e)) (snd (PyNum.dyadic m e))
       (format_value fD (Some (VFloat (S754_finite neg m e))))
  /\ format_value fF (Some (VFloat (S754_zero neg)))
     = Ok (if neg then "-0" else "0")
  /\ format_value fD (Some (VFloat (S754_zero neg)))
     = Ok (if neg then "-0" else "0").
Proof.
  intros HF HD.
  assert (fF = mkFieldFormatter (fun _ => Ok "FLOAT") (_format_number 9))
    as -> by (apply (inj Some); rewrite <- HF; reflexivity).
  assert (fD = mkFieldFormatter (fun _ => Ok "DOUBLE") (_format_number 17))
    as -> by (apply (inj Some); rewrite <- HD; reflexivity).
  split; [|split; [|split]].
  - apply (format_g_reads_back 9 neg m e). lia.
  - apply (format_g_reads_back 17 neg m e). lia.
  - now destruct neg.
  - now destruct neg.
Qed.

Lemma float_formatters_precision_witness :
  reads_back_within 9 false 13421773 134217728
    (format_value (mkFieldFormatter (fun _ => Ok "FLOAT") (_format_number 9))
       (Some (VFloat float32_tenth)))
  /\ reads_back_within 17 false 13421773 134217728
       (format_value (mkFieldFormatter (fun _ => Ok "DOUBLE") (_format_number 17))
          (Some (VFloat float32_tenth))).
Proof.
  destruct (float_formatters_precision
              (mkFieldFormatter (fun _ => Ok "FLOAT") (_format_number 9))
              (mkFieldFormatter (fun _ => Ok "DOUBLE") (_format_number 17))
              false 13421773 (-27) eq_refl eq_refl) as (H9 & H17 & _).
  split; [exact H9 | exact H17].
Defined.

(** The claim as written fails: the literal that the formatter of [F]
    makes of the float nearest to 0.1 has nine significant digits, and does
    not denote a decimal number of seven. *)
Lemma float_seven_digits_counterexample :
  exists fF,
    field_formatters !! "F" = Some fF
    /\ format_value fF (Some (VFloat float32_tenth)) = Ok "0.100000001"
    /\ PyNum.format_g 7 float32_tenth = "0.1"
    /\ ~ reads_back_within 7 false 13421773 134217728
           (format_value fF (Some (VFloat float32_tenth))).
Proof.
  exists (mkFieldFormatter (fun _ => Ok "FLOAT") (_format_number 9)).
  split; [reflexivity|].
  assert (Hout : format_value
                   (mkFieldFormatter (fun _ => Ok "FLOAT") (_format_number 9))
                   (Some (VFloat float32_tenth)) = Ok "0.100000001")
    by (vm_compute; reflexivity).
  split; [exact Hout|]. split; [vm_compute; reflexivity|].
  rewrite Hout.
  intros (text & c & k & q & decpt & Ht & Hp & Hk & Hq & Hrange & _).
  injection Ht as <-.
  vm_compute in Hp. injection Hp as <- <-.
  assert (1 <= 10 ^ (-9 - (decpt - 7)))%Z
    by (pose proof (pow10_pos (-9 - (decpt - 7)) ltac:(lia)); lia).
  change (10 ^ 7)%Z with 10000000%Z in Hrange.
  nia.
Qed.

(** ** Checks of the model against known outputs *)

Example format_g_samples :
  PyNum.format_g 9 float32_tenth = "0.100000001"
  /\ PyNum.format_g 17 (S754_finite false 3602879701896397 (-55))
     = "0.10000000000000001"
  /\ PyNum.format_g 17 (S754_finite false 3 (-1)) = "1.5"
  /\ PyNum.format_g 9 (S754_finite false 1 (-13)) = "0.000122070312"
  /\ PyNum.format_g 9 (S754_finite true 1 (-1074)) = "-4.94065646e-324"
  /\ PyNum.format_g 17 (PyNum.float_of_int (10 ^ 22)) = "1e+22"
  /\ PyNum.format_g 17 (PyNum.float_of_int (10 ^ 16)) = "10000000000000000"
  /\ PyNum.format_g 17 (S754_finite false 5902958103587057 (-69))
     = "1.0000000000000001e-05"
  /\ PyNum.format_g 9 (S754_zero true) = "-0".
Proof. repeat split; vm_compute; reflexivity. Qed.

Example format_value_samples :
  _format_string (VStr "it's a \") = Ok "'it\'s a \\'"
  /\ _format_array fmt_H (VArray [VInt 1; VInt 65535]) = Ok "x'0100ffff'"
  /\ _format_array fmt_i (VArray [VInt (-2)]) = Ok "x'feffffff'"
  /\ _format_array fmt_d (VArray [VFloat (PyNum.float_of_int 1)])
     = Ok "x'000000000000f03f'"
  /\ _format_array fmt_f
       (VArray [VFloat (S754_finite false 3602879701896397 (-55))])
     = Ok "x'cdcccc3d'"
  /\ py_str (VInt (-1050)) = Ok "-1050"
  /\ py_str (VFloat (S754_finite false 3 (-1))) = Ok "1.5"
  /\ py_str (VFloat (PyNum.float_of_int 2)) = Ok "2.0"
  /\ _sql_type_for_string (mkField "s" "String" 12)
     = Ok "VARCHAR(12) CHARACTER SET ascii COLLATE ascii_bin NOT NULL"
  /\ _sql_type_for_array fmt_d (mkField "v" "ArrayD" 3)
     = Ok "BINARY(24) NOT NULL".
Proof. repeat split; vm_compute; reflexivity. Qed.

(* ================================================================= *)
(** * Further properties of the code *)

(** ** Canonical names *)

Lemma canonicalize_chars (x : string) (c : ascii) :
  In c (list_ascii_of_string (canonicalize_field_name x)) ->
  PyStr.is_word c = true.
Proof.
  unfold canonicalize_field_name.
  induction x as [|d x IH]; simpl; [tauto|].
  intros [<-|H]; [|exact (IH H)].
  destruct (PyStr.is_word d) eqn:E; [exact E | reflexivity].
Qed.

Lemma contains_char_false (c : ascii) (s : string) :
  (forall d, In d (list_ascii_of_string s) -> d <> c) ->
  PyStr.contains_char c s = false.
Proof.
  intros H. destruct (PyStr.contains_char c s) eqn:E; [|reflexivity].
  apply contains_char_In in E. now destruct (H c E).
Qed.

(** X1. A canonical field name is as long as the field name and consists of
    letters, digits and underscores only; so it passes the statement check
    and the back-tick check of the storage layer; and the names that
    canonicalization leaves alone are exactly those made of such
    characters. *)
Theorem canonicalize_field_name_safe (x : string) :
  String.length (canonicalize_field_name x) = String.length x
  /\ (forall c, In c (list_ascii_of_string (canonicalize_field_name x)) ->
                PyStr.is_word c = true)
  /\ _testSqlIsClean (canonicalize_field_name x) = Ok tt
  /\ identifierQuote (canonicalize_field_name x)
     = Ok ("`" ++ canonicalize_field_name x ++ "`")
  /\ (canonicalize_field_name x = x <->
      forall c, In c (list_ascii_of_string x) -> PyStr.is_word c = true).
Proof.
  split; [|split; [|split; [|split]]].
  - unfold canonicalize_field_name.
    induction x as [|d x IH]; simpl; [reflexivity | now rewrite IH].
  - apply canonicalize_chars.
  - unfold _testSqlIsClean. rewrite contains_char_false; [reflexivity|].
    intros d Hd ->. apply canonicalize_chars in Hd. discriminate Hd.
  - unfold identifierQuote. rewrite contains_char_false; [reflexivity|].
    intros d Hd ->. apply canonicalize_chars in Hd. discriminate Hd.
  - unfold canonicalize_field_name.
    induction x as [|d x IH]; simpl; [tauto|].
    split.
    + intros [= Hd Hx] c [<-|Hc].
      * destruct (PyStr.is_word d) eqn:E; [reflexivity|].
        subst d. discriminate E.
      * now apply IH.
    + intros H. rewrite (H d (or_introl eq_refl)).
      f_equal. apply IH. intros c Hc. apply H. now right.
Qed.

(** ** Quoted identifiers and string literals *)

Lemma read_identifier_body_quoted (identifier rest : string) :
  starts_with "`" rest = false ->
  read_identifier_body
    (PyStr.replace_char "`" "``" identifier ++ "`" ++ rest)
  = Some (identifier, rest).
Proof.
  intros Hrest.
  induction identifier as [|c s IH].
  - change (read_identifier_body (String "`" rest) = Some (""%string, rest)).
    cbn [read_identifier_body Ascii.eqb Bool.eqb]. cbv iota.
    destruct rest as [|d rest]; [reflexivity|].
    cbn [starts_with] in Hrest. now rewrite Hrest.
  - cbn [PyStr.replace_char].
    destruct (Ascii.eqb c "`") eqn:E.
    + apply Ascii.eqb_eq in E. subst c.
      change (read_identifier_body
                (String "`" (String "`"
                   (PyStr.replace_char "`" "``" s ++ "`" ++ rest)))
              = Some (String "`" s, rest)).
      cbn [read_identifier_body Ascii.eqb Bool.eqb]. cbv iota.
      now rewrite IH.
    + rewrite str_cons_app. cbn [read_identifier_body].
      rewrite E. now rewrite IH.
Qed.

(** X2. A quoted identifier reads back as the identifier, whatever follows
    it (but a further back-tick); so [quote_mysql_identifier] is one-to-one;
    and quoting neither adds nor removes a statement separator. *)
Theorem quote_mysql_identifier_reads_back (identifier : string) :
  (forall rest,
      starts_with "`" rest = false ->
      read_quoted_identifier (quote_mysql_identifier identifier ++ rest)
      = Some (identifier, rest))
  /\ (forall other,
         quote_mysql_identifier identifier = quote_mysql_identifier other ->
         identifier = other)
  /\ _testSqlIsClean (quote_mysql_identifier identifier)
     = _testSqlIsClean identifier.
Proof.
  assert (Hread : forall i rest,
             starts_with "`" rest = false ->
             read_quoted_identifier (quote_mysql_identifier i ++ rest)
             = Some (i, rest)).
  { intros i rest Hrest. unfold quote_mysql_identifier.
    rewrite !str_app_assoc.
    change (read_identifier_body
              (PyStr.replace_char "`" "``" i ++ "`" ++ rest)
            = Some (i, rest)).
    now apply read_identifier_body_quoted. }
  split; [exact (Hread identifier)|]. split.
  - intros other Heq.
    pose proof (Hread identifier ""%string eq_refl) as H1.
    pose proof (Hread other ""%string eq_refl) as H2.
    rewrite Heq, H2 in H1. now injection H1.
  - unfold _testSqlIsClean, quote_mysql_identifier.
    replace (PyStr.contains_char ";"
               ("`" ++ PyStr.replace_char "`" "``" identifier ++ "`"))
      with (PyStr.contains_char ";" identifier); [reflexivity|].
    change (PyStr.contains_char ";" identifier
            = PyStr.contains_char ";"
                (PyStr.replace_char "`" "``" identifier ++ "`")).
    induction identifier as [|c s IH]; [reflexivity|].
    cbn [PyStr.replace_char].
    destruct (Ascii.eqb c "`") eqn:E.
    + apply Ascii.eqb_eq in E. subst c.
      change (PyStr.contains_char ";" s
              = PyStr.contains_char ";"
                  (PyStr.replace_char "`" "``" s ++ "`")).
      exact IH.
    + rewrite str_cons_app. cbn [PyStr.contains_char]. now rewrite IH.
Qed.

Lemma quote_mysql_identifier_reads_back_witness :
  read_quoted_identifier (quote_mysql_identifier "a`b" ++ " TO `c`")
  = Some ("a`b", " TO `c`").
Proof.
  apply (proj1 (quote_mysql_identifier_reads_back "a`b")). reflexivity.
Defined.

Lemma read_string_body_escaped (s rest : string) :
  starts_with "'" rest = false ->
  read_string_body
    (PyStr.replace_char "'" "\'" (PyStr.replace_char "\" "\\" s)
     ++ "'" ++ rest)
  = Some (s, rest).
Proof.
  intros Hrest.
  induction s as [|c s IH].
  - change (read_string_body (String "'" rest) = Some (""%string, rest)).
    cbn [read_string_body Ascii.eqb Bool.eqb]. cbv iota.
    destruct rest as [|d rest]; [reflexivity|].
    cbn [starts_with] in Hrest. now rewrite Hrest.
  - cbn [PyStr.replace_char].
    destruct (Ascii.eqb c "\") eqn:Eb.
    + apply Ascii.eqb_eq in Eb. subst c.
      change (read_string_body
                (String "\" (String "\"
                   (PyStr.replace_char "'" "\'"
                      (PyStr.replace_char "\" "\\" s) ++ "'" ++ rest)))
              = Some (String "\" s, rest)).
      cbn [read_string_body Ascii.eqb Bool.eqb orb]. cbv iota.
      now rewrite IH.
    + cbn [PyStr.replace_char].
      destruct (Ascii.eqb c "'") eqn:Eq.
      * apply Ascii.eqb_eq in Eq. subst c.
        change (read_string_body
                  (String "\" (String "'"
                     (PyStr.replace_char "'" "\'"
                        (PyStr.replace_char "\" "\\" s) ++ "'" ++ rest)))
                = Some (String "'" s, rest)).
        cbn [read_string_body Ascii.eqb Bool.eqb orb]. cbv iota.
        now rewrite IH.
      * rewrite str_cons_app. cbn [read_string_body].
        rewrite Eb, Eq. now rewrite IH.
Qed.

(** X3. The literal that [_format_string] writes for a string reads back as
    that string and ends where the formatter ended it, whatever follows
    (but a further quote): no quote or backslash of the value can close the
    literal early. Hence distinct strings get distinct literals. *)
Theorem format_string_reads_back (s : string) :
  exists literal,
    _format_string (VStr s) = Ok literal
    /\ (forall rest,
           starts_with "'" rest = false ->
           read_string_literal (literal ++ rest) = Some (s, rest))
    /\ (forall other,
           _format_string (VStr other) = Ok literal -> other = s).
Proof.
  assert (Hread : forall t rest,
             starts_with "'" rest = false ->
             read_string_literal
               (("'" ++ PyStr.replace_char "'" "\'"
                          (PyStr.replace_char "\" "\\" t) ++ "'") ++ rest)
             = Some (t, rest)).
  { intros t rest Hrest. rewrite !str_app_assoc.
    change (read_string_body
              (PyStr.replace_char "'" "\'" (PyStr.replace_char "\" "\\" t)
               ++ "'" ++ rest)
            = Some (t, rest)).
    now apply read_string_body_escaped. }
  eexists. split; [reflexivity|]. split.
  - intros rest Hrest. now apply Hread.
  - intros other Heq.
    pose proof (Hread other ""%string eq_refl) as H1.
    pose proof (Hread s ""%string eq_refl) as H2.
    assert (Hlit : "'" ++ PyStr.replace_char "'" "\'"
                            (PyStr.replace_char "\" "\\" other) ++ "'"
                   = "'" ++ PyStr.replace_char "'" "\'"
                              (PyStr.replace_char "\" "\\" s) ++ "'")
      by (cbn [_format_string] in Heq; congruence).
    rewrite Hlit, H2 in H1. now injection H1.
Qed.

Lemma format_string_reads_back_witness :
  read_string_literal ("'it\'s \\'" ++ "),")
  = Some ("it's \", "),").
Proof.
  destruct (format_string_reads_back "it's \") as (literal & Hl & Hread & _).
  injection Hl as <-. apply Hread. reflexivity.
Defined.

(** ** Integer literals *)

Lemma int_digits_value (s : string) (acc : Z) :
  all_digits s = true -> int_digits s acc = Ok (value_acc acc s).
Proof.
  revert acc. induction s as [|c s IH]; intros acc H; [reflexivity|].
  rewrite all_digits_cons in H. apply andb_prop in H as [Hc Hs].
  cbn [int_digits value_acc]. unfold is_digit in Hc. rewrite Hc.
  rewrite <- (IH _ Hs). f_equal. unfold digit_value.
  apply andb_prop in Hc as [Hlo _]. apply Nat.leb_le in Hlo. lia.
Qed.

Lemma digit_is_not_space (c : ascii) :
  is_digit c = true -> is_space c = false.
Proof.
  unfold is_digit, is_space. intros [H1 H2]%andb_prop.
  apply Nat.leb_le in H1, H2. apply orb_false_iff. split.
  - apply Nat.eqb_neq. lia.
  - apply andb_false_iff. right. apply Nat.leb_gt. lia.
Qed.

Lemma rstrip_cons (c : ascii) (s : string) :
  rstrip s <> ""%string -> rstrip (String c s) = String c (rstrip s).
Proof.
  intros H. cbn [rstrip]. destruct (rstrip s); [congruence | reflexivity].
Qed.

Lemma rstrip_digits (s : string) : all_digits s = true -> rstrip s = s.
Proof.
  induction s as [|c s IH]; [reflexivity|].
  rewrite all_digits_cons. intros [Hc Hs]%andb_prop.
  cbn [rstrip]. rewrite (IH Hs).
  destruct s; [|reflexivity]. now rewrite (digit_is_not_space c Hc).
Qed.

Lemma str_int_reads_back (z : Z) :
  py_int (PyNum.str_int z) = Ok z
  /\ parse_decimal (PyNum.str_int z) = Some ((z <? 0)%Z, Z.abs z, 0%Z).
Proof.
  destruct (str_int_nonneg (Z.abs z) (Z.abs_nonneg z)) as (Hdig & Hlen & Hval).
  assert (Hshape : PyNum.str_int z
                   = ((if (z <? 0)%Z then "-" else "")
                      ++ PyNum.str_int (Z.abs z))%string).
  { unfold PyNum.str_int. rewrite Z.abs_idemp.
    replace (Z.abs z <? 0)%Z with false
      by (symmetry; apply Z.ltb_ge; apply Z.abs_nonneg).
    reflexivity. }
  rewrite Hshape.
  set (ds := PyNum.str_int (Z.abs z)) in *.
  destruct ds as [|c ds']; [unfold len in Hlen; simpl in Hlen; lia|].
  pose proof Hdig as Hc. rewrite all_digits_cons in Hc.
  apply andb_prop in Hc as [Hc _].
  pose proof (digit_is_not_minus c Hc) as Hminus.
  pose proof (parse_unsigned_int (z <? 0)%Z (String c ds') "" 0
                Hdig Hlen eq_refl eq_refl) as Hparse.
  rewrite str_app_nil_r, Hval in Hparse.
  destruct (z <? 0)%Z eqn:E.
  - apply Z.ltb_lt in E.
    change ("-" ++ String c ds')%string with (String "-" (String c ds')).
    split.
    + unfold py_int.
      change (lstrip (String "-" (String c ds')))
        with (String "-" (String c ds')).
      rewrite rstrip_cons; rewrite (rstrip_digits _ Hdig);
        [|discriminate].
      cbv iota beta. rewrite (int_digits_value _ 0 Hdig).
      cbn [res_bind]. rewrite Hval. f_equal. lia.
    + cbn [parse_decimal Ascii.eqb Bool.eqb]. exact Hparse.
  - apply Z.ltb_ge in E.
    change ("" ++ String c ds')%string with (String c ds').
    split.
    + assert (Hpy : py_int (String c ds') = int_digits (String c ds') 0).
      { unfold py_int. cbn [lstrip].
        rewrite (digit_is_not_space c Hc), (rstrip_digits _ Hdig).
        destruct c as [[] [] [] [] [] [] [] []]; try reflexivity;
          try discriminate Hminus; try discriminate Hc;
          destruct ds'; reflexivity. }
      rewrite Hpy, (int_digits_value _ 0 Hdig), Hval. f_equal. lia.
    + cbn [parse_decimal]. rewrite Hminus. exact Hparse.
Qed.

(** X4. The formatters of the integer types [U], [I] and [L] write an
    integer as the decimal text that [int] reads back as the same integer. *)
Theorem integer_formatters_exact (type_string : string) (f : FieldFormatter)
    (z : Z) :
  In type_string ["U"; "I"; "L"] ->
  field_formatters !! type_string = Some f ->
  exists literal,
    format_value f (Some (VInt z)) = Ok literal
    /\ py_int literal = Ok z
    /\ parse_decimal literal = Some ((z <? 0)%Z, Z.abs z, 0%Z).
Proof.
  intros Hin Hf. exists (PyNum.str_int z).
  destruct (str_int_reads_back z) as [Hpy Hparse].
  split; [|split; assumption].
  apply registered_formatter in Hf. simpl in Hf, Hin.
  destruct Hin as [<-|[<-|[<-|[]]]];
    repeat (destruct Hf as [Hf|Hf];
            [first [discriminate Hf | now injection Hf as <-] |]);
    destruct Hf.
Qed.

Lemma integer_formatters_exact_witness :
  exists literal,
    format_value (mkFieldFormatter (fun f => Ok "BIGINT NOT NULL") py_str)
      (Some (VInt (-1050))) = Ok literal
    /\ py_int literal = Ok (-1050)%Z
    /\ parse_decimal literal = Some (true, 1050, 0)%Z.
Proof.
  apply (integer_formatters_exact "L"
           (mkFieldFormatter (fun f => Ok "BIGINT NOT NULL") py_str)
           (-1050)%Z).
  - simpl. tauto.
  - reflexivity.
Defined.

(** ** Array literals *)

Lemma hex_digit_is_hex (d : Z) :
  (0 <= d < 16)%Z -> is_hex_digit (hex_digit d) = true.
Proof.
  intros Hd.
  assert (H : (d = 0 \/ d = 1 \/ d = 2 \/ d = 3 \/ d = 4 \/ d = 5 \/ d = 6
               \/ d = 7 \/ d = 8 \/ d = 9 \/ d = 10 \/ d = 11 \/ d = 12
               \/ d = 13 \/ d = 14 \/ d = 15)%Z) by lia.
  repeat (destruct H as [->|H]; [reflexivity|]).
  subst d. reflexivity.
Qed.

Lemma hex_le_spec (width : nat) (z : Z) :
  String.length (hex_le width z) = (2 * width)%nat
  /\ all_hex (hex_le width z) = true.
Proof.
  revert z. induction width as [|w IH]; intros z; [split; reflexivity|].
  destruct (IH (z / 256)%Z) as [Hl Hh].
  pose proof (Z.mod_pos_bound z 256 ltac:(lia)) as Hb.
  cbn [hex_le]. split.
  - cbn [String.length]. rewrite Hl. lia.
  - unfold all_hex in *. cbn [list_ascii_of_string forallb].
    rewrite Hh, !hex_digit_is_hex; [reflexivity | |].
    + apply Z.mod_pos_bound. lia.
    + split; [apply Z.div_pos; lia | apply Z.div_lt_upper_bound; lia].
Qed.

Lemma pack_element_spec (c : format_char) (v : value) (h : string) :
  pack_element c v = Ok h ->
  String.length h = (2 * Z.to_nat (calcsize c))%nat /\ all_hex h = true.
Proof.
  destruct c; cbn [pack_element calcsize].
  - destruct (as_int v) as [z|e]; [|discriminate]. cbn [res_bind].
    destruct ((0 <=? z) && (z <=? 65535))%Z; [|discriminate].
    intros [= <-]. apply (hex_le_spec 2).
  - destruct (as_int v) as [z|e]; [|discriminate]. cbn [res_bind].
    destruct ((-2147483648 <=? z) && (z <=? 2147483647))%Z; [|discriminate].
    intros [= <-]. apply (hex_le_spec 4).
  - destruct (as_float v) as [x|e]; [|discriminate]. cbn [res_bind].
    destruct (PyNum.isinf (PyNum.to_binary32 x) && negb (PyNum.isinf x));
      [discriminate|].
    intros [= <-]. apply (hex_le_spec 4).
  - destruct (as_float v) as [x|e]; [|discriminate]. cbn [res_bind].
    intros [= <-]. apply (hex_le_spec 8).
Qed.

Lemma str_length_app (s t : string) :
  String.length (s ++ t) = (String.length s + String.length t)%nat.
Proof.
  induction s as [|c s IH]; [reflexivity|].
  rewrite str_cons_app. cbn [String.length]. now rewrite IH.
Qed.

Lemma all_hex_app (s t : string) :
  all_hex (s ++ t) = all_hex s && all_hex t.
Proof.
  induction s as [|c s IH]; [reflexivity|].
  rewrite str_cons_app. unfold all_hex in *.
  cbn [list_ascii_of_string forallb]. now rewrite IH, andb_assoc.
Qed.

Lemma packed_elements_spec (c : format_char) (xs : list value)
    (packed : list string) :
  res_map (pack_element c) xs = Ok packed ->
  String.length (String.concat "" packed)
  = (2 * Z.to_nat (calcsize c) * length xs)%nat
  /\ all_hex (String.concat "" packed) = true.
Proof.
  revert packed. induction xs as [|x xs IH]; intros packed H.
  - injection H as <-. split; [simpl; lia | reflexivity].
  - apply res_map_cons_inv in H as (h & hs & Hh & Hhs & ->).
    destruct (pack_element_spec c x h Hh) as [Hl1 Hx1].
    destruct (IH hs Hhs) as [Hl2 Hx2].
    assert (Hcat : String.concat "" (h :: hs)
                   = (h ++ String.concat "" hs)%string).
    { destruct hs; [now rewrite str_app_nil_r | reflexivity]. }
    rewrite Hcat, str_length_app, all_hex_app, Hl1, Hl2, Hx1, Hx2.
    split; [cbn [length]; lia | reflexivity].
Qed.

(** X5. When [_format_array] returns a literal it is [x'...'] around two
    lower-case hexadecimal digits per byte, [calcsize] bytes per element;
    for an array that has the declared size of its field, that is exactly
    the width of the [BINARY] column that [_sql_type_for_array] declares. *)
Theorem format_array_size (c : format_char) (array : value) (literal : string) :
  _format_array c array = Ok literal ->
  exists xs hex,
    array = VArray xs
    /\ literal = "x'" ++ hex ++ "'"
    /\ all_hex hex = true
    /\ Z.of_nat (String.length hex) = (2 * calcsize c * Z.of_nat (length xs))%Z
    /\ forall field,
        getSize field = Z.of_nat (length xs) ->
        (0 < getSize field)%Z ->
        (getSize field * calcsize c <= 65535)%Z ->
        _sql_type_for_array c field
        = Ok ("BINARY(" ++ PyNum.str_int (Z.of_nat (String.length hex) / 2)
              ++ ") NOT NULL").
Proof.
  intros H. destruct array as [| | | | |xs]; try discriminate H.
  cbn [_format_array] in H.
  destruct (res_map (pack_element c) xs) as [packed|e] eqn:E; [|discriminate].
  cbn [res_bind] in H. injection H as <-.
  destruct (packed_elements_spec c xs packed E) as [Hl Hx].
  exists xs, (String.concat "" packed).
  assert (Hc : (0 < calcsize c)%Z) by (destruct c; reflexivity).
  assert (Hlen : Z.of_nat (String.length (String.concat "" packed))
                 = (2 * calcsize c * Z.of_nat (length xs))%Z).
  { rewrite Hl. lia. }
  repeat split; try assumption.
  intros field Hsz Hpos Hfit. unfold _sql_type_for_array.
  replace (getSize field =? 0)%Z with false
    by (symmetry; apply Z.eqb_neq; lia).
  replace (65535 <? getSize field * calcsize c)%Z with false
    by (symmetry; apply Z.ltb_ge; lia).
  rewrite Hlen, <- Hsz.
  replace (2 * calcsize c * getSize field)%Z
    with (getSize field * calcsize c * 2)%Z by ring.
  now rewrite Z.div_mul by lia.
Qed.

Lemma format_array_size_witness :
  exists xs hex,
    VArray [VInt 1; VInt 65535] = VArray xs
    /\ "x'0100ffff'" = "x'" ++ hex ++ "'"
    /\ all_hex hex = true
    /\ Z.of_nat (String.length hex)
       = (2 * calcsize fmt_H * Z.of_nat (length xs))%Z
    /\ forall field,
        getSize field = Z.of_nat (length xs) ->
        (0 < getSize field)%Z ->
        (getSize field * calcsize fmt_H <= 65535)%Z ->
        _sql_type_for_array fmt_H field
        = Ok ("BINARY(" ++ PyNum.str_int (Z.of_nat (String.length hex) / 2)
              ++ ") NOT NULL").
Proof.
  apply (format_array_size fmt_H (VArray [VInt 1; VInt 65535]) "x'0100ffff'").
  vm_compute. reflexivity.
Defined.

Lemma pack_int_element (c : format_char) (z : Z) :
  c = fmt_H \/ c = fmt_i ->
  (in_range c z = true -> exists h, pack_element c (VInt z) = Ok h)
  /\ (in_range c z = false -> pack_element c (VInt z) = Raise StructError).
Proof.
  intros [-> | ->]; cbn [pack_element as_int res_bind in_range];
    (split; intros ->; [eexists|]; reflexivity).
Qed.

(** X6. An array of integers is packed for the format characters [H] and
    [i] exactly when every element is in the range of the type; the first
    element out of range raises the error of [struct], and no literal is
    written. *)
Theorem format_array_range (c : format_char) (zs : list Z) :
  c = fmt_H \/ c = fmt_i ->
  (forallb (in_range c) zs = true ->
   exists literal, _format_array c (VArray (List.map VInt zs)) = Ok literal)
  /\ (forallb (in_range c) zs = false ->
      _format_array c (VArray (List.map VInt zs)) = Raise StructError).
Proof.
  intros Hc.
  assert (Hmap : (forallb (in_range c) zs = true ->
                  exists packed,
                    res_map (pack_element c) (List.map VInt zs) = Ok packed)
                 /\ (forallb (in_range c) zs = false ->
                     res_map (pack_element c) (List.map VInt zs)
                     = Raise StructError)).
  { induction zs as [|z zs [IHok IHbad]].
    - split; [intros _; now exists [] | discriminate].
    - destruct (pack_int_element c z Hc) as [Hok Hbad].
      cbn [forallb List.map res_map].
      destruct (in_range c z).
      + destruct (Hok eq_refl) as [h ->]. cbn [res_bind andb]. split.
        * intros H. destruct (IHok H) as [packed ->]. now eexists.
        * intros H. now rewrite (IHbad H).
      + rewrite (Hbad eq_refl). split; [discriminate | reflexivity]. }
  destruct Hmap as [Hok Hbad]. cbn [_format_array]. split.
  - intros H. destruct (Hok H) as [packed ->]. now eexists.
  - intros H. now rewrite (Hbad H).
Qed.

Lemma format_array_range_witness :
  (exists literal,
      _format_array fmt_H (VArray (List.map VInt [1; 65535]%Z)) = Ok literal)
  /\ _format_array fmt_H (VArray (List.map VInt [1; -1]%Z))
     = Raise StructError.
Proof.
  split.
  - apply (proj1 (format_array_range fmt_H [1; 65535]%Z (or_introl eq_refl))).
    reflexivity.
  - apply (proj2 (format_array_range fmt_H [1; -1]%Z (or_introl eq_refl))).
    reflexivity.
Defined.

(** ** The batch engine on rows of any size *)

Lemma concat_cons (h : string) (t : list string) :
  String.concat "" (h :: t) = h ++ String.concat "" t.
Proof.
  destruct t as [|x t]; cbn [String.concat].
  - now rewrite str_app_nil_r.
  - reflexivity.
Qed.

Lemma total_nil : total [] = 0%Z.
Proof. reflexivity. Qed.

Lemma total_cons (h : string) (t : list string) :
  total (h :: t) = (len h + total t)%Z.
Proof. unfold total. now rewrite concat_cons, len_app. Qed.

Lemma len_nonneg (s : string) : (0 <= len s)%Z.
Proof. unfold len. lia. Qed.

Lemma total_nonneg (g : list string) : (0 <= total g)%Z.
Proof. apply len_nonneg. Qed.

Lemma row_literal_len (keys : list (nat * FieldFormatter)) (row : Row)
    (v : string) :
  row_literal keys row = Ok v -> (3 <= len v)%Z.
Proof.
  unfold row_literal.
  destruct (res_map _ keys) as [values|e]; [|discriminate].
  cbn [res_bind]. intros [= <-].
  rewrite !len_app.
  pose proof (len_nonneg (PyStr.join "," values)).
  change (len "(") with 1%Z. change (len "),") with 2%Z. lia.
Qed.

Lemma fill_statement_greedy (keys : list (nat * FieldFormatter))
    (remaining : list Row) (vs : list string) (sql : string) (b : Z) :
  res_map (row_literal keys) remaining = Ok vs ->
  fill_statement keys remaining sql b
  = Ok (sql ++ String.concat "" (firstn (greedy_count b vs) vs),
        skipn (greedy_count b vs) remaining).
Proof.
  revert vs sql b.
  induction remaining as [|row rest IH]; intros vs sql b Hvs.
  - injection Hvs as <-. simpl. now rewrite str_app_nil_r.
  - apply res_map_cons_inv in Hvs as (v & vs' & Hv & Hvs' & ->).
    cbn [fill_statement greedy_count]. rewrite Hv. cbn [res_bind].
    destruct (b - len v <? 0)%Z.
    + simpl. now rewrite str_app_nil_r.
    + rewrite (IH vs' (sql ++ v) (b - len v)%Z Hvs').
      cbn [firstn skipn]. rewrite concat_cons, str_app_assoc. reflexivity.
Qed.

Lemma greedy_count_le (b : Z) (vs : list string) :
  (greedy_count b vs <= length vs)%nat.
Proof.
  revert b. induction vs as [|v vs IH]; intros b; simpl; [lia|].
  destruct (b - len v <? 0)%Z; [lia|]. specialize (IH (b - len v)%Z). lia.
Qed.

Lemma greedy_count_total (b : Z) (vs : list string) :
  greedy_count b vs <> O ->
  (total (firstn (greedy_count b vs) vs) <= b)%Z.
Proof.
  revert b. induction vs as [|v vs IH]; intros b; cbn [greedy_count];
    [congruence|].
  destruct (b - len v <? 0)%Z eqn:E; [congruence|]. intros _.
  apply Z.ltb_ge in E. cbn [firstn]. rewrite total_cons.
  destruct (Nat.eq_dec (greedy_count (b - len v) vs) 0) as [H0|H0].
  - rewrite H0, firstn_O, total_nil. lia.
  - specialize (IH _ H0). lia.
Qed.

Lemma greedy_count_maximal (b : Z) (vs : list string) (w : string) :
  nth_error vs (greedy_count b vs) = Some w ->
  (b < total (firstn (greedy_count b vs) vs) + len w)%Z.
Proof.
  revert b. induction vs as [|v vs IH]; intros b; cbn [greedy_count];
    [discriminate|].
  destruct (b - len v <? 0)%Z eqn:E.
  - intros [= <-]. apply Z.ltb_lt in E. rewrite firstn_O, total_nil. lia.
  - intros H. cbn [firstn]. rewrite total_cons.
    specialize (IH _ H). lia.
Qed.

Lemma greedy_count_stops (b : Z) (before : list string) (v : string)
    (after : list string) :
  (b < len v)%Z ->
  greedy_count b (before ++ v :: after) = greedy_count b before.
Proof.
  revert b. induction before as [|u before IH]; intros b Hb; simpl.
  - replace (b - len v <? 0)%Z with true; [reflexivity|].
    symmetry. apply Z.ltb_lt. lia.
  - destruct (b - len u <? 0)%Z; [reflexivity|].
    rewrite IH; [reflexivity|]. pose proof (len_nonneg u). lia.
Qed.

Lemma skipn_head {A} (n : nat) (l : list A) (w : A) (r : list A) :
  skipn n l = w :: r -> nth_error l n = Some w.
Proof.
  revert l. induction n as [|n IH]; intros l H.
  - rewrite skipn_O in H. now subst l.
  - destruct l as [|a l]; [discriminate|]. simpl in *. now apply IH.
Qed.

(** The groups taken greedily: nothing is lost, no group is empty, each
    fits in the budget, and none could have taken one more text. *)
Lemma greedy_groups_spec (fuel : nat) (b : Z) (vs : list string) :
  Forall (fun v => (len v <= b)%Z) vs -> (length vs <= fuel)%nat ->
  concat (greedy_groups fuel b vs) = vs
  /\ Forall (fun g => g <> [] /\ (total g <= b)%Z) (greedy_groups fuel b vs)
  /\ maximal_groups b (greedy_groups fuel b vs).
Proof.
  revert vs. induction fuel as [|fuel IH]; intros vs Hfit Hlen.
  - destruct vs; [|simpl in Hlen; lia]. simpl. auto.
  - destruct vs as [|v vs]; [simpl; auto|].
    cbn [greedy_groups].
    destruct (greedy_count b (v :: vs)) as [|j] eqn:Ej.
    { exfalso. apply Forall_cons_iff in Hfit as [Hv _].
      simpl in Ej. destruct (b - len v <? 0)%Z eqn:E; [|discriminate].
      apply Z.ltb_lt in E. lia. }
    destruct (IH (skipn (S j) (v :: vs))) as (Hc & Hg & Hm).
    { now apply Forall_drop. }
    { rewrite length_skipn. simpl in *. lia. }
    split; [|split].
    + cbn [concat]. rewrite Hc. apply firstn_skipn.
    + constructor; [|exact Hg]. split; [discriminate|].
      rewrite <- Ej. apply greedy_count_total. congruence.
    + cbn [maximal_groups]. split; [|exact Hm].
      destruct (greedy_groups fuel b (skipn (S j) (v :: vs)))
        as [|g2 gs] eqn:Eg; [exact I|].
      apply Forall_cons_iff in Hg as [[Hne _] _].
      destruct g2 as [|w g2]; [congruence|].
      cbn [concat] in Hc. cbn [hd].
      rewrite <- Ej. apply greedy_count_maximal. rewrite Ej.
      apply (skipn_head _ _ _ (g2 ++ concat gs)%list). now rewrite <- Hc.
Qed.

Lemma drop_last_len (s : string) :
  (1 <= len s)%Z -> len (PyStr.drop_last s) = (len s - 1)%Z.
Proof.
  induction s as [|c s IH]; [unfold len; simpl; lia|]. intros _.
  destruct s as [|d s].
  - reflexivity.
  - change (PyStr.drop_last (String c (String d s)))
      with (String c (PyStr.drop_last (String d s))).
    pose proof (len_nonneg s) as Hs.
    rewrite (len_cons c), IH; rewrite !len_cons; lia.
Qed.

Lemma statement_len (sql_prefix : string) (g : list string) :
  (1 <= total g)%Z ->
  len (statement sql_prefix g) = (len sql_prefix + total g - 1)%Z.
Proof.
  intros H. unfold statement.
  pose proof (len_nonneg sql_prefix).
  rewrite drop_last_len; rewrite len_app; fold (total g); lia.
Qed.

Lemma In_concat_group {A} (groups : list (list A)) (g : list A) (x : A) :
  In g groups -> In x g -> In x (concat groups).
Proof.
  intros Hg Hx. apply in_concat. now exists g.
Qed.

Lemma res_map_In {A B} (f : A -> res B) (l : list A) (bs : list B) (b : B) :
  res_map f l = Ok bs -> In b bs -> exists a, In a l /\ f a = Ok b.
Proof.
  revert bs. induction l as [|a l IH]; intros bs H Hb.
  - injection H as <-. destruct Hb.
  - apply res_map_cons_inv in H as (b0 & bs' & Ha & H & ->).
    destruct Hb as [<-|Hb].
    + exists a. split; [now left | exact Ha].
    + destruct (IH bs' H Hb) as (a' & Hin & Hf).
      exists a'. split; [now right | exact Hf].
Qed.

Lemma schema_items_warn (ServerState : Type) (config : IngestCatalogConfig)
    (sch : Schema) (c : conn ServerState) :
  exists warnings,
    _schema_items config sch c
    = (mkConn (server c) (trace c ++ warnings)%list,
       Ok (ingestible config sch))
    /\ forallb is_log warnings = true.
Proof.
  unfold _schema_items, ingestible.
  assert (Hgen : forall its acc (c : conn ServerState),
             exists warnings,
               foldM
                 (fun acc item =>
                    match schema_item_skipped config item with
                    | Some warning => bind (emit warning) (fun _ => ret acc)
                    | None => ret (acc ++ [item])%list
                    end) its acc c
               = (mkConn (server c) (trace c ++ warnings)%list,
                  Ok (acc ++ List.filter
                               (fun item =>
                                  match schema_item_skipped config item with
                                  | None => true
                                  | Some _ => false
                                  end) its)%list)
               /\ forallb is_log warnings = true).
  { clear c. induction its as [|item its IH]; intros acc c.
    - exists []. simpl. unfold ret. rewrite !app_nil_r. now destruct c.
    - cbn [foldM List.filter]. unfold bind at 1.
      destruct (schema_item_skipped config item) as [w|] eqn:E.
      + change (bind (emit w) (fun _ => ret acc) c)
          with (mkConn (server c) (trace c ++ [w])%list, Ok acc).
        destruct (IH acc (mkConn (server c) (trace c ++ [w])%list))
          as (ws & -> & Hq).
        exists ([w] ++ ws)%list. cbn [server trace].
        rewrite <- app_assoc. split; [reflexivity|].
        cbn [app forallb]. rewrite Hq, andb_true_r.
        unfold schema_item_skipped in E.
        destruct (field_formatters !! getTypeString (field item)).
        * destruct (max_column_len config <? _)%Z; [|discriminate].
          now injection E as <-.
        * now injection E as <-.
      + change (ret (acc ++ [item])%list c) with (c, Ok (acc ++ [item])%list).
        cbv iota beta.
        destruct (IH (acc ++ [item])%list c) as (ws & -> & Hq).
        exists ws. rewrite <- app_assoc. now split. }
  destruct (Hgen (items sch) [] c) as (ws & H & Hq).
  exists ws. split; [exact H | exact Hq].
Qed.

Lemma log_is_no_query (ws : list event) :
  forallb is_log ws = true -> queries ws = [].
Proof.
  induction ws as [|w ws IH]; [reflexivity|]. cbn [forallb].
  intros [Hw Hws]%andb_true_iff. destruct w; try discriminate; now apply IH.
Qed.

Lemma log_is_no_commit (ws : list event) :
  forallb is_log ws = true -> existsb is_commit ws = false.
Proof.
  induction ws as [|w ws IH]; [reflexivity|]. cbn [forallb existsb].
  intros [Hw Hws]%andb_true_iff. destruct w; try discriminate; now apply IH.
Qed.

Lemma statement_events_no_commit (sql_prefix : string)
    (groups : list (list string)) :
  existsb is_commit (concat (List.map (statement_events sql_prefix) groups))
  = false.
Proof.
  induction groups as [|g groups IH]; [reflexivity|].
  cbn [List.map concat]. rewrite existsb_app, IH. reflexivity.
Qed.

Section GreedyIngest.

Variable ServerState : Type.
Variable server_exec :
  ServerState -> string -> ServerState * res (list (list string)).
Variable config : IngestCatalogConfig.

Hypothesis server_accepts :
  forall s sql, exists s' result, server_exec s sql = (s', Ok result).

Variable keys : list (nat * FieldFormatter).

(** The outer loop sends the rows in front of the first one that is too
    large, in greedy groups, and raises at that row if there is one. *)
Lemma ingest_loop_greedy (sql_prefix : string) (B : Z) (fuel : nat)
    (remaining : list Row) (before after : list string)
    (c : conn ServerState) :
  res_map (row_literal keys) remaining = Ok (before ++ after)%list ->
  Forall (fun v => (len v <= B - len sql_prefix)%Z) before ->
  match after with
  | [] => True
  | v :: _ => (B - len sql_prefix < len v)%Z
  end ->
  (length remaining <= fuel)%nat ->
  exists s',
    ingest_loop server_exec fuel keys sql_prefix B remaining c
    = (mkConn s'
         (trace c ++
          concat (List.map (statement_events sql_prefix)
                    (greedy_groups fuel (B - len sql_prefix) before)))%list,
       match after with
       | [] => Ok tt
       | _ :: _ => Raise (RuntimeError "Single row is too large to insert")
       end).
Proof.
  intros Hvs Hfit Hbig. revert remaining before c Hvs Hfit.
  set (budget := (B - len sql_prefix)%Z) in *.
  induction fuel as [|fuel IH]; intros remaining before c Hvs Hfit Hlen.
  - destruct remaining; [|simpl in Hlen; lia].
    injection Hvs as Hnil. symmetry in Hnil.
    apply app_eq_nil in Hnil as [-> ->].
    exists (server c). simpl. rewrite app_nil_r. now destruct c.
  - destruct remaining as [|row rest].
    { injection Hvs as Hnil. symmetry in Hnil.
      apply app_eq_nil in Hnil as [-> ->].
      exists (server c). simpl. rewrite app_nil_r. now destruct c. }
    cbn [ingest_loop]. rewrite bind_lift. fold budget.
    rewrite (fill_statement_greedy keys (row :: rest) _ sql_prefix budget Hvs).
    destruct before as [|u before].
    + destruct after as [|v after];
        [apply res_map_length in Hvs; discriminate Hvs|].
      cbn [app greedy_count].
      replace (budget - len v <? 0)%Z with true
        by (symmetry; apply Z.ltb_lt; lia).
      cbn [firstn skipn]. rewrite Nat.eqb_refl.
      exists (server c). simpl. rewrite app_nil_r. now destruct c.
    + assert (Hcount : greedy_count budget ((u :: before) ++ after)
                       = greedy_count budget (u :: before)).
      { destruct after as [|v after].
        - now rewrite app_nil_r.
        - now apply greedy_count_stops. }
      rewrite Hcount.
      destruct (greedy_count budget (u :: before)) as [|j] eqn:Ej.
      { exfalso. apply Forall_cons_iff in Hfit as [Hu _].
        simpl in Ej. destruct (budget - len u <? 0)%Z eqn:E; [|discriminate].
        apply Z.ltb_lt in E. lia. }
      pose proof (greedy_count_le budget (u :: before)) as Hj.
      rewrite Ej in Hj.
      assert (Hprog : (length (skipn (S j) (row :: rest))
                       =? length (row :: rest))%nat = false).
      { apply Nat.eqb_neq. rewrite length_skipn. simpl. lia. }
      rewrite Hprog.
      assert (Hfirst : firstn (S j) ((u :: before) ++ after)
                       = firstn (S j) (u :: before)).
      { rewrite firstn_app.
        replace (S j - length (u :: before))%nat with O by lia.
        cbn [firstn]. now rewrite app_nil_r. }
      rewrite Hfirst.
      fold (statement sql_prefix (firstn (S j) (u :: before))).
      set (stmt := statement sql_prefix (firstn (S j) (u :: before))).
      rewrite bind_run.
      unfold _execute_sql. rewrite bind_run. unfold emit at 1.
      rewrite bind_run. unfold execute. cbn [server trace].
      destruct (server_accepts (server c) stmt) as (s1 & result & ->).
      unfold ret at 1.
      destruct (IH (skipn (S j) (row :: rest)) (skipn (S j) (u :: before))
                  (mkConn s1 ((trace c ++ [LogDebug stmt []])
                              ++ [Query stmt])%list))
        as [s' ->].
      * rewrite (res_map_skipn _ (S j) _ _ Hvs). f_equal.
        rewrite skipn_app.
        replace (S j - length (u :: before))%nat with O by lia.
        reflexivity.
      * now apply Forall_drop.
      * rewrite length_skipn. simpl in *. lia.
      * exists s'. cbn [trace greedy_groups]. rewrite Ej.
        cbn [List.map concat]. unfold statement_events at 2. fold stmt.
        now rewrite <- !app_assoc.
Qed.

(** X7. When the server accepts all statements and every row literal fits
    in the budget (the byte budget less the statement prefix), [_do_ingest]
    ends normally with the commit as its last action; the statements it
    sent carry the row literals in order, none lost or repeated, in groups
    none of which is empty; each statement is shorter than the byte budget;
    and no group could have taken the first row of the next one. *)
Theorem do_ingest_partition (cat : Catalog) (table_name : string) (B : Z)
    (vs : list string) (c : conn ServerState) :
  ingest_keys (ingestible config (schema cat)) = Ok keys ->
  res_map (row_literal keys) (rows cat) = Ok vs ->
  let sql_prefix :=
    ingest_prefix config table_name (ingestible config (schema cat)) in
  let budget := (B - len sql_prefix)%Z in
  Forall (fun v => (len v <= budget)%Z) vs ->
  exists c' groups tr,
    _do_ingest server_exec config cat table_name B c = (c', Ok tt)
    /\ trace c' = (tr ++ [Commit])%list
    /\ queries (trace c')
       = (queries (trace c) ++ List.map (statement sql_prefix) groups)%list
    /\ concat groups = vs
    /\ Forall (fun g => g <> [] /\ (len (statement sql_prefix g) < B)%Z) groups
    /\ maximal_groups budget groups.
Proof.
  intros Hkeys Hvs sql_prefix budget Hfit.
  destruct (schema_items_warn ServerState config (schema cat) c)
    as (ws & Hs & Hw).
  pose proof (res_map_length _ _ _ Hvs) as Hlen.
  destruct (ingest_loop_greedy sql_prefix B (length (rows cat)) (rows cat)
              vs [] (mkConn (server c) (trace c ++ ws)%list))
    as [s' Hloop].
  { now rewrite app_nil_r. }
  { exact Hfit. }
  { exact I. }
  { lia. }
  fold budget in Hloop.
  destruct (greedy_groups_spec (length (rows cat)) budget vs Hfit)
    as (Hc & Hg & Hm); [lia|].
  set (groups := greedy_groups (length (rows cat)) budget vs) in *.
  eexists. exists groups. eexists.
  split; [|split; [|split; [|split; [|split]]]].
  - unfold _do_ingest. rewrite bind_run, Hs, bind_lift, Hkeys, bind_run.
    fold sql_prefix. rewrite Hloop. unfold emit. reflexivity.
  - cbn [trace]. reflexivity.
  - cbn [trace]. rewrite !queries_app, queries_statement_events.
    rewrite (log_is_no_query ws Hw). simpl. now rewrite !app_nil_r.
  - exact Hc.
  - apply Forall_forall. intros g Hin.
    rewrite Forall_forall in Hg. destruct (Hg g Hin) as [Hne Htot].
    split; [exact Hne|].
    destruct g as [|v g]; [congruence|].
    apply list_elem_of_In in Hin.
    assert (Hv : In v vs).
    { rewrite <- Hc. apply (In_concat_group groups (v :: g)); [exact Hin|].
      now left. }
    destruct (res_map_In _ _ _ _ Hvs Hv) as (row & _ & Hrow).
    apply row_literal_len in Hrow.
    rewrite total_cons in Htot. pose proof (total_nonneg g).
    rewrite statement_len; rewrite total_cons; unfold budget in *; lia.
  - exact Hm.
Qed.

(** X8. When the server accepts all statements and some row literal does
    not fit in the budget, [_do_ingest] raises the error of the single row
    too large and does not commit; but the rows in front of the first such
    row have all been sent by then, in order, in statements of the usual
    form. *)
Theorem do_ingest_oversized_row (cat : Catalog) (table_name : string) (B : Z)
    (before : list string) (v : string) (after : list string)
    (c : conn ServerState) :
  ingest_keys (ingestible config (schema cat)) = Ok keys ->
  res_map (row_literal keys) (rows cat) = Ok (before ++ v :: after)%list ->
  let sql_prefix :=
    ingest_prefix config table_name (ingestible config (schema cat)) in
  let budget := (B - len sql_prefix)%Z in
  Forall (fun u => (len u <= budget)%Z) before ->
  (budget < len v)%Z ->
  exists c' groups new,
    _do_ingest server_exec config cat table_name B c
    = (c', Raise (RuntimeError "Single row is too large to insert"))
    /\ trace c' = (trace c ++ new)%list
    /\ existsb is_commit new = false
    /\ queries new = List.map (statement sql_prefix) groups
    /\ concat groups = before
    /\ Forall (fun g => g <> []) groups.
Proof.
  intros Hkeys Hvs sql_prefix budget Hfit Hbig.
  destruct (schema_items_warn ServerState config (schema cat) c)
    as (ws & Hs & Hw).
  pose proof (res_map_length _ _ _ Hvs) as Hlen.
  rewrite length_app in Hlen.
  destruct (ingest_loop_greedy sql_prefix B (length (rows cat)) (rows cat)
              before (v :: after) (mkConn (server c) (trace c ++ ws)%list))
    as [s' Hloop].
  { exact Hvs. }
  { exact Hfit. }
  { exact Hbig. }
  { lia. }
  fold budget in Hloop.
  destruct (greedy_groups_spec (length (rows cat)) budget before Hfit)
    as (Hc & Hg & Hm); [lia|].
  set (groups := greedy_groups (length (rows cat)) budget before) in *.
  eexists. exists groups. eexists.
  split; [|split; [|split; [|split; [|split]]]].
  - unfold _do_ingest. rewrite bind_run, Hs, bind_lift, Hkeys, bind_run.
    fold sql_prefix. rewrite Hloop. reflexivity.
  - cbn [trace]. rewrite <- app_assoc. reflexivity.
  - rewrite existsb_app, (log_is_no_commit ws Hw).
    now rewrite statement_events_no_commit.
  - rewrite queries_app, queries_statement_events.
    now rewrite (log_is_no_query ws Hw).
  - exact Hc.
  - eapply Forall_impl; [exact Hg|]. now intros g [Hne _].
Qed.

End GreedyIngest.

Lemma do_ingest_partition_witness :
  exists c' groups tr,
    _do_ingest accepting_exec sample_config mixed_catalog "tmpq3k9xz" 65
      (mkConn tt [])
    = (c', Ok tt)
    /\ trace c' = (tr ++ [Commit])%list
    /\ queries (trace c')
       = List.map (statement "INSERT INTO tmpq3k9xz (a,b) VALUES ") groups
    /\ concat groups
       = ["(1,1.5),"; "(1,1.5),"; "(0.10000000000000001,1.5),"; "(1,1.5),"]
    /\ Forall (fun g => g <> []
                        /\ (len (statement
                                   "INSERT INTO tmpq3k9xz (a,b) VALUES " g)
                            < 65)%Z) groups
    /\ maximal_groups 30 groups.
Proof.
  assert (Haccept : forall (s : unit) (sql : string),
             exists s' result, accepting_exec s sql = (s', Ok result)).
  { intros s sql. exists s, []. reflexivity. }
  assert (Hkeys : ingest_keys (ingestible sample_config
                                 (schema mixed_catalog))
                  = Ok [double_key 0; double_key 1])
    by reflexivity.
  assert (Hvs : res_map (row_literal [double_key 0; double_key 1])
                  (rows mixed_catalog)
                = Ok ["(1,1.5),"; "(1,1.5),"; "(0.10000000000000001,1.5),";
                      "(1,1.5),"])
    by (vm_compute; reflexivity).
  destruct (do_ingest_partition unit accepting_exec sample_config Haccept
              [double_key 0; double_key 1] mixed_catalog "tmpq3k9xz" 65%Z
              _ (mkConn tt []) Hkeys Hvs)
    as (c' & groups & tr & H1 & H2 & H3 & H4 & H5 & H6).
  { repeat constructor; vm_compute; discriminate. }
  exists c', groups, tr.
  split; [exact H1|]. split; [exact H2|]. split; [exact H3|].
  split; [exact H4|]. split; [exact H5 | exact H6].
Defined.

Lemma do_ingest_oversized_row_witness :
  exists c' groups new,
    _do_ingest accepting_exec sample_config mixed_catalog "tmpq3k9xz" 55
      (mkConn tt [])
    = (c', Raise (RuntimeError "Single row is too large to insert"))
    /\ trace c' = new
    /\ existsb is_commit new = false
    /\ queries new
       = List.map (statement "INSERT INTO tmpq3k9xz (a,b) VALUES ") groups
    /\ concat groups = ["(1,1.5),"; "(1,1.5),"]
    /\ Forall (fun g => g <> []) groups.
Proof.
  assert (Haccept : forall (s : unit) (sql : string),
             exists s' result, accepting_exec s sql = (s', Ok result)).
  { intros s sql. exists s, []. reflexivity. }
  assert (Hkeys : ingest_keys (ingestible sample_config
                                 (schema mixed_catalog))
                  = Ok [double_key 0; double_key 1])
    by reflexivity.
  assert (Hvs : res_map (row_literal [double_key 0; double_key 1])
                  (rows mixed_catalog)
                = Ok (["(1,1.5),"; "(1,1.5),"]
                      ++ "(0.10000000000000001,1.5)," :: ["(1,1.5),"])%list)
    by (vm_compute; reflexivity).
  destruct (do_ingest_oversized_row unit accepting_exec sample_config Haccept
              [double_key 0; double_key 1] mixed_catalog "tmpq3k9xz" 55%Z
              _ _ _ (mkConn tt []) Hkeys Hvs)
    as (c' & groups & new & H1 & H2 & H3 & H4 & H5 & H6).
  { repeat constructor; vm_compute; discriminate. }
  { reflexivity. }
  exists c', groups, new.
  split; [exact H1|]. split; [exact H2|]. split; [exact H3|].
  split; [exact H4|]. split; [exact H5 | exact H6].
Defined.

(** ** The batch engine on any server *)

Lemma fill_statement_bound (keys : list (nat * FieldFormatter))
    (remaining : list Row) (sql : string) (b : Z)
    (sql' : string) (rest : list Row) :
  fill_statement keys remaining sql b = Ok (sql', rest) ->
  exists lits,
    sql' = sql ++ lits
    /\ ((rest = remaining /\ lits = "") \/ (1 <= len lits <= b)%Z).
Proof.
  revert sql b.
  induction remaining as [|row rest0 IH]; intros sql b H.
  - injection H as <- <-. exists "". rewrite str_app_nil_r. auto.
  - cbn [fill_statement] in H.
    destruct (row_literal keys row) as [v|e] eqn:Ev; [|discriminate].
    cbn [res_bind] in H. apply row_literal_len in Ev.
    destruct (b - len v <? 0)%Z eqn:E.
    + injection H as <- <-. exists "". rewrite str_app_nil_r. auto.
    + apply Z.ltb_ge in E.
      destruct (IH _ _ H) as (lits & -> & Hl).
      exists (v ++ lits). rewrite str_app_assoc. split; [reflexivity|].
      right. rewrite len_app.
      destruct Hl as [[_ ->]|Hl]; [change (len "") with 0%Z|]; lia.
Qed.

Lemma drop_last_app (p t : string) :
  t <> "" -> PyStr.drop_last (p ++ t) = p ++ PyStr.drop_last t.
Proof.
  intros Ht. induction p as [|c p IH]; [reflexivity|].
  change (String c p ++ t) with (String c (p ++ t)).
  change (String c p ++ PyStr.drop_last t)
    with (String c (p ++ PyStr.drop_last t)).
  rewrite <- IH.
  destruct (p ++ t) as [|d s] eqn:E; [|reflexivity].
  destruct p; [|discriminate E]. now destruct t.
Qed.

Lemma prefix_app (p t : string) : String.prefix p (p ++ t) = true.
Proof.
  induction p as [|c p IH]; [now destruct t|].
  change (String c p ++ t) with (String c (p ++ t)).
  cbn [String.prefix]. destruct (ascii_dec c c); [exact IH | congruence].
Qed.

Lemma statement_shape (sql_prefix lits : string) (B : Z) :
  (1 <= len lits <= B - len sql_prefix)%Z ->
  PyStr.startswith (PyStr.drop_last (sql_prefix ++ lits)) sql_prefix = true
  /\ (len (PyStr.drop_last (sql_prefix ++ lits)) < B)%Z.
Proof.
  intros H. split.
  - rewrite drop_last_app.
    + apply prefix_app.
    + intros ->. change (len "") with 0%Z in H. lia.
  - pose proof (len_nonneg sql_prefix).
    rewrite drop_last_len; rewrite len_app; lia.
Qed.

Lemma ingest_loop_any_server (ServerState : Type)
    (server_exec : ServerState -> string ->
                   ServerState * res (list (list string)))
    (keys : list (nat * FieldFormatter)) (sql_prefix : string) (B : Z)
    (fuel : nat) (remaining : list Row) (c : conn ServerState) :
  exists new,
    trace (fst (ingest_loop server_exec fuel keys sql_prefix B remaining c))
    = (trace c ++ new)%list
    /\ existsb is_commit new = false
    /\ Forall (fun sql => PyStr.startswith sql sql_prefix = true
                          /\ (len sql < B)%Z) (queries new).
Proof.
  revert remaining c.
  induction fuel as [|fuel IH]; intros remaining c.
  - exists []. rewrite app_nil_r. destruct remaining; simpl; auto.
  - destruct remaining as [|row rest0].
    { exists []. rewrite app_nil_r. simpl. auto. }
    cbn [ingest_loop]. rewrite bind_lift.
    destruct (fill_statement keys (row :: rest0) sql_prefix
                (B - len sql_prefix)) as [[sql rest]|e] eqn:Efill.
    2:{ exists []. rewrite app_nil_r. simpl. auto. }
    destruct (length rest =? length (row :: rest0))%nat eqn:Eprog.
    { exists []. rewrite app_nil_r. simpl. auto. }
    apply Nat.eqb_neq in Eprog.
    apply fill_statement_bound in Efill as (lits & -> & Hl).
    destruct Hl as [[-> _]|Hl]; [congruence|].
    destruct (statement_shape sql_prefix lits B Hl) as [Hpre Hlen].
    set (stmt := PyStr.drop_last (sql_prefix ++ lits)) in *.
    rewrite bind_run. unfold _execute_sql. rewrite bind_run.
    unfold emit at 1. rewrite bind_run. unfold execute. cbn [server trace].
    destruct (server_exec (server c) stmt) as [s1 [result|e]].
    + unfold ret at 1.
      destruct (IH rest (mkConn s1 ((trace c ++ [LogDebug stmt []])
                                    ++ [Query stmt])%list))
        as (new & Ht & Hc & Hq).
      exists ([LogDebug stmt []; Query stmt] ++ new)%list.
      split; [|split].
      * rewrite Ht. cbn [trace]. now rewrite <- !app_assoc.
      * cbn [app existsb is_commit]. exact Hc.
      * cbn [app]. change (queries (LogDebug stmt [] :: Query stmt :: new))
          with (stmt :: queries new). now constructor.
    + exists [LogDebug stmt []; Query stmt].
      split; [|split].
      * cbn [fst trace]. now rewrite <- app_assoc.
      * reflexivity.
      * change (queries [LogDebug stmt []; Query stmt]) with [stmt].
        now repeat constructor.
Qed.

(** X9. Whatever the server answers and whatever the rows are:
    every statement that [_do_ingest] sends begins with the statement
    prefix and is shorter than the byte budget; when it ends normally
    the commit is its last action and the only commit; and when it raises,
    it has not committed. *)
Theorem do_ingest_any_server (ServerState : Type)
    (server_exec : ServerState -> string ->
                   ServerState * res (list (list string)))
    (config : IngestCatalogConfig) (cat : Catalog) (table_name : string)
    (B : Z) (c : conn ServerState) :
  let sql_prefix :=
    ingest_prefix config table_name (ingestible config (schema cat)) in
  let run := _do_ingest server_exec config cat table_name B c in
  exists new,
    trace (fst run) = (trace c ++ new)%list
    /\ Forall (fun sql => PyStr.startswith sql sql_prefix = true
                          /\ (len sql < B)%Z) (queries new)
    /\ match snd run with
       | Ok _ => exists tr, new = (tr ++ [Commit])%list
                            /\ existsb is_commit tr = false
       | Raise _ => existsb is_commit new = false
       end.
Proof.
  intros sql_prefix run. unfold run, _do_ingest.
  destruct (schema_items_warn ServerState config (schema cat) c)
    as (ws & Hs & Hw).
  rewrite bind_run, Hs, bind_lift.
  destruct (ingest_keys (ingestible config (schema cat))) as [keys|e].
  2:{ exists ws. cbn [fst snd trace]. split; [reflexivity|].
      rewrite (log_is_no_query ws Hw). split; [constructor|].
      now apply log_is_no_commit. }
  rewrite bind_run. fold sql_prefix.
  destruct (ingest_loop_any_server ServerState server_exec keys sql_prefix B
              (length (rows cat)) (rows cat)
              (mkConn (server c) (trace c ++ ws)%list))
    as (new & Ht & Hc & Hq).
  destruct (ingest_loop server_exec (length (rows cat)) keys sql_prefix B
              (rows cat) (mkConn (server c) (trace c ++ ws)%list))
    as [c1 [[]|e]]; cbn [fst trace] in Ht.
  - exists ((ws ++ new) ++ [Commit])%list. unfold emit. cbn [fst snd trace].
    rewrite Ht. split; [now rewrite <- !app_assoc|]. split.
    + rewrite !queries_app, (log_is_no_query ws Hw). simpl.
      now rewrite app_nil_r.
    + exists (ws ++ new)%list. split; [reflexivity|].
      now rewrite existsb_app, (log_is_no_commit ws Hw), Hc.
  - exists (ws ++ new)%list. cbn [fst snd]. rewrite Ht.
    split; [now rewrite <- app_assoc|]. split.
    + now rewrite queries_app, (log_is_no_query ws Hw).
    + now rewrite existsb_app, (log_is_no_commit ws Hw), Hc.
Qed.

(** ** What [_schema_items] yields *)

Lemma ingestible_supported (config : IngestCatalogConfig) (item : SchemaItem) :
  schema_item_skipped config item = None ->
  (exists f, field_formatters !! getTypeString (field item) = Some f)
  /\ (len (_column_name config (getName (field item)))
      <= max_column_len config)%Z.
Proof.
  unfold schema_item_skipped.
  destruct (field_formatters !! getTypeString (field item)) as [f|];
    [|discriminate].
  destruct (max_column_len config <? _)%Z eqn:E; [discriminate|].
  intros _. apply Z.ltb_ge in E. split; [now exists f | exact E].
Qed.

(** On the items that pass the tests of [_schema_items], the formatter
    look-ups succeed. *)
Lemma ingestible_keys (config : IngestCatalogConfig) (sch : Schema) :
  Forall (fun item =>
            (exists f,
                field_formatters !! getTypeString (field item) = Some f
                /\ _column_def config (field item)
                   = res_bind (sql_type f (field item))
                       (fun ty =>
                          Ok (_column_name config (getName (field item))
                              ++ " " ++ ty)))
            /\ (len (_column_name config (getName (field item)))
                <= max_column_len config)%Z)
    (ingestible config sch)
  /\ exists keys,
       ingest_keys (ingestible config sch) = Ok keys
       /\ List.map fst keys = List.map key (ingestible config sch).
Proof.
  unfold ingestible.
  induction (items sch) as [|item its [IH1 (keys & IH2 & IH3)]].
  - split; [constructor|]. now exists [].
  - cbn [List.filter].
    destruct (schema_item_skipped config item) as [w|] eqn:E.
    { split; [exact IH1|]. now exists keys. }
    destruct (ingestible_supported config item E) as [[f Hf] Hlen].
    split.
    + constructor; [|exact IH1]. split; [|exact Hlen].
      exists f. split; [exact Hf|]. unfold _column_def. now rewrite Hf.
    + exists ((key item, f) :: keys). split.
      * unfold ingest_keys in *. cbn [res_map]. rewrite Hf.
        cbn [res_bind]. rewrite IH2. reflexivity.
      * cbn [List.map fst]. now rewrite IH3.
Qed.

Lemma skipped_yielded (config : IngestCatalogConfig) (item : SchemaItem) :
  match schema_item_skipped config item with
  | None => true
  | Some _ => false
  end = yielded config item.
Proof.
  unfold schema_item_skipped, yielded, has_formatter.
  destruct (field_formatters !! getTypeString (field item)); [|reflexivity].
  cbn [andb]. rewrite Z.leb_antisym.
  now destruct (max_column_len config <? _)%Z.
Qed.

Lemma ingestible_yielded (config : IngestCatalogConfig) (sch : Schema) :
  ingestible config sch = List.filter (yielded config) (items sch).
Proof.
  unfold ingestible. induction (items sch) as [|item its IH]; [reflexivity|].
  cbn [List.filter]. now rewrite skipped_yielded, IH.
Qed.

(** The run of the generator [_schema_items]: one warning for every item
    that is skipped, in the order of the schema, and nothing else. *)
Lemma schema_items_warnings (ServerState : Type)
    (config : IngestCatalogConfig) (sch : Schema) (c : conn ServerState) :
  _schema_items config sch c
  = (mkConn (server c)
       (trace c ++ omap (schema_item_skipped config) (items sch))%list,
     Ok (ingestible config sch)).
Proof.
  unfold _schema_items, ingestible.
  assert (Hgen : forall its acc (c : conn ServerState),
             foldM
               (fun acc item =>
                  match schema_item_skipped config item with
                  | Some warning => bind (emit warning) (fun _ => ret acc)
                  | None => ret (acc ++ [item])%list
                  end) its acc c
             = (mkConn (server c)
                  (trace c ++ omap (schema_item_skipped config) its)%list,
                Ok (acc ++ List.filter
                             (fun item =>
                                match schema_item_skipped config item with
                                | None => true
                                | Some _ => false
                                end) its)%list)).
  { clear c. induction its as [|item its IH]; intros acc c.
    - simpl. unfold ret. rewrite !app_nil_r. now destruct c.
    - cbn [foldM List.filter omap list_omap]. unfold bind at 1.
      destruct (schema_item_skipped config item) as [w|] eqn:E.
      + change (bind (emit w) (fun _ => ret acc) c)
          with (mkConn (server c) (trace c ++ [w])%list, Ok acc).
        cbv beta iota.
        rewrite (IH acc (mkConn (server c) (trace c ++ [w])%list)).
        cbn [server trace]. now rewrite <- !app_assoc.
      + change (ret (acc ++ [item])%list c) with (c, Ok (acc ++ [item])%list).
        cbv beta iota.
        rewrite (IH (acc ++ [item])%list c). now rewrite <- !app_assoc. }
  now rewrite Hgen.
Qed.

Lemma skipped_count (config : IngestCatalogConfig) (its : list SchemaItem) :
  (length (omap (schema_item_skipped config) its)
   + length (List.filter (yielded config) its))%nat
  = length its.
Proof.
  induction its as [|item its IH]; [reflexivity|].
  cbn [omap list_omap List.filter]. rewrite <- skipped_yielded.
  destruct (schema_item_skipped config item); simpl; lia.
Qed.

Lemma skipped_warnings (config : IngestCatalogConfig)
    (its : list SchemaItem) :
  Forall (fun ev => exists fmt args, ev = LogWarn fmt args)
    (omap (schema_item_skipped config) its).
Proof.
  induction its as [|item its IH]; [constructor|].
  cbn [omap list_omap].
  destruct (schema_item_skipped config item) as [w|] eqn:E; [|exact IH].
  constructor; [|exact IH]. unfold schema_item_skipped in E.
  destruct (field_formatters !! getTypeString (field item)).
  - destruct (max_column_len config <? _)%Z; [|discriminate E].
    injection E as <-. eauto.
  - injection E as <-. eauto.
Qed.

(** X10. A run of [_schema_items] yields the items of the schema whose
    type has a formatter and whose column name is not longer than
    [max_column_len], in the order of the schema, and logs one warning for
    each of the other items and nothing else.  So the formatter look-up of
    [_do_ingest] never raises [KeyError]: after the warnings, [_do_ingest]
    goes on to its loop, with one entry in [keys] per yielded item and
    that item's key; and [_column_def] finds a formatter for every yielded
    field, so that it can fail only inside [sql_type]. *)
Theorem schema_items_supported (ServerState : Type)
    (server_exec : ServerState -> string ->
                   ServerState * res (list (list string)))
    (config : IngestCatalogConfig) (cat : Catalog) (table_name : string)
    (B : Z) (c : conn ServerState) :
  exists warnings its keys,
    _schema_items config (schema cat) c
    = (mkConn (server c) (trace c ++ warnings)%list, Ok its)
    /\ its = List.filter (yielded config) (items (schema cat))
    /\ (length warnings + length its)%nat = length (items (schema cat))
    /\ Forall (fun ev => exists fmt args, ev = LogWarn fmt args) warnings
    /\ List.map fst keys = List.map key its
    /\ _do_ingest server_exec config cat table_name B c
       = bind (ingest_loop server_exec (length (rows cat)) keys
                 (ingest_prefix config table_name its) B (rows cat))
           (fun _ => emit Commit)
           (mkConn (server c) (trace c ++ warnings)%list)
    /\ Forall (fun item =>
                 exists f,
                   field_formatters !! getTypeString (field item) = Some f
                   /\ _column_def config (field item)
                      = res_bind (sql_type f (field item))
                          (fun ty =>
                             Ok (_column_name config (getName (field item))
                                 ++ " " ++ ty))) its.
Proof.
  destruct (ingestible_keys config (schema cat)) as [Hdefs (keys & Hkeys & Hk)].
  exists (omap (schema_item_skipped config) (items (schema cat))),
    (ingestible config (schema cat)), keys.
  split; [apply schema_items_warnings|].
  split; [apply ingestible_yielded|].
  split; [rewrite ingestible_yielded; apply skipped_count|].
  split; [apply skipped_warnings|].
  split; [exact Hk|]. split.
  - unfold _do_ingest.
    now rewrite bind_run, schema_items_warnings, bind_lift, Hkeys.
  - eapply Forall_impl; [exact Hdefs|]. now intros item [H _].
Qed.

(** ** Table creation *)

Lemma class_of_setdefault (k name k' : string)
    (d : list (string * list string)) :
  class_of k' (setdefault_append k name d)
  = if String.eqb k k' then (class_of k d ++ [name])%list else class_of k' d.
Proof.
  induction d as [|[k0 ns] d IH]; cbn [setdefault_append class_of].
  - now destruct (String.eqb k k').
  - destruct (String.eqb k0 k) eqn:E0; cbn [class_of].
    + apply String.eqb_eq in E0. subst k0.
      now destruct (String.eqb k k').
    + destruct (String.eqb k0 k') eqn:E1; [|exact IH].
      apply String.eqb_eq in E1. subst k0.
      rewrite String.eqb_sym in E0. now rewrite E0.
Qed.

Lemma In_setdefault (k name k' : string) (ns' : list string)
    (d : list (string * list string)) :
  In (k', ns') (setdefault_append k name d) ->
  In (k', ns') d
  \/ (k' = k /\ ((exists ns, In (k, ns) d /\ ns' = (ns ++ [name])%list)
                 \/ ns' = [name])).
Proof.
  induction d as [|[k0 ns] d IH]; cbn [setdefault_append].
  - intros [[= <- <-]|[]]. right. auto.
  - destruct (String.eqb k0 k) eqn:E0.
    + apply String.eqb_eq in E0. subst k0.
      intros [[= <- <-]|H]; [|left; now right].
      right. split; [reflexivity|]. left. exists ns. split; [now left|].
      reflexivity.
    + intros [H|H]; [left; now left|].
      destruct (IH H) as [H1|[-> [(ns0 & H1 & ->)| ->]]].
      * left. now right.
      * right. split; [reflexivity|]. left. exists ns0.
        split; [now right | reflexivity].
      * right. auto.
Qed.

Lemma class_of_In (k : string) (d : list (string * list string)) :
  class_of k d = [] \/ In (k, class_of k d) d.
Proof.
  induction d as [|[k0 ns] d IH]; [now left|]. cbn [class_of].
  destruct (String.eqb k0 k) eqn:E.
  - apply String.eqb_eq in E. subst k0. right. now left.
  - destruct IH as [IH|IH]; [now left | right; now right].
Qed.

Lemma equivalence_classes_snoc (names : list string) (name : string) :
  equivalence_classes (names ++ [name])
  = setdefault_append (PyStr.lower name) name (equivalence_classes names).
Proof. unfold equivalence_classes. now rewrite fold_left_app. Qed.

Lemma count_occ_snoc (ls : list string) (k k' : string) :
  count_occ string_dec (ls ++ [k]) k'
  = (count_occ string_dec ls k' + if String.eqb k k' then 1 else 0)%nat.
Proof.
  rewrite count_occ_app. cbn [count_occ].
  destruct (string_dec k k') as [->|Hne].
  - now rewrite String.eqb_refl.
  - apply String.eqb_neq in Hne. now rewrite Hne.
Qed.

(** The class of a key has as many names as there are names with that
    key, and the dict holds no other lists. *)
Lemma equivalence_classes_count (names : list string) :
  (forall k, length (class_of k (equivalence_classes names))
             = count_occ string_dec (List.map PyStr.lower names) k)
  /\ (forall k ns, In (k, ns) (equivalence_classes names) ->
                   (length ns
                    <= count_occ string_dec (List.map PyStr.lower names) k)%nat).
Proof.
  induction names as [|name names [IH1 IH2]] using rev_ind.
  - split; [reflexivity|]. intros k ns [].
  - rewrite equivalence_classes_snoc, map_app. cbn [List.map]. split.
    + intros k. rewrite class_of_setdefault, count_occ_snoc.
      destruct (String.eqb (PyStr.lower name) k) eqn:E.
      * apply String.eqb_eq in E. subst k.
        rewrite length_app, IH1. reflexivity.
      * rewrite IH1. lia.
    + intros k ns H. rewrite count_occ_snoc.
      apply In_setdefault in H as [H|[-> [(ns0 & H & ->)| ->]]].
      * specialize (IH2 _ _ H). lia.
      * specialize (IH2 _ _ H). rewrite String.eqb_refl, length_app.
        simpl. lia.
      * rewrite String.eqb_refl. simpl. lia.
Qed.

Lemma join_nil (sep : string) (l : list string) :
  Forall (fun s => s <> "") l -> PyStr.join sep l = "" -> l = [].
Proof.
  destruct l as [|x l]; [reflexivity|].
  intros [Hx _]%Forall_cons_iff H. exfalso.
  destruct x as [|c x]; [congruence|].
  destruct l; discriminate H.
Qed.

Lemma filter_nil {A} (f : A -> bool) (l : list A) :
  List.filter f l = [] <-> (forall x, In x l -> f x = false).
Proof.
  induction l as [|a l IH]; cbn [List.filter].
  - split; [intros _ x [] | reflexivity].
  - destruct (f a) eqn:E.
    + split; [discriminate|]. intros H. specialize (H a (or_introl eq_refl)).
      congruence.
    + rewrite IH. split.
      * intros H x [<-|Hx]; auto.
      * intros H x Hx. apply H. now right.
Qed.

(** The text [clashes] is empty exactly when no two names are equal
    without regard to case. *)
Lemma clashes_nil (names : list string) :
  clashes names = "" <-> List.NoDup (List.map PyStr.lower names).
Proof.
  destruct (equivalence_classes_count names) as [Hcount Hle].
  unfold clashes. split.
  - intros H. apply join_nil in H.
    2:{ apply Forall_forall. intros s Hs. apply list_elem_of_In in Hs.
        apply in_map_iff in Hs as (c & <- & _).
        change (tab ++ "{" ++ PyStr.join ", " c ++ "}")
          with (String (ascii_of_nat 9)
                  ("{" ++ PyStr.join ", " c ++ "}")).
        discriminate. }
    apply map_eq_nil in H.
    apply (List.NoDup_count_occ string_dec). intros k.
    rewrite <- Hcount.
    destruct (class_of_In k (equivalence_classes names)) as [->|Hin];
      [simpl; lia|].
    assert (Hf := proj1 (filter_nil _ _) H
                    (class_of k (equivalence_classes names))).
    cbv beta in Hf. rewrite Nat.ltb_ge in Hf. apply Hf.
    apply in_map_iff. now exists (k, class_of k (equivalence_classes names)).
  - intros Hnd.
    replace (List.filter _ _) with (@nil (list string)); [reflexivity|].
    symmetry. apply filter_nil. intros ns Hns.
    apply in_map_iff in Hns as ([k ns'] & <- & Hin). cbn [snd].
    apply Nat.ltb_ge. specialize (Hle _ _ Hin).
    pose proof (proj1 (List.NoDup_count_occ string_dec _) Hnd k). lia.
Qed.

Lemma setdefault_keys (k name : string) (d : list (string * list string)) :
  List.map fst (setdefault_append k name d)
  = if existsb (String.eqb k) (List.map fst d) then List.map fst d
    else (List.map fst d ++ [k])%list.
Proof.
  induction d as [|[k0 ns] d IH]; [reflexivity|].
  cbn [setdefault_append List.map fst existsb].
  rewrite (String.eqb_sym k k0).
  destruct (String.eqb k0 k); [reflexivity|].
  cbn [List.map fst orb]. rewrite IH.
  now destruct (existsb (String.eqb k) (List.map fst d)).
Qed.

(** A dict holds a key once. *)
Lemma equivalence_classes_keys (names : list string) :
  List.NoDup (List.map fst (equivalence_classes names)).
Proof.
  induction names as [|name names IH] using rev_ind; [constructor|].
  rewrite equivalence_classes_snoc, setdefault_keys.
  destruct (existsb _ _) eqn:E; [exact IH|].
  apply List.NoDup_app; [exact IH | repeat constructor; intros [] |].
  intros k Hk [<-|[]].
  assert (existsb (String.eqb (PyStr.lower name))
            (List.map fst (equivalence_classes names)) = true); [|congruence].
  apply existsb_exists. exists (PyStr.lower name).
  split; [exact Hk | apply String.eqb_refl].
Qed.

Lemma class_of_unique (k : string) (ns : list string)
    (d : list (string * list string)) :
  List.NoDup (List.map fst d) -> In (k, ns) d -> class_of k d = ns.
Proof.
  induction d as [|[k0 ns0] d IH]; [intros _ []|].
  cbn [List.map fst class_of]. intros Hnd [[= -> ->]|Hin].
  - now rewrite String.eqb_refl.
  - apply List.NoDup_cons_iff in Hnd as [Hk0 Hnd].
    destruct (String.eqb k0 k) eqn:E; [|now apply IH].
    apply String.eqb_eq in E. subst k0. exfalso. apply Hk0.
    apply in_map_iff. now exists (k, ns).
Qed.

(** The list that the dict holds under a key: the names with that key,
    in the order of the fields. *)
Lemma class_of_names (k : string) (names : list string) :
  class_of k (equivalence_classes names)
  = List.filter (fun name => String.eqb (PyStr.lower name) k) names.
Proof.
  induction names as [|name names IH] using rev_ind; [reflexivity|].
  rewrite equivalence_classes_snoc, class_of_setdefault, List.filter_app.
  cbn [List.filter]. destruct (String.eqb (PyStr.lower name) k) eqn:E.
  - apply String.eqb_eq in E. subst k. now rewrite IH.
  - now rewrite IH, app_nil_r.
Qed.

Lemma filter_map_snd (f : list string -> bool)
    (d : list (string * list string)) :
  List.filter f (List.map snd d)
  = List.map snd (List.filter (fun p => f (snd p)) d).
Proof.
  induction d as [|p d IH]; [reflexivity|]. cbn [List.map List.filter].
  destruct (f (snd p)); cbn [List.map]; now rewrite IH.
Qed.

(** The groups of the text [clashes], without regard to the order in
    which the dict lists them: one group per key that more than one name
    has, holding the names with that key as the fields have them. *)
Lemma clash_groups (names : list string) :
  exists keys,
    List.filter (fun c => (1 <? length c)%nat)
      (List.map snd (equivalence_classes names))
    = List.map
        (fun k => List.filter (fun name => String.eqb (PyStr.lower name) k)
                    names) keys
    /\ List.NoDup keys
    /\ (forall k,
          In k keys
          <-> (1 < count_occ string_dec (List.map PyStr.lower names) k)%nat).
Proof.
  pose proof (equivalence_classes_keys names) as Hnd.
  destruct (equivalence_classes_count names) as [Hcount _].
  set (d := equivalence_classes names) in *.
  exists (List.map fst
            (List.filter (fun p => (1 <? length (snd p))%nat) d)).
  split; [|split].
  - rewrite filter_map_snd, List.map_map. apply List.map_ext_in.
    intros [k ns] Hin. apply List.filter_In in Hin as [Hin _].
    cbn [fst snd]. unfold d in *.
    now rewrite <- class_of_names, (class_of_unique k ns _ Hnd Hin).
  - clear Hcount. induction d as [|[k ns] d IH]; [constructor|].
    cbn [List.map fst] in Hnd. apply List.NoDup_cons_iff in Hnd as [Hk Hnd].
    cbn [List.filter snd]. destruct (1 <? length ns)%nat; [|now apply IH].
    cbn [List.map fst]. constructor; [|now apply IH].
    intros Hin. apply Hk. apply in_map_iff in Hin as (p & Hp & Hin).
    apply List.filter_In in Hin as [Hin _].
    apply in_map_iff. now exists p.
  - intros k. rewrite <- Hcount. split.
    + intros Hin. apply in_map_iff in Hin as ([k' ns] & Hk & Hin).
      cbn [fst] in Hk. subst k'.
      apply List.filter_In in Hin as [Hin Hlen]. cbn [snd] in Hlen.
      rewrite (class_of_unique k ns _ Hnd Hin). now apply Nat.ltb_lt.
    + intros Hlen. apply in_map_iff. exists (k, class_of k d).
      split; [reflexivity|]. apply List.filter_In. split.
      * destruct (class_of_In k d) as [E|Hin]; [|exact Hin].
        rewrite E in Hlen. simpl in Hlen. lia.
      * cbn [snd]. now apply Nat.ltb_lt.
Qed.

(** X11. [_create_table] raises the error of the clashing columns exactly
    when two of the fields it is to create have names that are equal
    without regard to case; it does so before any statement is sent, and
    none is sent then.  The message lists one group in braces for every
    lower-case name that more than one field has, each group holding the
    names of those fields in the order of the schema; about the order of
    the groups, which is that of a dict, nothing is said.  When no two
    names are equal in that sense, the text [clashes] is empty and the
    check passes. *)
Theorem create_table_clash_check (ServerState : Type)
    (server_exec : ServerState -> string ->
                   ServerState * res (list (list string)))
    (config : IngestCatalogConfig) (tableName : string) (sch : Schema)
    (c : conn ServerState) :
  let names := ingestible_names config sch in
  (clashes names = "" <-> List.NoDup (List.map PyStr.lower names))
  /\ (~ List.NoDup (List.map PyStr.lower names) ->
      exists c' keys,
        _create_table server_exec config tableName sch c
        = (c', Raise
                 (RuntimeError
                    (clash_message
                       (PyStr.join ("," ++ nl)
                          (List.map
                             (fun k =>
                                tab ++ "{"
                                ++ PyStr.join ", "
                                     (List.filter
                                        (fun name =>
                                           String.eqb (PyStr.lower name) k)
                                        names)
                                ++ "}") keys)))))
        /\ keys <> []
        /\ List.NoDup keys
        /\ (forall k,
              In k keys
              <-> (1 < count_occ string_dec (List.map PyStr.lower names) k)%nat)
        /\ server c' = server c
        /\ queries (trace c') = queries (trace c)).
Proof.
  intros names. split; [apply clashes_nil|].
  intros Hdup.
  destruct (schema_items_warn ServerState config sch c) as (ws & Hs & Hw).
  destruct (clash_groups names) as (keys & Hgroups & Hnd & Hkeys).
  exists (mkConn (server c) (trace c ++ ws)%list), keys.
  assert (Htext : clashes names
                  = PyStr.join ("," ++ nl)
                      (List.map
                         (fun k =>
                            tab ++ "{"
                            ++ PyStr.join ", "
                                 (List.filter
                                    (fun name =>
                                       String.eqb (PyStr.lower name) k)
                                    names)
                            ++ "}") keys)).
  { unfold clashes. now rewrite Hgroups, List.map_map. }
  split; [|split; [|split; [|split; [|split]]]].
  - unfold _create_table. rewrite bind_run, Hs.
    fold (ingestible_names config sch). fold names.
    destruct (String.eqb (clashes names) "") eqn:E.
    + apply String.eqb_eq in E. apply clashes_nil in E. contradiction.
    + cbn [negb]. now rewrite Htext.
  - intros ->. apply Hdup. apply clashes_nil. now rewrite Htext.
  - exact Hnd.
  - exact Hkeys.
  - reflexivity.
  - cbn [trace]. now rewrite queries_app, (log_is_no_query ws Hw), app_nil_r.
Qed.

Lemma create_table_clash_check_witness :
  ~ List.NoDup (List.map PyStr.lower
                  (ingestible_names default_config case_clash_schema))
  /\ exists c' keys,
       _create_table accepting_exec default_config "tmpq3k9xz"
         case_clash_schema (mkConn tt [])
       = (c', Raise
                (RuntimeError
                   (clash_message
                      (PyStr.join ("," ++ nl)
                         (List.map
                            (fun k =>
                               tab ++ "{"
                               ++ PyStr.join ", "
                                    (List.filter
                                       (fun name =>
                                          String.eqb (PyStr.lower name) k)
                                       (ingestible_names default_config
                                          case_clash_schema))
                               ++ "}") keys)))))
       /\ keys <> []
       /\ List.NoDup keys
       /\ (forall k,
             In k keys
             <-> (1 < count_occ string_dec
                        (List.map PyStr.lower
                           (ingestible_names default_config
                              case_clash_schema)) k)%nat)
       /\ server c' = tt
       /\ queries (trace c') = [].
Proof.
  destruct (create_table_clash_check unit accepting_exec default_config
              "tmpq3k9xz" case_clash_schema (mkConn tt [])) as [H1 H2].
  assert (Hdup : ~ List.NoDup
                     (List.map PyStr.lower
                        (ingestible_names default_config case_clash_schema))).
  { intros Hnd. apply H1 in Hnd. discriminate Hnd. }
  split; [exact Hdup|]. exact (H2 Hdup).
Defined.

Lemma prefix_extend (p s t : string) :
  String.prefix p s = true -> String.prefix p (s ++ t) = true.
Proof.
  revert s. induction p as [|c p IH]; intros s H; [now destruct (s ++ t)|].
  destruct s as [|d s]; [discriminate H|].
  change (String d s ++ t) with (String d (s ++ t)).
  cbn [String.prefix] in *. destruct (ascii_dec c d); [now apply IH|].
  discriminate H.
Qed.

Lemma prefix_refl (p : string) : String.prefix p p = true.
Proof. rewrite <- (str_app_nil_r p) at 2. apply prefix_app. Qed.

Lemma execute_sql_run (ServerState : Type)
    (server_exec : ServerState -> string ->
                   ServerState * res (list (list string)))
    (sql : string) (c : conn ServerState) :
  _execute_sql server_exec sql c
  = (mkConn (fst (server_exec (server c) sql))
       (trace c ++ [LogDebug sql []; Query sql])%list,
     match snd (server_exec (server c) sql) with
     | Ok _ => Ok tt
     | Raise e => Raise e
     end).
Proof.
  unfold _execute_sql, bind, emit, execute, ret. cbn [server trace].
  destruct (server_exec (server c) sql) as [s1 [rows|e]];
    cbn [fst snd]; now rewrite <- app_assoc.
Qed.

(** X12. When no two names clash, [_create_table] sends no statement if
    the column definition of a field cannot be given (the exception of
    [_column_def] is raised), and exactly one statement otherwise: it
    starts with [CREATE TABLE], the given name and one column definition per
    yielded field, in order; the table name is returned if the server
    accepts the statement, and the exception of the server is raised if it
    does not. *)
Theorem create_table_statement (ServerState : Type)
    (server_exec : ServerState -> string ->
                   ServerState * res (list (list string)))
    (config : IngestCatalogConfig) (tableName : string) (sch : Schema)
    (c : conn ServerState) :
  List.NoDup (List.map PyStr.lower (ingestible_names config sch)) ->
  let run := _create_table server_exec config tableName sch c in
  match res_map (_column_def config)
          (List.map field (ingestible config sch)) with
  | Raise e =>
      snd run = Raise e
      /\ server (fst run) = server c
      /\ queries (trace (fst run)) = queries (trace c)
  | Ok defs =>
      length defs = length (ingestible config sch)
      /\ exists sql,
           queries (trace (fst run)) = (queries (trace c) ++ [sql])%list
           /\ PyStr.startswith sql
                ("CREATE TABLE " ++ tableName ++ " (" ++ nl ++ tab
                 ++ PyStr.join ("," ++ nl ++ tab) defs) = true
           /\ server (fst run) = fst (server_exec (server c) sql)
           /\ snd run = match snd (server_exec (server c) sql) with
                        | Ok _ => Ok tableName
                        | Raise e => Raise e
                        end
  end.
Proof.
  intros Hnd run.
  destruct (schema_items_warn ServerState config sch c) as (ws & Hs & Hw).
  apply clashes_nil in Hnd.
  assert (Hrun : run = _create_table server_exec config tableName sch c)
    by reflexivity.
  unfold _create_table in Hrun. rewrite bind_run, Hs in Hrun.
  fold (ingestible_names config sch) in Hrun. rewrite Hnd in Hrun.
  cbn [String.eqb negb] in Hrun. rewrite bind_lift in Hrun.
  destruct (res_map (_column_def config)
              (List.map field (ingestible config sch))) as [defs|e] eqn:Edefs.
  2:{ rewrite Hrun. cbn [fst snd server trace].
      split; [reflexivity|]. split; [reflexivity|].
      now rewrite queries_app, (log_is_no_query ws Hw), app_nil_r. }
  split.
  { rewrite (res_map_length _ _ _ Edefs). apply length_map. }
  set (base := "CREATE TABLE " ++ tableName ++ " (" ++ nl ++ tab
               ++ PyStr.join ("," ++ nl ++ tab) defs).
  assert (Hbase : (("CREATE TABLE " ++ tableName ++ " (" ++ nl ++ tab)
                   ++ PyStr.join ("," ++ nl ++ tab) defs) = base).
  { unfold base. now rewrite !str_app_assoc. }
  rewrite Hbase in Hrun.
  set (sql1 := if negb (String.eqb (extra_columns config) "")
               then base ++ "," ++ nl ++ tab ++ extra_columns config
               else base) in *.
  assert (H1 : String.prefix base sql1 = true).
  { unfold sql1. destruct (negb _); [apply prefix_app | apply prefix_refl]. }
  assert (Hfinal : forall (sql2 : string) (ws2 : list event),
             String.prefix base sql2 = true ->
             forallb is_log ws2 = true ->
             run = bind (_execute_sql server_exec (sql2 ++ nl ++ ")"))
                     (fun _ => ret tableName)
                     (mkConn (server c) ((trace c ++ ws) ++ ws2)%list) ->
             exists sql,
               queries (trace (fst run)) = (queries (trace c) ++ [sql])%list
               /\ PyStr.startswith sql base = true
               /\ server (fst run) = fst (server_exec (server c) sql)
               /\ snd run = match snd (server_exec (server c) sql) with
                            | Ok _ => Ok tableName
                            | Raise e => Raise e
                            end).
  { intros sql2 ws2 Hp Hw2 ->. exists (sql2 ++ nl ++ ")").
    rewrite bind_run, execute_sql_run. cbn [server trace].
    split; [|split; [now apply prefix_extend|]].
    - destruct (server_exec (server c) (sql2 ++ nl ++ ")"))
        as [s1 [rows|e]]; cbn [fst snd server trace ret].
      all: rewrite !queries_app, (log_is_no_query ws Hw),
             (log_is_no_query ws2 Hw2).
      all: simpl; now rewrite !app_nil_r.
    - destruct (server_exec (server c) (sql2 ++ nl ++ ")"))
        as [s1 [rows|e]]; split; reflexivity. }
  destruct (id_field_name config) as [id|].
  - destruct (String.eqb id "").
    + apply (Hfinal sql1 []); [exact H1 | reflexivity|].
      rewrite Hrun, app_nil_r. reflexivity.
    + destruct (existsb (String.eqb id) (ingestible_names config sch)).
      * apply (Hfinal (sql1 ++ "," ++ nl ++ tab ++ "UNIQUE("
                         ++ _column_name config id ++ ")") []);
          [now apply prefix_extend | reflexivity|].
        rewrite Hrun, app_nil_r. reflexivity.
      * apply (Hfinal sql1 [LogWarn
                              ("No field matches the configured unique ID "
                               ++ "field name (%s)") [id]]);
          [exact H1 | reflexivity|].
        rewrite Hrun. reflexivity.
  - apply (Hfinal sql1 []); [exact H1 | reflexivity|].
    rewrite Hrun, app_nil_r. reflexivity.
Qed.

Lemma create_table_statement_witness :
  (exists sql,
      queries (trace (fst (_create_table accepting_exec default_config
                             "tmpq3k9xz" ab_schema (mkConn tt []))))
      = [sql]
      /\ PyStr.startswith sql
           ("CREATE TABLE tmpq3k9xz (" ++ nl ++ tab
            ++ PyStr.join ("," ++ nl ++ tab) ["a DOUBLE"; "b DOUBLE"]) = true
      /\ snd (_create_table accepting_exec default_config "tmpq3k9xz"
                ab_schema (mkConn tt []))
         = Ok "tmpq3k9xz")
  /\ snd (_create_table accepting_exec default_config "tmpq3k9xz"
            bad_string_schema (mkConn tt []))
     = Raise (RuntimeError "String field has zero size")
  /\ queries (trace (fst (_create_table accepting_exec default_config
                            "tmpq3k9xz" bad_string_schema (mkConn tt []))))
     = [].
Proof.
  assert (Hnd : forall x y : string, x <> y -> List.NoDup [x; y]).
  { intros x y Hxy. constructor; [|constructor; [|constructor]].
    - intros [H|[]]. congruence.
    - intros []. }
  split.
  - pose proof (create_table_statement unit accepting_exec default_config
                  "tmpq3k9xz" ab_schema (mkConn tt [])
                  (Hnd "a" "b" ltac:(discriminate))) as H.
    cbv zeta in H.
    change (res_map (_column_def default_config)
              (List.map field (ingestible default_config ab_schema)))
      with (Ok (A := list string) ["a DOUBLE"; "b DOUBLE"]) in H.
    destruct H as (_ & sql & H1 & H2 & _ & H4).
    exists sql. split; [exact H1|]. split; [exact H2 | exact H4].
  - pose proof (create_table_statement unit accepting_exec default_config
                  "tmpq3k9xz" bad_string_schema (mkConn tt [])
                  (Hnd "a" "s" ltac:(discriminate))) as H.
    cbv zeta in H.
    change (res_map (_column_def default_config)
              (List.map field (ingestible default_config bad_string_schema)))
      with (Raise (A := list string)
              (RuntimeError "String field has zero size")) in H.
    destruct H as (H1 & _ & H3). split; [exact H1 | exact H3].
Defined.

(** ** Renaming: the ways out other than success and exhaustion *)

Lemma rename_loop_other_code (ServerState : Type)
    (server_exec : ServerState -> string ->
                   ServerState * res (list (list string)))
    (from_name to_name : string) (tries : nat) (c : conn ServerState) :
  (forall s, exists s' code,
      server_exec s (rename_sql from_name to_name)
      = (s', Raise (OperationalError code))
      /\ code <> MYSQL_ER_TABLE_EXISTS_ERROR) ->
  exists s',
    rename_loop server_exec tries from_name to_name c
    = (mkConn s'
         (trace c ++ repeat (Query (rename_sql from_name to_name)) tries)%list,
       Ok false).
Proof.
  intros HR. revert c.
  induction tries as [|tries IH]; intros [s tr].
  - exists s. simpl. now rewrite app_nil_r.
  - cbn [rename_loop]. fold (rename_sql from_name to_name).
    unfold execute at 1. cbn [server trace].
    destruct (HR s) as (s1 & code & -> & Hcode).
    apply Z.eqb_neq in Hcode. rewrite Hcode.
    destruct (IH (mkConn s1 (tr ++ [Query (rename_sql from_name to_name)])%list))
      as [s' ->].
    exists s'. cbn [trace repeat]. now rewrite <- app_assoc.
Qed.

(** X13. [_rename_table] on its other ways out.  A [;] in either name
    raises the error of the statement check before anything is sent.  For
    clean names: an exception of the [RENAME] that is not an
    [OperationalError] is raised at once, after that single statement; so is
    the exception of a [DROP] that fails; but an [OperationalError] other
    than "table exists" is swallowed: the [RENAME] is sent again, three
    times in all and without any [DROP], and the function returns normally
    with the warning. *)
Theorem rename_table_errors (ServerState : Type)
    (server_exec : ServerState -> string ->
                   ServerState * res (list (list string)))
    (from_name to_name : string) (c : conn ServerState) :
  (PyStr.contains_char ";" from_name || PyStr.contains_char ";" to_name = true ->
   _rename_table server_exec from_name to_name c
   = (c, Raise (RuntimeError "Illegal SQL.")))
  /\ (PyStr.contains_char ";" from_name || PyStr.contains_char ";" to_name
      = false ->
      (forall s' e,
          server_exec (server c) (rename_sql from_name to_name)
          = (s', Raise e) ->
          (forall code, e <> OperationalError code) ->
          _rename_table server_exec from_name to_name c
          = (mkConn s' (trace c ++ [Query (rename_sql from_name to_name)])%list,
             Raise e))
      /\ (forall s1 s2 e,
             server_exec (server c) (rename_sql from_name to_name)
             = (s1, Raise (OperationalError MYSQL_ER_TABLE_EXISTS_ERROR)) ->
             server_exec s1 (drop_sql to_name) = (s2, Raise e) ->
             _rename_table server_exec from_name to_name c
             = (mkConn s2 (trace c ++ failed_turn from_name to_name)%list,
                Raise e))
      /\ ((forall s, exists s' code,
              server_exec s (rename_sql from_name to_name)
              = (s', Raise (OperationalError code))
              /\ code <> MYSQL_ER_TABLE_EXISTS_ERROR) ->
          exists s',
            _rename_table server_exec from_name to_name c
            = (mkConn s'
                 (trace c ++ [Query (rename_sql from_name to_name);
                              Query (rename_sql from_name to_name);
                              Query (rename_sql from_name to_name);
                              rename_warning to_name])%list,
               Ok tt))).
Proof.
  split.
  - intros H. unfold _rename_table, _testSqlIsClean.
    rewrite bind_lift.
    destruct (PyStr.contains_char ";" from_name); [reflexivity|].
    rewrite bind_lift. simpl in H. now rewrite H.
  - intros H. apply orb_false_iff in H as [Hfrom Hto].
    assert (Hunfold :
              _rename_table server_exec from_name to_name c
              = match rename_loop server_exec num_tries from_name to_name c with
                | (c', Ok true) => (c', Ok tt)
                | (c', Ok false) => emit (rename_warning to_name) c'
                | (c', Raise e) => (c', Raise e)
                end).
    { unfold _rename_table, _testSqlIsClean, bind, lift.
      rewrite Hfrom, Hto.
      destruct (rename_loop server_exec num_tries from_name to_name c)
        as [c' [[|]|e]]; reflexivity. }
    rewrite Hunfold. unfold num_tries. split; [|split].
    + intros s' e He Hother. cbn [rename_loop].
      fold (rename_sql from_name to_name). unfold execute at 1.
      rewrite He. destruct e; try reflexivity.
      now destruct (Hother code).
    + intros s1 s2 e HR HD. cbn [rename_loop].
      fold (rename_sql from_name to_name). fold (drop_sql to_name).
      unfold execute at 1. rewrite HR, Z.eqb_refl.
      unfold bind, execute. cbn [server trace]. rewrite HD.
      unfold failed_turn. now rewrite <- app_assoc.
    + intros HR.
      destruct (rename_loop_other_code ServerState server_exec from_name
                  to_name 3 c HR) as [s' ->].
      exists s'. unfold emit. cbn [server trace repeat].
      now rewrite <- app_assoc.
Qed.

Lemma rename_table_errors_witness :
  _rename_table accepting_exec "tmpq3k9xz" "`a;b`" (mkConn tt [])
  = (mkConn tt [], Raise (RuntimeError "Illegal SQL."))
  /\ _rename_table (refusing_exec (ProgrammingError 1064)) "tmpq3k9xz" "`dest`"
       (mkConn tt [])
     = (mkConn tt [Query "RENAME TABLE tmpq3k9xz TO `dest`"],
        Raise (ProgrammingError 1064))
  /\ _rename_table scripted_exec "tmpq3k9xz" "`dest`"
       (mkConn [Raise (OperationalError MYSQL_ER_TABLE_EXISTS_ERROR);
                Raise (OperationalError MYSQL_ER_NO_SUCH_TABLE)] [])
     = (mkConn [] [Query "RENAME TABLE tmpq3k9xz TO `dest`";
                   Query "DROP TABLE `dest`"],
        Raise (OperationalError MYSQL_ER_NO_SUCH_TABLE))
  /\ exists s',
       _rename_table (refusing_exec (OperationalError MYSQL_ER_NO_SUCH_TABLE))
         "tmpq3k9xz" "`dest`" (mkConn tt [])
       = (mkConn s' [Query "RENAME TABLE tmpq3k9xz TO `dest`";
                     Query "RENAME TABLE tmpq3k9xz TO `dest`";
                     Query "RENAME TABLE tmpq3k9xz TO `dest`";
                     rename_warning "`dest`"],
          Ok tt).
Proof.
  split; [|split; [|split]].
  - apply (proj1 (rename_table_errors unit accepting_exec
                    "tmpq3k9xz" "`a;b`" (mkConn tt []))).
    reflexivity.
  - apply (proj1 (proj2 (rename_table_errors unit
                           (refusing_exec (ProgrammingError 1064))
                           "tmpq3k9xz" "`dest`" (mkConn tt [])) eq_refl)
             tt (ProgrammingError 1064)).
    + reflexivity.
    + discriminate.
  - apply (proj1 (proj2 (proj2 (rename_table_errors _ scripted_exec
                                  "tmpq3k9xz" "`dest`"
                                  (mkConn
                                     [Raise (OperationalError
                                               MYSQL_ER_TABLE_EXISTS_ERROR);
                                      Raise (OperationalError
                                               MYSQL_ER_NO_SUCH_TABLE)] []))
                           eq_refl))
             [Raise (OperationalError MYSQL_ER_NO_SUCH_TABLE)] []
             (OperationalError MYSQL_ER_NO_SUCH_TABLE)); reflexivity.
  - apply (proj2 (proj2 (proj2 (rename_table_errors unit
                                  (refusing_exec
                                     (OperationalError MYSQL_ER_NO_SUCH_TABLE))
                                  "tmpq3k9xz" "`dest`" (mkConn tt []))
                           eq_refl))).
    intros s. exists s, MYSQL_ER_NO_SUCH_TABLE. split; [reflexivity|].
    discriminate.
Defined.

(** ** The alias resolver *)

Lemma nat_of_ascii_inj (a b : ascii) :
  nat_of_ascii a = nat_of_ascii b -> a = b.
Proof.
  intros H. rewrite <- (ascii_nat_embedding a), <- (ascii_nat_embedding b).
  now rewrite H.
Qed.

Lemma prefix_cons (a b : ascii) (p s : string) :
  String.prefix (String a p) (String b s) = true
  <-> a = b /\ String.prefix p s = true.
Proof.
  cbn [String.prefix]. destruct (ascii_dec a b) as [->|Hne].
  - split; [auto | now intros [_ H]].
  - split; [discriminate | now intros [H _]].
Qed.

Lemma str_leb_cons (a b : ascii) (s t : string) :
  str_leb (String a s) (String b t) = true
  <-> (nat_of_ascii a < nat_of_ascii b)%nat \/ (a = b /\ str_leb s t = true).
Proof.
  cbn [str_leb].
  destruct (nat_of_ascii a <? nat_of_ascii b)%nat eqn:E1.
  - apply Nat.ltb_lt in E1. split; auto.
  - apply Nat.ltb_ge in E1.
    destruct (nat_of_ascii b <? nat_of_ascii a)%nat eqn:E2.
    + apply Nat.ltb_lt in E2. split; [discriminate|].
      intros [H|[-> _]]; lia.
    + apply Nat.ltb_ge in E2.
      assert (a = b) as -> by (apply nat_of_ascii_inj; lia).
      split; [auto|]. intros [H|[_ H]]; [lia | exact H].
Qed.

(** The strings with a given prefix are an interval of the order. *)
Lemma str_leb_prefix_interval (p s1 s2 : string) :
  str_leb p s1 = true -> str_leb s1 s2 = true ->
  String.prefix p s2 = true -> String.prefix p s1 = true.
Proof.
  revert s1 s2. induction p as [|a p IH]; intros s1 s2 H1 H2 H3;
    [now destruct s1|].
  destruct s2 as [|b2 s2]; [discriminate H3|].
  apply prefix_cons in H3 as [<- H3].
  destruct s1 as [|b1 s1]; [discriminate H1|].
  apply str_leb_cons in H1. apply str_leb_cons in H2.
  apply prefix_cons.
  destruct H1 as [H1|[<- H1]], H2 as [H2|[E H2]]; try lia.
  - subst b1. lia.
  - split; [reflexivity|]. now apply (IH s1 s2).
Qed.

Lemma prefix_leb (a b : string) :
  String.prefix a b = true -> str_leb a b = true.
Proof.
  revert b. induction a as [|x a IH]; intros b H; [reflexivity|].
  destruct b as [|y b]; [discriminate H|].
  apply prefix_cons in H as [<- H]. apply str_leb_cons. right. auto.
Qed.

Lemma str_leb_antisym (a b : string) :
  str_leb a b = true -> str_leb b a = true -> a = b.
Proof.
  revert b. induction a as [|x a IH]; intros b H1 H2.
  - now destruct b.
  - destruct b as [|y b]; [discriminate H1|].
    apply str_leb_cons in H1. apply str_leb_cons in H2.
    destruct H1 as [H1|[<- H1]], H2 as [H2|[E H2]]; try lia.
    + subst y. lia.
    + f_equal. now apply IH.
Qed.

Lemma prefix_length (a b : string) :
  String.prefix a b = true -> (String.length a <= String.length b)%nat.
Proof.
  revert b. induction a as [|x a IH]; intros b H; [simpl; lia|].
  destruct b as [|y b]; [discriminate H|].
  apply prefix_cons in H as [_ H]. apply IH in H. simpl. lia.
Qed.

Lemma prefix_comparable (a b s : string) :
  String.prefix a s = true -> String.prefix b s = true ->
  (String.length a <= String.length b)%nat -> String.prefix a b = true.
Proof.
  revert b s. induction a as [|x a IH]; intros b s Ha Hb Hlen;
    [now destruct b|].
  destruct s as [|z s]; [discriminate Ha|].
  destruct b as [|y b]; [simpl in Hlen; lia|].
  apply prefix_cons in Ha as [-> Ha]. apply prefix_cons in Hb as [-> Hb].
  apply prefix_cons. split; [reflexivity|].
  apply (IH b s Ha Hb). simpl in Hlen. lia.
Qed.

Lemma prefix_same_length (a b : string) :
  String.prefix a b = true -> (String.length b <= String.length a)%nat ->
  a = b.
Proof.
  revert b. induction a as [|x a IH]; intros b H Hlen.
  - destruct b; [reflexivity | simpl in Hlen; lia].
  - destruct b as [|y b]; [discriminate H|].
    apply prefix_cons in H as [-> H]. f_equal. apply IH; [exact H|].
    simpl in Hlen. lia.
Qed.

Lemma prefix_drop (p s : string) :
  String.prefix p s = true -> s = p ++ PyStr.drop (String.length p) s.
Proof.
  revert s. induction p as [|x p IH]; intros s H; [reflexivity|].
  destruct s as [|y s]; [discriminate H|].
  apply prefix_cons in H as [-> H].
  change (String y p ++ PyStr.drop (String.length (String y p)) (String y s))
    with (String y (p ++ PyStr.drop (String.length p) s)).
  f_equal. now apply IH.
Qed.

Lemma drop_app (p s : string) : PyStr.drop (String.length p) (p ++ s) = s.
Proof.
  induction p as [|x p IH]; [now destruct s|]. exact IH.
Qed.

Lemma sources_ascending_split (pre : list (string * string))
    (p : string * string) (later : list (string * string)) :
  sources_ascending (pre ++ p :: later) ->
  Forall (fun q => str_leb (fst q) (fst p) = true /\ fst q <> fst p) pre
  /\ Forall (fun q => str_leb (fst p) (fst q) = true /\ fst p <> fst q) later
  /\ sources_ascending later.
Proof.
  induction pre as [|q pre IH]; cbn [app sources_ascending].
  - intros [H1 H2]. split; [constructor|]. now split.
  - intros [H1 H2]. destruct (IH H2) as (I1 & I2 & I3).
    split; [|now split]. constructor; [|exact I1].
    apply Forall_app in H1 as [_ H1].
    now apply Forall_cons_iff in H1 as [H1 _].
Qed.

(** Leaving the inner loop at the first source that does not extend
    [source] loses nothing when the sources ascend. *)
Lemma alias_valid_break (source alias : string)
    (later : list (string * string)) :
  Forall (fun q => str_leb source (fst q) = true) later ->
  sources_ascending later ->
  alias_valid source alias later
  = negb (existsb (fun q => String.prefix source (fst q)
                            && String.prefix (fst q) alias) later).
Proof.
  induction later as [|[s t] later IH]; intros Hge Hasc; [reflexivity|].
  apply Forall_cons_iff in Hge as [Hs Hge]. destruct Hasc as [Hs' Hasc].
  cbn [alias_valid existsb fst]. unfold PyStr.startswith.
  destruct (String.prefix source s) eqn:E1; cbn [negb andb orb].
  - destruct (String.prefix s alias) eqn:E2; [reflexivity|].
    now apply IH.
  - symmetry. apply negb_true_iff.
    apply not_true_is_false. intros Hex.
    apply existsb_exists in Hex as (q & Hq & Hpq).
    apply andb_true_iff in Hpq as [Hpq _].
    rewrite List.Forall_forall in Hs'.
    destruct (Hs' q Hq) as [Hsq _]. cbn [fst] in Hsq, Hs.
    rewrite (str_leb_prefix_interval source s (fst q) Hs Hsq Hpq) in E1.
    discriminate E1.
Qed.

(** An alias is valid exactly when [source] is the longest of the sources
    that are a prefix of it. *)
Lemma alias_valid_longest (pre : list (string * string))
    (source target : string) (later : list (string * string))
    (alias : string) :
  sources_ascending (pre ++ (source, target) :: later) ->
  String.prefix source alias = true ->
  alias_valid source alias later = true
  <-> (forall s t, In (s, t) (pre ++ (source, target) :: later) ->
                   PyStr.startswith alias s = true ->
                   (String.length s <= String.length source)%nat).
Proof.
  intros Hasc Hsrc.
  apply sources_ascending_split in Hasc as (Hpre & Hlater & Hasc).
  cbn [fst] in Hpre, Hlater.
  rewrite alias_valid_break; [|eapply Forall_impl; [exact Hlater|];
                               now intros q [H _] | exact Hasc].
  rewrite List.Forall_forall in Hpre, Hlater.
  unfold PyStr.startswith. split.
  - intros Hno s t Hin Hs. apply negb_true_iff in Hno.
    destruct (le_lt_dec (String.length s) (String.length source))
      as [Hle|Hgt]; [exact Hle|exfalso].
    assert (Hext : String.prefix source s = true)
      by (apply (prefix_comparable source s alias Hsrc Hs); lia).
    apply in_app_iff in Hin as [Hin|[[= <- <-]|Hin]].
    + destruct (Hpre _ Hin) as [Hle Hne]. cbn [fst] in Hle, Hne.
      apply Hne. apply str_leb_antisym; [exact Hle|].
      now apply prefix_leb.
    + lia.
    + assert (Hex : existsb (fun q => String.prefix source (fst q)
                                      && String.prefix (fst q) alias) later
                    = true).
      { apply existsb_exists. exists (s, t). split; [exact Hin|].
        cbn [fst]. now rewrite Hext, Hs. }
      congruence.
  - intros Hlong. apply negb_true_iff. apply not_true_is_false. intros Hex.
    apply existsb_exists in Hex as ([s t] & Hin & Hq). cbn [fst] in Hq.
    apply andb_true_iff in Hq as [H1 H2].
    destruct (Hlater _ Hin) as [_ Hne]. cbn [fst] in Hne. apply Hne.
    apply prefix_same_length; [exact H1|].
    apply (Hlong s t); [|exact H2].
    apply in_app_iff. right. now right.
Qed.

(** One pass over the mappings finds the names from which one
    substitution leads to [name]. *)
Lemma reverse_substitutions_substitutes (pre later : list (string * string))
    (name alias : string) :
  sources_ascending (pre ++ later) ->
  In alias (reverse_substitutions name later)
  <-> (exists source target rest,
          In (source, target) later
          /\ alias = source ++ rest
          /\ name = target ++ rest
          /\ forall s t, In (s, t) (pre ++ later) ->
                         PyStr.startswith alias s = true ->
                         (String.length s <= String.length source)%nat).
Proof.
  revert pre. induction later as [|[source target] later IH]; intros pre Hasc.
  - split; [intros [] | intros (s & t & r & [] & _)].
  - cbn [reverse_substitutions]. rewrite in_app_iff.
    assert (Hasc' : sources_ascending ((pre ++ [(source, target)]) ++ later))
      by now rewrite <- app_assoc.
    specialize (IH (pre ++ [(source, target)])%list Hasc').
    rewrite <- app_assoc in IH. cbn [app] in IH.
    rewrite IH. clear IH. unfold PyStr.startswith at 1. split.
    + intros [H|(s & t & r & Hin & Ha & Hn & Hl)].
      * destruct (String.prefix target name) eqn:Et; [|destruct H].
        destruct (alias_valid source _ later) eqn:Ev; [|destruct H].
        destruct H as [<-|[]].
        exists source, target, (PyStr.drop (String.length target) name).
        split; [now left|]. split; [reflexivity|].
        split; [now apply prefix_drop|].
        apply (alias_valid_longest pre source target later); auto.
        apply prefix_app.
      * exists s, t, r. split; [now right|]. auto.
    + intros (s & t & r & [[= <- <-]|Hin] & Ha & Hn & Hl).
      * left. subst name alias. rewrite prefix_app, drop_app.
        replace (alias_valid source (source ++ r) later) with true;
          [now left|].
        symmetry. apply (alias_valid_longest pre source target later); auto.
        apply prefix_app.
      * right. exists s, t, r. auto.
Qed.

(** X15. For an alias map in ascending order of its sources (as
    [sorted(aliasMap.items())] gives it), the validity test of
    [aliases_for], which stops at the first later source that does not
    extend [source], accepts an alias exactly when [source] is the longest
    source that is a prefix of the alias; and so one pass over the mappings
    yields exactly the names that one substitution of the alias map
    (longest matching prefix replaced by its target) turns into [name]. *)
Theorem reverse_substitutions_longest_prefix
    (mappings : list (string * string)) :
  sources_ascending mappings ->
  (forall pre source target later alias,
      mappings = (pre ++ (source, target) :: later)%list ->
      PyStr.startswith alias source = true ->
      alias_valid source alias later = true
      <-> (forall s t, In (s, t) mappings ->
                       PyStr.startswith alias s = true ->
                       (String.length s <= String.length source)%nat))
  /\ (forall name alias,
         In alias (reverse_substitutions name mappings)
         <-> substitutes mappings alias name).
Proof.
  intros Hasc. split.
  - intros pre source target later alias -> Hsrc.
    now apply alias_valid_longest.
  - intros name alias.
    apply (reverse_substitutions_substitutes [] mappings name alias Hasc).
Qed.

Lemma reverse_substitutions_longest_prefix_witness :
  (alias_valid "old_" "old_x" [("old_x", "new_y")] = true
   <-> (forall s t, In (s, t) two_rules ->
                    PyStr.startswith "old_x" s = true ->
                    (String.length s <= String.length "old_")%nat))
  /\ (In "old_x" (reverse_substitutions "new_y" two_rules)
      <-> substitutes two_rules "old_x" "new_y").
Proof.
  assert (Hasc : sources_ascending two_rules).
  { cbn [sources_ascending two_rules fst]. repeat constructor. discriminate. }
  destruct (reverse_substitutions_longest_prefix two_rules Hasc) as [H1 H2].
  split.
  - apply (H1 [] "old_" "new_" [("old_x", "new_y")] "old_x"); reflexivity.
  - apply H2.
Defined.

Lemma substitution_round_spec (mappings : list (string * string))
    (names : gset string) (alias : string) :
  sources_ascending mappings ->
  alias ∈ substitution_round mappings names
  <-> exists name, name ∈ names /\ substitutes mappings alias name.
Proof.
  intros Hasc. unfold substitution_round.
  rewrite elem_of_list_to_set, list_elem_of_In, in_concat. split.
  - intros (l & Hl & Ha). apply list_elem_of_In in Hl.
    apply list_elem_of_fmap in Hl as (name & -> & Hn).
    apply elem_of_elements in Hn. exists name. split; [exact Hn|].
    now apply (reverse_substitutions_substitutes [] mappings name alias Hasc).
  - intros (name & Hn & Hs).
    exists (reverse_substitutions name mappings). split.
    + apply list_elem_of_In, list_elem_of_fmap. exists name.
      split; [reflexivity|]. now apply elem_of_elements.
    + now apply (reverse_substitutions_substitutes [] mappings name alias Hasc).
Qed.

Lemma substitution_round_empty (mappings : list (string * string)) (k : nat) :
  Nat.iter k (substitution_round mappings) ∅ = ∅.
Proof.
  induction k as [|k IH]; [reflexivity|].
  rewrite Nat.iter_succ, IH. unfold substitution_round.
  now rewrite elements_empty.
Qed.

Lemma iter_round_resolves (mappings : list (string * string)) (k : nat)
    (name alias : string) :
  sources_ascending mappings ->
  alias ∈ Nat.iter k (substitution_round mappings) {[ name ]}
  <-> resolves_in k mappings alias name.
Proof.
  intros Hasc. revert alias. induction k as [|k IH]; intros alias.
  - cbn [resolves_in]. apply elem_of_singleton.
  - cbn [resolves_in].
    rewrite Nat.iter_succ, (substitution_round_spec _ _ _ Hasc). split.
    + intros (mid & Hm & Hs). exists mid. split; [exact Hs|]. now apply IH.
    + intros (mid & Hs & Hm). exists mid. split; [|exact Hs]. now apply IH.
Qed.

(** The loop of [aliases_for] collects the names of its rounds; leaving
    it when [names] has become empty loses nothing. *)
Lemma aliases_loop_spec (mappings : list (string * string)) (rounds : nat)
    (aliases names : gset string) (alias : string) :
  alias ∈ aliases_loop rounds mappings aliases names
  <-> alias ∈ aliases
      \/ exists k, (1 <= k <= rounds)%nat
                   /\ alias ∈ Nat.iter k (substitution_round mappings) names.
Proof.
  revert aliases names. induction rounds as [|rounds IH]; intros aliases names.
  - cbn [aliases_loop]. split; [auto|]. intros [H|(k & Hk & _)]; [exact H|lia].
  - cbn [aliases_loop]. destruct (decide (0 < size names)%nat) as [Hpos|Hzero].
    + rewrite IH, elem_of_union. split.
      * intros [[H|H]|(k & Hk & H)]; [now left| |].
        -- right. exists 1%nat. split; [lia | exact H].
        -- right. exists (S k). split; [lia|]. now rewrite Nat.iter_succ_r.
      * intros [H|(k & Hk & H)]; [left; now left|].
        destruct k as [|[|k]]; [lia| |].
        -- left. now right.
        -- right. exists (S k). split; [lia|].
           now rewrite Nat.iter_succ_r in H.
    + assert (names = ∅) as ->
        by (apply leibniz_equiv, size_empty_iff; lia).
      split; [auto|]. intros [H|(k & _ & H)]; [exact H|].
      rewrite substitution_round_empty in H. now apply elem_of_empty in H.
Qed.

(** X16. For an alias map in ascending order of its sources,
    [aliases_for] returns exactly the names from which [name] is reached by
    at least one and at most [len(mappings)] substitutions of the alias
    map, each replacing the longest matching prefix by its target. *)
Theorem aliases_for_resolves (mappings : list (string * string))
    (name alias : string) :
  sources_ascending mappings ->
  alias ∈ aliases_for name mappings
  <-> exists k, (1 <= k <= length mappings)%nat
                /\ resolves_in k mappings alias name.
Proof.
  intros Hasc. unfold aliases_for. rewrite aliases_loop_spec. split.
  - intros [H|(k & Hk & H)]; [now apply elem_of_empty in H|].
    exists k. split; [exact Hk|]. now apply iter_round_resolves.
  - intros (k & Hk & H). right. exists k. split; [exact Hk|].
    now apply iter_round_resolves.
Qed.

Lemma aliases_for_resolves_witness :
  "a_x" ∈ aliases_for "d_x" three_rules
  <-> exists k, (1 <= k <= 3)%nat /\ resolves_in k three_rules "a_x" "d_x".
Proof.
  apply (aliases_for_resolves three_rules "d_x" "a_x").
  cbn [sources_ascending three_rules fst].
  repeat constructor; discriminate.
Defined.

(** ** The mappings that [_create_view] passes to the resolver *)

Lemma str_leb_refl (a : string) : str_leb a a = true.
Proof. apply prefix_leb, prefix_refl. Qed.

Lemma str_leb_total (a b : string) :
  str_leb a b = false -> str_leb b a = true.
Proof.
  revert b. induction a as [|x a IH]; intros b H; [discriminate H|].
  destruct b as [|y b]; [reflexivity|].
  apply str_leb_cons. cbn [str_leb] in H.
  destruct (nat_of_ascii x <? nat_of_ascii y)%nat eqn:E1; [discriminate H|].
  apply Nat.ltb_ge in E1.
  destruct (nat_of_ascii y <? nat_of_ascii x)%nat eqn:E2.
  - apply Nat.ltb_lt in E2. now left.
  - apply Nat.ltb_ge in E2. right.
    split; [apply nat_of_ascii_inj; lia | now apply IH].
Qed.

Lemma str_leb_trans (a b c : string) :
  str_leb a b = true -> str_leb b c = true -> str_leb a c = true.
Proof.
  revert b c. induction a as [|x a IH]; intros b c H1 H2; [reflexivity|].
  destruct b as [|y b]; [discriminate H1|].
  destruct c as [|z c]; [discriminate H2|].
  apply str_leb_cons in H1. apply str_leb_cons in H2. apply str_leb_cons.
  destruct H1 as [H1|[-> H1]], H2 as [H2|[-> H2]].
  - left. lia.
  - now left.
  - now left.
  - right. split; [reflexivity|]. now apply (IH b c).
Qed.

Lemma pair_leb_total (p q : string * string) :
  pair_leb p q = false -> pair_leb q p = true.
Proof.
  unfold pair_leb. rewrite (String.eqb_sym (fst q) (fst p)).
  destruct (String.eqb (fst p) (fst q)); apply str_leb_total.
Qed.

Lemma pair_leb_trans (p q r : string * string) :
  pair_leb p q = true -> pair_leb q r = true -> pair_leb p r = true.
Proof.
  unfold pair_leb.
  destruct (String.eqb_spec (fst p) (fst q)) as [E1|E1];
    destruct (String.eqb_spec (fst q) (fst r)) as [E2|E2];
    destruct (String.eqb_spec (fst p) (fst r)) as [E3|E3];
    intros H1 H2; try congruence;
    first [ now apply (str_leb_trans _ (snd q))
          | now apply (str_leb_trans _ (fst q))
          | exfalso; apply E1; apply str_leb_antisym;
            [exact H1 | now rewrite E3] ].
Qed.

Lemma insert_sorted_In {A} (leb : A -> A -> bool) (x y : A) (l : list A) :
  In y (insert_sorted leb x l) <-> y = x \/ In y l.
Proof.
  induction l as [|z l IH]; cbn [insert_sorted].
  - simpl. intuition.
  - destruct (leb x z); simpl in *; intuition.
Qed.

Lemma sorted_In {A} (leb : A -> A -> bool) (y : A) (l : list A) :
  In y (sorted leb l) <-> In y l.
Proof.
  unfold sorted. induction l as [|x l IH]; [reflexivity|].
  cbn [foldr]. rewrite insert_sorted_In, IH. simpl. intuition.
Qed.

Lemma insert_sorted_length {A} (leb : A -> A -> bool) (x : A) (l : list A) :
  length (insert_sorted leb x l) = S (length l).
Proof.
  induction l as [|z l IH]; [reflexivity|]. cbn [insert_sorted].
  destruct (leb x z); simpl; now rewrite ?IH.
Qed.

Lemma sorted_length {A} (leb : A -> A -> bool) (l : list A) :
  length (sorted leb l) = length l.
Proof.
  unfold sorted. induction l as [|x l IH]; [reflexivity|].
  cbn [foldr]. rewrite insert_sorted_length. simpl. now rewrite IH.
Qed.

Lemma insert_sorted_ascending {A} (leb : A -> A -> bool) (x : A)
    (l : list A) :
  (forall a b, leb a b = false -> leb b a = true) ->
  (forall a b c, leb a b = true -> leb b c = true -> leb a c = true) ->
  ascending leb l -> ascending leb (insert_sorted leb x l).
Proof.
  intros Htotal Htrans. induction l as [|z l IH]; intros Hasc.
  - simpl. split; [constructor | exact I].
  - cbn [insert_sorted]. destruct (leb x z) eqn:E.
    + split; [|exact Hasc]. destruct Hasc as [Hz _].
      constructor; [exact E|].
      eapply Forall_impl; [exact Hz|]. intros y Hy. now apply (Htrans x z y).
    + destruct Hasc as [Hz Hasc]. split; [|now apply IH].
      apply List.Forall_forall. intros y Hy.
      apply insert_sorted_In in Hy as [->|Hy]; [now apply Htotal|].
      rewrite List.Forall_forall in Hz. now apply Hz.
Qed.

Lemma sorted_ascending {A} (leb : A -> A -> bool) (l : list A) :
  (forall a b, leb a b = false -> leb b a = true) ->
  (forall a b c, leb a b = true -> leb b c = true -> leb a c = true) ->
  ascending leb (sorted leb l).
Proof.
  intros Htotal Htrans. unfold sorted.
  induction l as [|x l IH]; [exact I|].
  cbn [foldr]. now apply insert_sorted_ascending.
Qed.

Lemma insert_sorted_NoDup_fst (leb : string * string -> string * string -> bool)
    (x : string * string) (l : list (string * string)) :
  ~ In (fst x) (List.map fst l) -> List.NoDup (List.map fst l) ->
  List.NoDup (List.map fst (insert_sorted leb x l)).
Proof.
  induction l as [|z l IH]; intros Hx Hnd.
  - simpl. constructor; [intros [] | constructor].
  - cbn [insert_sorted]. destruct (leb x z).
    + cbn [List.map]. constructor; [exact Hx | exact Hnd].
    + cbn [List.map] in *. inversion_clear Hnd as [|? ? Hz Hnd'].
      constructor.
      * intros Hin. apply in_map_iff in Hin as (y & Hy & Hin).
        apply insert_sorted_In in Hin as [->|Hin].
        -- apply Hx. left. now symmetry.
        -- apply Hz. apply in_map_iff. now exists y.
      * apply IH; [|exact Hnd']. intros Hin. apply Hx. now right.
Qed.

Lemma sorted_NoDup_fst (leb : string * string -> string * string -> bool)
    (l : list (string * string)) :
  List.NoDup (List.map fst l) -> List.NoDup (List.map fst (sorted leb l)).
Proof.
  unfold sorted. induction l as [|x l IH]; intros Hnd; [exact Hnd|].
  cbn [foldr List.map] in *. inversion_clear Hnd as [|? ? Hx Hnd'].
  apply insert_sorted_NoDup_fst; [|now apply IH].
  intros Hin. apply Hx. apply in_map_iff in Hin as (y & Hy & Hin).
  apply sorted_In in Hin. apply in_map_iff. now exists y.
Qed.

Lemma ascending_sources (l : list (string * string)) :
  ascending pair_leb l -> List.NoDup (List.map fst l) -> sources_ascending l.
Proof.
  induction l as [|p l IH]; intros Hasc Hnd; [exact I|].
  destruct Hasc as [Hp Hasc]. cbn [List.map] in Hnd.
  inversion_clear Hnd as [|? ? Hx Hnd'].
  split; [|now apply IH].
  apply List.Forall_forall. intros q Hq.
  rewrite List.Forall_forall in Hp. specialize (Hp q Hq).
  assert (Hne : fst p <> fst q).
  { intros E. apply Hx. rewrite E. apply in_map_iff. now exists q. }
  split; [|exact Hne]. unfold pair_leb in Hp.
  apply String.eqb_neq in Hne. now rewrite Hne in Hp.
Qed.

Lemma view_mappings_ascending (aliasMap : gmap string string) :
  sources_ascending (view_mappings aliasMap)
  /\ (forall s t, In (s, t) (view_mappings aliasMap) <-> aliasMap !! s = Some t)
  /\ length (view_mappings aliasMap) = size aliasMap.
Proof.
  unfold view_mappings. split; [|split].
  - apply ascending_sources.
    + apply sorted_ascending; [apply pair_leb_total | apply pair_leb_trans].
    + apply sorted_NoDup_fst.
      pose proof (NoDup_fst_map_to_list aliasMap) as H.
      apply NoDup_ListNoDup in H.
      replace (List.map fst (map_to_list aliasMap))
        with ((map_to_list aliasMap).*1); [exact H|].
      induction (map_to_list aliasMap) as [|x l IH]; [reflexivity|].
      change (fst x :: l.*1 = fst x :: List.map fst l). now f_equal.
  - intros s t. rewrite sorted_In, <- list_elem_of_In.
    apply elem_of_map_to_list.
  - rewrite sorted_length. apply length_map_to_list.
Qed.

(** X17. The mappings that [_create_view] hands to [aliases_for],
    [sorted(aliasMap.items())], are the entries of the alias map in
    ascending order of their sources, none twice; so for every alias map
    the aliases computed for a field are exactly the names from which the
    field name is reached by between one and [len(aliasMap)] substitutions
    of the longest matching prefix. *)
Theorem create_view_aliases (aliasMap : gmap string string)
    (name alias : string) :
  sources_ascending (view_mappings aliasMap)
  /\ (forall s t, In (s, t) (view_mappings aliasMap)
                  <-> aliasMap !! s = Some t)
  /\ (alias ∈ aliases_for name (view_mappings aliasMap)
      <-> exists k, (1 <= k <= size aliasMap)%nat
                    /\ resolves_in k (view_mappings aliasMap) alias name).
Proof.
  destruct (view_mappings_ascending aliasMap) as (Hasc & Hin & Hlen).
  split; [exact Hasc|]. split; [exact Hin|].
  unfold aliases_for. rewrite aliases_loop_spec, Hlen. split.
  - intros [H|(k & Hk & H)]; [now apply elem_of_empty in H|].
    exists k. split; [exact Hk|]. now apply iter_round_resolves.
  - intros (k & Hk & H). right. exists k. split; [exact Hk|].
    now apply iter_round_resolves.
Qed.

(** ** The order of events in [_ingest] *)

Section Emits.

Variable ServerState : Type.
Variable server_exec :
  ServerState -> string -> ServerState * res (list (list string)).
Variable P : event -> bool.

Lemma emits_ret {A} (Q : A -> Prop) (a : A) :
  Q a -> emits (ServerState := ServerState) P Q (ret a).
Proof.
  intros Ha c. exists []. cbn [ret fst snd]. rewrite app_nil_r.
  split; [reflexivity|]. split; [reflexivity|]. now intros ? [= <-].
Qed.

Lemma emits_raise {A} (Q : A -> Prop) (e : exn) :
  emits (ServerState := ServerState) P Q (raise e).
Proof.
  intros c. exists []. cbn [raise fst snd]. rewrite app_nil_r.
  split; [reflexivity|]. split; [reflexivity|]. discriminate.
Qed.

Lemma emits_lift {A} (Q : A -> Prop) (r : res A) :
  (forall a, r = Ok a -> Q a) ->
  emits (ServerState := ServerState) P Q (lift r).
Proof.
  intros Hr c. exists []. cbn [lift fst snd]. rewrite app_nil_r.
  split; [reflexivity|]. split; [reflexivity | exact Hr].
Qed.

Lemma emits_emit (Q : unit -> Prop) (ev : event) :
  P ev = true -> Q tt -> emits (ServerState := ServerState) P Q (emit ev).
Proof.
  intros Hev Hq c. exists [ev]. cbn [emit fst snd trace forallb].
  rewrite Hev. split; [reflexivity|]. split; [reflexivity|].
  now intros [] _.
Qed.

Lemma emits_execute (Q : list (list string) -> Prop) (sql : string) :
  P (Query sql) = true -> (forall rows, Q rows) ->
  emits P Q (execute server_exec sql).
Proof.
  intros Hev Hq c. exists [Query sql]. unfold execute.
  destruct (server_exec (server c) sql) as [s1 r].
  cbn [fst snd trace forallb]. rewrite Hev.
  split; [reflexivity|]. split; [reflexivity|]. intros rows _. apply Hq.
Qed.

Lemma emits_bind {A B} (Q : A -> Prop) (R : B -> Prop)
    (m : M ServerState A) (k : A -> M ServerState B) :
  emits P Q m -> (forall a, Q a -> emits P R (k a)) -> emits P R (bind m k).
Proof.
  intros Hm Hk c. rewrite bind_run.
  destruct (Hm c) as (new1 & Ht1 & Hp1 & Hq1).
  destruct (m c) as [c1 [a|e]]; cbn [fst snd] in *.
  - destruct (Hk a (Hq1 a eq_refl) c1) as (new2 & Ht2 & Hp2 & Hq2).
    exists (new1 ++ new2)%list. rewrite Ht2, Ht1, <- app_assoc.
    split; [reflexivity|]. split; [|exact Hq2].
    now rewrite forallb_app, Hp1, Hp2.
  - exists new1. split; [exact Ht1|]. split; [exact Hp1 | discriminate].
Qed.

Lemma emits_weaken {A} (Q Q' : A -> Prop) (m : M ServerState A) :
  emits P Q m -> (forall a, Q a -> Q' a) -> emits P Q' m.
Proof.
  intros Hm Hq c. destruct (Hm c) as (new & Ht & Hp & Ha).
  exists new. split; [exact Ht|]. split; [exact Hp|]. auto.
Qed.

Lemma emits_foldM {A B} (I : B -> Prop) (f : B -> A -> M ServerState B)
    (l : list A) (b : B) :
  I b -> (forall b a, I b -> emits P I (f b a)) -> emits P I (foldM f l b).
Proof.
  intros Hb Hf. revert b Hb. induction l as [|a l IH]; intros b Hb.
  - now apply emits_ret.
  - cbn [foldM]. apply (emits_bind I); [now apply Hf|]. exact IH.
Qed.

Hypothesis P_log : forall ev, is_log ev = true -> P ev = true.

Lemma emits_execute_sql (Q : unit -> Prop) (sql : string) :
  P (Query sql) = true -> Q tt -> emits P Q (_execute_sql server_exec sql).
Proof.
  intros Hev Hq. unfold _execute_sql.
  apply (emits_bind (fun _ => True)).
  - apply emits_emit; [now apply P_log | exact I].
  - intros _ _. apply (emits_bind (fun _ => True)).
    + now apply emits_execute.
    + intros _ _. now apply emits_ret.
Qed.

Lemma emits_schema_items (config : IngestCatalogConfig) (sch : Schema) :
  emits (ServerState := ServerState) P (fun _ => True)
    (_schema_items config sch).
Proof.
  intros c. destruct (schema_items_warn ServerState config sch c)
    as (ws & -> & Hw).
  exists ws. cbn [fst snd trace]. split; [reflexivity|]. split; [|auto].
  apply forallb_forall. intros ev Hev. apply P_log.
  now apply (proj1 (forallb_forall _ _) Hw).
Qed.

Hypothesis P_create :
  forall sql, String.prefix "C" sql = true -> P (Query sql) = true.
Hypothesis P_select :
  forall sql, String.prefix "S" sql = true -> P (Query sql) = true.

Lemma emits_create_table (config : IngestCatalogConfig)
    (tableName : string) (sch : Schema) :
  emits P (fun temp => temp = tableName)
    (_create_table server_exec config tableName sch).
Proof.
  unfold _create_table.
  apply (emits_bind (fun _ => True)); [apply emits_schema_items|].
  intros its _. destruct (negb _); [apply emits_raise|].
  apply (emits_bind (fun _ => True)); [now apply emits_lift|].
  intros defs _.
  apply (emits_bind (fun sql => String.prefix "C" sql = true)).
  - assert (H0 : forall x y, String.prefix "C" (("CREATE TABLE " ++ x) ++ y)
                             = true).
    { intros x y. apply prefix_extend. reflexivity. }
    assert (H1 : String.prefix "C"
                   (if negb (String.eqb (extra_columns config) "")
                    then (("CREATE TABLE " ++ tableName ++ " (" ++ nl ++ tab)
                          ++ PyStr.join ("," ++ nl ++ tab) defs)
                         ++ "," ++ nl ++ tab ++ extra_columns config
                    else ("CREATE TABLE " ++ tableName ++ " (" ++ nl ++ tab)
                         ++ PyStr.join ("," ++ nl ++ tab) defs) = true).
    { destruct (negb _); [apply prefix_extend|]; apply H0. }
    destruct (id_field_name config) as [id|]; [|now apply emits_ret].
    destruct (String.eqb id ""); [now apply emits_ret|].
    destruct (existsb _ _).
    + apply emits_ret. now apply prefix_extend.
    + apply (emits_bind (fun _ => True)).
      * apply emits_emit; [now apply P_log | exact I].
      * intros _ _. now apply emits_ret.
  - intros sql Hsql. apply (emits_bind (fun _ => True)).
    + apply emits_execute_sql; [|exact I].
      apply P_create. now apply prefix_extend.
    + intros _ _. now apply emits_ret.
Qed.

Lemma emits_create_view (config : IngestCatalogConfig)
    (table_name view_name : string) (sch : Schema) :
  emits P (fun _ => True)
    (_create_view server_exec config table_name view_name sch).
Proof.
  unfold _create_view.
  apply (emits_bind (fun _ => True)).
  { apply emits_execute; [|auto]. apply P_select. reflexivity. }
  intros shown _.
  apply (emits_bind (fun _ => True)); [now apply emits_lift|].
  intros column_names _.
  apply (emits_bind (fun sql => String.prefix "C" sql = true)).
  - apply emits_foldM.
    + apply prefix_extend. reflexivity.
    + intros sql item Hsql.
      destruct (schema_item_skipped config item) as [w|] eqn:E.
      * apply (emits_bind (fun _ => True)).
        -- apply emits_emit; [|exact I]. apply P_log.
           unfold schema_item_skipped in E.
           destruct (field_formatters !! _).
           ++ destruct (_ <? _)%Z; [now injection E as <- | discriminate].
           ++ now injection E as <-.
        -- intros _ _. now apply emits_ret.
      * unfold view_aliases. apply emits_foldM; [exact Hsql|].
        intros sql' a Hsql'. destruct (_ <? _)%Z.
        -- apply (emits_bind (fun _ => True)).
           ++ apply emits_emit; [now apply P_log | exact I].
           ++ intros _ _. now apply emits_ret.
        -- apply emits_ret. now apply prefix_extend.
  - intros sql Hsql. apply emits_execute_sql; [|exact I].
    apply P_create. now do 2 apply prefix_extend.
Qed.

Lemma emits_ingest_loop (keys : list (nat * FieldFormatter))
    (sql_prefix : string) (B : Z) (fuel : nat) (remaining : list Row) :
  (forall sql, String.prefix sql_prefix sql = true -> P (Query sql) = true) ->
  emits P (fun _ => True)
    (ingest_loop server_exec fuel keys sql_prefix B remaining).
Proof.
  intros Hq. revert remaining.
  induction fuel as [|fuel IH]; intros remaining.
  - destruct remaining; [now apply emits_ret | apply emits_raise].
  - destruct remaining as [|row rest0]; [now apply emits_ret|].
    cbn [ingest_loop].
    apply (emits_bind
             (fun filled =>
                fill_statement keys (row :: rest0) sql_prefix
                  (B - len sql_prefix) = Ok filled)).
    { now apply emits_lift. }
    intros [sql rest] Hfill.
    destruct (length rest =? length (row :: rest0))%nat eqn:Eprog;
      [apply emits_raise|].
    apply Nat.eqb_neq in Eprog.
    apply fill_statement_bound in Hfill as (lits & -> & Hl).
    destruct Hl as [[-> _]|Hl]; [congruence|].
    destruct (statement_shape sql_prefix lits B Hl) as [Hpre _].
    apply (emits_bind (fun _ => True)).
    + apply emits_execute_sql; [|exact I]. now apply Hq.
    + intros _ _. apply IH.
Qed.

End Emits.

Lemma not_rename (p sql : string) :
  String.prefix p sql = true -> String.prefix p "RENAME TABLE " = false ->
  (String.length p <= 13)%nat -> staging_event (Query sql) = true.
Proof.
  intros Hp Hr Hlen. unfold staging_event, PyStr.startswith.
  destruct (String.prefix "RENAME TABLE " sql) eqn:E; [|reflexivity].
  rewrite (prefix_comparable p "RENAME TABLE " sql Hp E Hlen) in Hr.
  discriminate Hr.
Qed.

Lemma staging_log (ev : event) : is_log ev = true -> staging_event ev = true.
Proof. now destruct ev. Qed.

Lemma prefix_trans (a b c : string) :
  String.prefix a b = true -> String.prefix b c = true ->
  String.prefix a c = true.
Proof.
  revert b c. induction a as [|x a IH]; intros b c H1 H2; [now destruct c|].
  destruct b as [|y b]; [discriminate H1|].
  destruct c as [|z c]; [discriminate H2|].
  apply prefix_cons in H1 as [-> H1]. apply prefix_cons in H2 as [-> H2].
  apply prefix_cons. split; [reflexivity|]. now apply (IH b c).
Qed.

Lemma ingest_prefix_keyword (config : IngestCatalogConfig)
    (table_name : string) (its : list SchemaItem) :
  String.prefix (if allow_replace config then "REP" else "INS")
    (ingest_prefix config table_name its) = true.
Proof.
  unfold ingest_prefix. do 2 apply prefix_extend.
  now destruct (allow_replace config).
Qed.

Lemma quote_keeps_semicolon (identifier : string) :
  PyStr.contains_char ";" (quote_mysql_identifier identifier)
  = PyStr.contains_char ";" identifier.
Proof.
  unfold quote_mysql_identifier.
  change (PyStr.contains_char ";"
            (PyStr.replace_char "`" "``" identifier ++ "`")
          = PyStr.contains_char ";" identifier).
  induction identifier as [|c s IH]; [reflexivity|].
  cbn [PyStr.replace_char].
  destruct (Ascii.eqb c "`") eqn:E.
  - apply Ascii.eqb_eq in E. subst c.
    change (PyStr.contains_char ";" (PyStr.replace_char "`" "``" s ++ "`")
            = PyStr.contains_char ";" s).
    exact IH.
  - rewrite str_cons_app. cbn [PyStr.contains_char]. now rewrite IH.
Qed.

Section Protocol.

Variable ServerState : Type.
Variable server_exec :
  ServerState -> string -> ServerState * res (list (list string)).
Variable config : IngestCatalogConfig.

(** Staging in front of a run that follows the protocol. *)
Lemma follows_protocol_bind {A B} (from_name to_name : string)
    (unclean : bool) (Q : A -> Prop)
    (m : M ServerState A) (k : A -> M ServerState B) :
  emits staging_event Q m ->
  (forall a, Q a -> follows_protocol from_name to_name unclean (k a)) ->
  follows_protocol from_name to_name unclean (bind m k).
Proof.
  intros Hm Hk c. rewrite bind_run.
  destruct (Hm c) as (new1 & Ht1 & Hp1 & Hq1).
  destruct (m c) as [c1 [a|e]]; cbn [fst snd] in *.
  - destruct (Hk a (Hq1 a eq_refl) c1) as (st & pb & Ht & Hs & Hp & Hok & Hu).
    exists (new1 ++ st)%list, pb. rewrite Ht, Ht1, <- !app_assoc.
    split; [reflexivity|]. split; [now rewrite forallb_app, Hp1, Hs|].
    auto.
  - exists new1, []. rewrite app_nil_r.
    split; [exact Ht1|]. split; [exact Hp1|]. split; [now left|].
    split; [discriminate|]. intros _. left. split; [reflexivity|].
    now exists e.
Qed.

Lemma do_ingest_then_rename (cat : Catalog) (tempTableName table_name : string)
    (B : Z) :
  follows_protocol tempTableName table_name
    (PyStr.contains_char ";" table_name)
    (bind (_do_ingest server_exec config cat tempTableName B)
       (fun _ => _rename_table server_exec tempTableName table_name)).
Proof.
  intros c. rewrite bind_run. unfold _do_ingest.
  assert (Hstage :
            emits staging_event (fun _ => True)
              (bind (_schema_items config (schema cat))
                 (fun its =>
                    bind (lift (ingest_keys its))
                      (fun keys =>
                         ingest_loop server_exec (length (rows cat)) keys
                           (ingest_prefix config tempTableName its) B
                           (rows cat))))).
  { apply (emits_bind _ _ (fun _ => True)).
    - apply emits_schema_items. exact staging_log.
    - intros its _. apply (emits_bind _ _ (fun _ => True)).
      + now apply emits_lift.
      + intros keys _. apply emits_ingest_loop; [exact staging_log|].
        intros sql Hsql.
        pose proof (ingest_prefix_keyword config tempTableName its) as Hkw.
        pose proof (prefix_trans _ _ _ Hkw Hsql) as Hk.
        destruct (allow_replace config);
          (apply (not_rename _ _ Hk); [reflexivity | simpl; lia]). }
  destruct (Hstage c) as (st & Ht & Hp & _).
  assert (Hrun :
            bind (_schema_items config (schema cat))
              (fun its =>
                 bind (lift (ingest_keys its))
                   (fun keys =>
                      bind (ingest_loop server_exec (length (rows cat)) keys
                              (ingest_prefix config tempTableName its) B
                              (rows cat))
                        (fun _ => emit Commit))) c
            = match bind (_schema_items config (schema cat))
                      (fun its =>
                         bind (lift (ingest_keys its))
                           (fun keys =>
                              ingest_loop server_exec (length (rows cat)) keys
                                (ingest_prefix config tempTableName its) B
                                (rows cat))) c with
              | (c1, Ok _) => emit Commit c1
              | (c1, Raise e) => (c1, Raise e)
              end).
  { rewrite !bind_run.
    destruct (_schema_items config (schema cat) c) as [c0 [its|e]];
      [|reflexivity].
    rewrite !bind_lift.
    destruct (ingest_keys its) as [keys|e]; [|reflexivity].
    rewrite bind_run. reflexivity. }
  rewrite Hrun. clear Hrun.
  destruct (bind (_schema_items config (schema cat)) _ c) as [c1 [[]|e]];
    cbn [fst snd] in Ht.
  - unfold emit at 1. cbv iota beta.
    destruct (rename_loop_bounded ServerState server_exec tempTableName
                table_name num_tries (mkConn (server c1) (trace c1 ++ [Commit])%list))
      as (new & Hn & _ & _ & Hsql & Hq).
    assert (Hpub : Forall (publishing_event tempTableName table_name) new).
    { clear Hn. induction new as [|ev new IH]; [constructor|].
      apply Forall_cons_iff in Hq as [Hev Hq].
      destruct ev; try discriminate Hev. cbn [queries omap list_omap] in Hsql.
      apply Forall_cons_iff in Hsql as [Hs Hsql].
      constructor; [|now apply IH].
      destruct Hs as [-> | ->]; [now left | right; now left]. }
    unfold _rename_table, _testSqlIsClean. rewrite bind_lift.
    destruct (PyStr.contains_char ";" tempTableName) eqn:Etemp.
    { exists st, [Commit]. cbn [fst snd trace]. rewrite Ht, <- app_assoc.
      split; [reflexivity|]. split; [exact Hp|].
      split; [right; exists []; now split|]. split; [discriminate|].
      intros _. right. now split. }
    rewrite bind_lift.
    destruct (PyStr.contains_char ";" table_name) eqn:Eto.
    { exists st, [Commit]. cbn [fst snd trace]. rewrite Ht, <- app_assoc.
      split; [reflexivity|]. split; [exact Hp|].
      split; [right; exists []; now split|]. split; [discriminate|].
      intros _. right. now split. }
    rewrite bind_run.
    destruct (rename_loop server_exec num_tries tempTableName table_name _)
      as [c2 [[|]|e]]; cbn [fst trace] in Hn.
    + exists st, (Commit :: new). cbn [fst snd]. unfold ret.
      cbn [fst snd]. rewrite Hn, Ht, <- !app_assoc.
      split; [reflexivity|]. split; [exact Hp|].
      split; [right; now exists new|]. split; [discriminate|]. discriminate.
    + exists st, (Commit :: new ++ [rename_warning table_name])%list.
      unfold emit. cbn [fst snd trace]. rewrite Hn, Ht, <- !app_assoc.
      split; [reflexivity|]. split; [exact Hp|].
      split; [|split; discriminate].
      right. eexists. split; [reflexivity|].
      apply Forall_app. split; [exact Hpub|].
      constructor; [|constructor]. right. now right.
    + exists st, (Commit :: new). cbn [fst snd]. rewrite Hn, Ht, <- !app_assoc.
      split; [reflexivity|]. split; [exact Hp|].
      split; [right; now exists new|]. split; discriminate.
  - exists st, []. cbn [fst snd]. rewrite app_nil_r.
    split; [exact Ht|]. split; [exact Hp|]. split; [now left|].
    split; [discriminate|]. intros _. left. split; [reflexivity|].
    now exists e.
Qed.

(** X14. Whatever the server answers: a run of [_ingest] first stages
    (statements that are not a [RENAME], and log records), then commits
    at most once, and closes the connection as its last action; between
    the commit and the close, every event is the [RENAME] of the staging
    table to the quoted destination name, the [DROP] of the quoted
    destination name, or the warning that the rename did not take place;
    it returns normally only if the commit has taken place.  When the destination name holds a [;],
    it never returns normally and never sends a [RENAME]; but the name is
    checked only at the rename, so the run may get as far as the commit
    of the staged rows before the error of the statement check is
    raised. *)
Theorem ingest_protocol (tempTableName : string) (cat : Catalog)
    (table_name : string) (view_name : option string)
    (c : conn ServerState) :
  let run := _ingest server_exec config tempTableName cat table_name
               view_name c in
  exists staged published,
    trace (fst run) = (trace c ++ staged ++ published ++ [Close])%list
    /\ forallb staging_event staged = true
    /\ (published = []
        \/ exists renaming,
             published = Commit :: renaming
             /\ Forall (publishing_event tempTableName
                          (quote_mysql_identifier table_name)) renaming)
    /\ (snd run = Ok tt -> published <> [])
    /\ (PyStr.contains_char ";" table_name = true ->
        (published = [] /\ exists e, snd run = Raise e)
        \/ (published = [Commit]
            /\ snd run = Raise (RuntimeError "Illegal SQL."))).
Proof.
  intros run. unfold run, _ingest.
  assert (HC : forall sql, String.prefix "C" sql = true ->
                           staging_event (Query sql) = true).
  { intros sql H. apply (not_rename "C" sql H); [reflexivity | simpl; lia]. }
  assert (HS : forall sql, String.prefix "S" sql = true ->
                           staging_event (Query sql) = true).
  { intros sql H. apply (not_rename "S" sql H); [reflexivity | simpl; lia]. }
  set (view := match view_name with
               | Some v => if String.eqb v "" then None
                           else Some (quote_mysql_identifier v)
               | None => None
               end).
  assert (Hbody : follows_protocol tempTableName
                    (quote_mysql_identifier table_name)
                    (PyStr.contains_char ";" table_name)
                    (ingest_body server_exec config tempTableName cat
                       (quote_mysql_identifier table_name) view)).
  { unfold ingest_body.
    apply (follows_protocol_bind _ _ _ (fun _ => True)).
    { destruct (max_query_len config).
      - now apply emits_ret.
      - apply (emits_bind _ _ (fun _ => True)).
        + apply emits_execute; [|auto]. apply HS. reflexivity.
        + intros result _. apply (emits_bind _ _ (fun _ => True));
            [now apply emits_lift|].
          intros v _. now apply emits_lift. }
    intros B _. apply (follows_protocol_bind _ _ _ (fun _ => True)).
    { now apply emits_emit. }
    intros _ _.
    apply (follows_protocol_bind _ _ _ (fun temp => temp = tempTableName)).
    { apply emits_create_table; [exact staging_log | exact HC]. }
    intros temp ->. apply (follows_protocol_bind _ _ _ (fun _ => True)).
    { destruct view as [v|]; [|now apply emits_ret].
      apply emits_create_view; [exact staging_log | exact HC | exact HS]. }
    intros _ _.
    rewrite <- (quote_keeps_semicolon table_name).
    apply do_ingest_then_rename. }
  destruct (Hbody c) as (st & pb & Ht & Hs & Hp & Hok & Hu).
  destruct (ingest_body server_exec config tempTableName cat
              (quote_mysql_identifier table_name) view c) as [c' r].
  cbn [fst snd trace] in *.
  exists st, pb. rewrite Ht, <- !app_assoc.
  split; [reflexivity|]. split; [exact Hs|]. split; [exact Hp|].
  split; [intros ->; now apply (Hok tt) | exact Hu].
Qed.

End Protocol.

Lemma ingest_protocol_witness :
  exists staged,
    trace (fst (_ingest accepting_exec sample_config "tmpq3k9xz" ab_catalog
                  "a;b" None (mkConn tt [])))
    = (staged ++ [Commit; Close])%list
    /\ forallb staging_event staged = true
    /\ snd (_ingest accepting_exec sample_config "tmpq3k9xz" ab_catalog
              "a;b" None (mkConn tt []))
       = Raise (RuntimeError "Illegal SQL.")
    /\ exists staged' renaming,
         trace (fst (_ingest accepting_exec sample_config "tmpq3k9xz"
                       ab_catalog "dest" None (mkConn tt [])))
         = (staged' ++ Commit :: renaming ++ [Close])%list
         /\ forallb staging_event staged' = true
         /\ Forall (publishing_event "tmpq3k9xz"
                      (quote_mysql_identifier "dest")) renaming.
Proof.
  destruct (ingest_protocol unit accepting_exec sample_config "tmpq3k9xz"
              ab_catalog "dest" None (mkConn tt []))
    as (staged' & published' & Ht' & Hs' & Hp' & Hok' & _).
  assert (Hclean : exists renaming,
             published' = Commit :: renaming
             /\ Forall (publishing_event "tmpq3k9xz"
                          (quote_mysql_identifier "dest")) renaming).
  { destruct Hp' as [->|Hp']; [|exact Hp'].
    exfalso. now apply Hok'. }
  destruct Hclean as (renaming & -> & Hr').
  destruct (ingest_protocol unit accepting_exec sample_config "tmpq3k9xz"
              ab_catalog "a;b" None (mkConn tt []))
    as (staged & published & Ht & Hs & _ & _ & Hu).
  assert (Hsecond : exists staged' renaming,
             trace (fst (_ingest accepting_exec sample_config "tmpq3k9xz"
                           ab_catalog "dest" None (mkConn tt [])))
             = (staged' ++ Commit :: renaming ++ [Close])%list
             /\ forallb staging_event staged' = true
             /\ Forall (publishing_event "tmpq3k9xz"
                          (quote_mysql_identifier "dest")) renaming).
  { exists staged', renaming. split; [exact Ht'|]. split; [exact Hs'|].
    exact Hr'. }
  clear Ht' Hs' Hok' Hr'.
  enough (H : exists staged,
             trace (fst (_ingest accepting_exec sample_config "tmpq3k9xz"
                           ab_catalog "a;b" None (mkConn tt [])))
             = (staged ++ [Commit; Close])%list
             /\ forallb staging_event staged = true
             /\ snd (_ingest accepting_exec sample_config "tmpq3k9xz"
                       ab_catalog "a;b" None (mkConn tt []))
                = Raise (RuntimeError "Illegal SQL.")).
  { destruct H as (st & H1 & H2 & H3). exists st. auto. }
  destruct (Hu eq_refl) as [[-> _]|[-> Hr]].
  - exfalso. cbn [app] in Ht.
    assert (Hc : existsb is_commit
                   (trace (fst (_ingest accepting_exec sample_config
                                  "tmpq3k9xz" ab_catalog "a;b" None
                                  (mkConn tt [])))) = true)
      by reflexivity.
    rewrite Ht in Hc. cbn [trace app] in Hc. rewrite existsb_app in Hc.
    apply orb_true_iff in Hc as [Hc|Hc]; [|discriminate Hc].
    clear Ht Hu. induction staged as [|ev staged IH]; [discriminate Hc|].
    cbn [forallb existsb] in *.
    apply andb_true_iff in Hs as [Hev Hs].
    destruct ev; try discriminate Hev; now apply IH.
  - exists staged. split; [exact Ht|]. split; [exact Hs | exact Hr].
Defined.

(** ** Binary literals read back *)

Lemma hex_value_digit (d : Z) :
  (0 <= d < 16)%Z -> hex_value (hex_digit d) = d.
Proof.
  intros Hd.
  assert (H : (d = 0 \/ d = 1 \/ d = 2 \/ d = 3 \/ d = 4 \/ d = 5 \/ d = 6
               \/ d = 7 \/ d = 8 \/ d = 9 \/ d = 10 \/ d = 11 \/ d = 12
               \/ d = 13 \/ d = 14 \/ d = 15)%Z) by lia.
  repeat (destruct H as [->|H]; [reflexivity|]).
  subst d. reflexivity.
Qed.

Lemma read_le_hex (width : nat) (z : Z) (rest : string) :
  read_le width (hex_le width z ++ rest)
  = Some ((z mod 256 ^ Z.of_nat width)%Z, rest).
Proof.
  revert z. induction width as [|w IH]; intros z.
  - cbn [hex_le read_le]. now rewrite Z.mod_1_r.
  - cbn [hex_le]. rewrite !str_cons_app. cbn [read_le]. rewrite IH.
    pose proof (Z.mod_pos_bound z 256 ltac:(lia)) as Hb.
    rewrite !hex_value_digit.
    + f_equal. f_equal.
      rewrite Nat2Z.inj_succ, Z.pow_succ_r by lia.
      rewrite Z.rem_mul_r by (try apply Z.pow_pos_nonneg; lia).
      pose proof (Z.div_mod (z mod 256) 16 ltac:(lia)). lia.
    + apply Z.mod_pos_bound. lia.
    + split; [apply Z.div_pos; lia | apply Z.div_lt_upper_bound; lia].
Qed.

Lemma pack_int_hex (c : format_char) (z : Z) :
  c = fmt_H \/ c = fmt_i -> in_range c z = true ->
  exists u,
    pack_element c (VInt z) = Ok (hex_le (Z.to_nat (calcsize c)) u)
    /\ from_unsigned c (u mod 256 ^ Z.of_nat (Z.to_nat (calcsize c))) = z.
Proof.
  intros [-> | ->] Hr; cbn [pack_element as_int res_bind in_range] in *;
    rewrite Hr; apply andb_true_iff in Hr as [H1 H2];
    apply Z.leb_le in H1, H2.
  - exists z. split; [reflexivity|]. cbn [from_unsigned calcsize].
    change (256 ^ Z.of_nat (Z.to_nat 2))%Z with 65536%Z.
    apply Z.mod_small. lia.
  - exists (z mod 4294967296)%Z. split; [reflexivity|].
    cbn [from_unsigned calcsize].
    change (256 ^ Z.of_nat (Z.to_nat 4))%Z with 4294967296%Z.
    rewrite Z.mod_mod by lia.
    destruct (Z_lt_le_dec z 0) as [Hneg|Hpos].
    + replace (z mod 4294967296)%Z with (z + 4294967296)%Z.
      2:{ apply (Z.mod_unique _ _ (-1)); lia. }
      replace (z + 4294967296 <? 2147483648)%Z with false
        by (symmetry; apply Z.ltb_ge; lia).
      lia.
    + rewrite Z.mod_small by lia.
      replace (z <? 2147483648)%Z with true
        by (symmetry; apply Z.ltb_lt; lia).
      reflexivity.
Qed.

Lemma unpack_packed (c : format_char) (zs : list Z) (fuel : nat) :
  c = fmt_H \/ c = fmt_i -> forallb (in_range c) zs = true ->
  (length zs <= fuel)%nat ->
  exists packed,
    res_map (pack_element c) (List.map VInt zs) = Ok packed
    /\ unpack c fuel (String.concat "" packed) = Some zs.
Proof.
  intros Hc. revert fuel. induction zs as [|z zs IH]; intros fuel Hr Hlen.
  - exists []. split; [reflexivity|]. now destruct fuel.
  - cbn [forallb] in Hr. apply andb_true_iff in Hr as [Hz Hr].
    destruct fuel as [|fuel]; [simpl in Hlen; lia|].
    destruct (IH fuel Hr) as (packed & Hp & Hu); [simpl in Hlen; lia|].
    destruct (pack_int_hex c z Hc Hz) as (u & Hpack & Hval).
    exists (hex_le (Z.to_nat (calcsize c)) u :: packed). split.
    + cbn [List.map res_map]. rewrite Hpack. cbn [res_bind].
      now rewrite Hp.
    + rewrite concat_cons.
      assert (Hne : exists a s,
                 hex_le (Z.to_nat (calcsize c)) u
                 ++ String.concat "" packed = String a s).
      { destruct Hc as [-> | ->]; cbn [calcsize];
          [change (Z.to_nat 2) with 2%nat | change (Z.to_nat 4) with 4%nat];
          cbn [hex_le]; rewrite str_cons_app; eauto. }
      destruct Hne as (a & s & Hne).
      assert (Hstep : unpack c (S fuel)
                        (hex_le (Z.to_nat (calcsize c)) u
                         ++ String.concat "" packed)
                      = match read_le (Z.to_nat (calcsize c))
                                (hex_le (Z.to_nat (calcsize c)) u
                                 ++ String.concat "" packed) with
                        | Some (u, rest) =>
                            match unpack c fuel rest with
                            | Some zs => Some (from_unsigned c u :: zs)
                            | None => None
                            end
                        | None => None
                        end).
      { rewrite Hne. reflexivity. }
      rewrite Hstep, read_le_hex, Hu, Hval. reflexivity.
Qed.

Lemma str_app_inv_tail (s t u : string) : s ++ u = t ++ u -> s = t.
Proof.
  revert t. induction s as [|a s IH]; intros t H.
  - destruct t as [|b t]; [reflexivity|]. exfalso.
    apply (f_equal String.length) in H.
    rewrite !str_length_app in H. cbn [String.length] in H. lia.
  - destruct t as [|b t].
    + exfalso. apply (f_equal String.length) in H.
      rewrite !str_length_app in H. cbn [String.length] in H. lia.
    + rewrite !str_cons_app in H. injection H as -> H. f_equal.
      now apply IH.
Qed.

(** X18. For the format characters [H] and [i], the literal that
    [_format_array] writes for an array of integers in the range of the
    type holds, two hexadecimal digits per byte and least significant byte
    first ([i] in two's complement), exactly the elements of the array, in
    order; so different arrays get different literals. *)
Theorem format_array_unpacks (c : format_char) (zs : list Z) :
  c = fmt_H \/ c = fmt_i -> forallb (in_range c) zs = true ->
  (exists hex,
      _format_array c (VArray (List.map VInt zs)) = Ok ("x'" ++ hex ++ "'")
      /\ unpack c (String.length hex) hex = Some zs)
  /\ (forall zs',
         forallb (in_range c) zs' = true ->
         _format_array c (VArray (List.map VInt zs'))
         = _format_array c (VArray (List.map VInt zs)) ->
         zs' = zs).
Proof.
  intros Hc Hr.
  assert (Hread : forall l,
             forallb (in_range c) l = true ->
             exists hex,
               _format_array c (VArray (List.map VInt l))
               = Ok ("x'" ++ hex ++ "'")
               /\ unpack c (String.length hex) hex = Some l).
  { intros l Hl.
    destruct (unpack_packed c l (length l) Hc Hl (le_n _))
      as (packed & Hp & _).
    destruct (packed_elements_spec c _ packed Hp) as [Hlen _].
    rewrite length_map in Hlen.
    destruct (unpack_packed c l (String.length (String.concat "" packed))
                Hc Hl) as (packed' & Hp' & Hu).
    { rewrite Hlen. destruct Hc as [-> | ->]; cbn [calcsize]; lia. }
    rewrite Hp in Hp'. injection Hp' as <-.
    exists (String.concat "" packed). split; [|exact Hu].
    cbn [_format_array]. now rewrite Hp. }
  split; [now apply Hread|].
  intros zs' Hr' Heq.
  destruct (Hread zs Hr) as (hex & Hf & Hu).
  destruct (Hread zs' Hr') as (hex' & Hf' & Hu').
  rewrite Hf, Hf' in Heq.
  assert (Hhex : hex' = hex).
  { apply (str_app_inv_tail _ _ "'").
    change ("x'" ++ hex' ++ "'") with (String "x" (String "'" (hex' ++ "'")))
      in Heq.
    change ("x'" ++ hex ++ "'") with (String "x" (String "'" (hex ++ "'")))
      in Heq.
    congruence. }
  subst hex'. congruence.
Qed.

Lemma format_array_unpacks_witness :
  exists hex,
    _format_array fmt_i (VArray (List.map VInt [-2; 258]%Z))
    = Ok ("x'" ++ hex ++ "'")
    /\ unpack fmt_i (String.length hex) hex = Some [-2; 258]%Z.
Proof.
  apply (proj1 (format_array_unpacks fmt_i [-2; 258]%Z
                  (or_intror eq_refl) eq_refl)).
Defined.

(** ** The schema of a table that is read *)

Lemma egest_getType_results (MySQLdb : TypeObjects) (typecode : Z) :
  _egest_getType MySQLdb typecode = Raise NotImplementedError
  \/ _egest_getType MySQLdb typecode = Raise AttributeError
  \/ _egest_getType MySQLdb typecode = Ok (Some py_float).
Proof.
  unfold _egest_getType.
  repeat match goal with
         | |- (if ?b then _ else _) = _ \/ _ => destruct b; [auto|]
         end.
  auto.
Qed.

Lemma egest_makeSchema_fold (MySQLdb : TypeObjects)
    (cols : list ColumnDescription) (keys : list nat)
    (fields : list (string * option pytype)) :
  fold_left
    (fun acc col =>
       let? built := acc in
       let '(keys, fields) := built in
       let? type := _egest_getType MySQLdb (snd col) in
       let '(k, fields) := addField fields (fst col) type in
       Ok ((keys ++ [k])%list, fields))
    cols (Ok (keys, fields))
  = match res_map (_egest_getType MySQLdb) (List.map snd cols) with
    | Ok types =>
        Ok ((keys ++ seq (length fields) (length cols))%list,
            (fields ++ combine (List.map fst cols) types)%list)
    | Raise e => Raise e
    end.
Proof.
  revert keys fields.
  induction cols as [|[name tc] cols IH]; intros keys fields.
  - simpl. now rewrite !app_nil_r.
  - cbn [fold_left res_bind snd fst List.map res_map].
    destruct (_egest_getType MySQLdb tc) as [t|e]; cbn [res_bind].
    + cbn [addField]. rewrite IH.
      destruct (res_map (_egest_getType MySQLdb) (List.map snd cols))
        as [types|e]; cbn [res_bind]; [|reflexivity].
      rewrite length_app. cbn [length combine seq].
      rewrite <- !app_assoc. cbn [app].
      now replace (length fields + 1)%nat with (S (length fields)) by lia.
    + clear IH. induction cols as [|col cols IH]; [reflexivity|].
      cbn [fold_left res_bind]. exact IH.
Qed.

(** The types of the columns are found one after the other: either all
    are [float], or the first column that has none stops the search with
    its exception. *)
Lemma egest_types_cases (MySQLdb : TypeObjects)
    (cols : list ColumnDescription) :
  (exists e pre col post,
      res_map (_egest_getType MySQLdb) (List.map snd cols) = Raise e
      /\ (e = NotImplementedError \/ e = AttributeError)
      /\ cols = (pre ++ col :: post)%list
      /\ Forall (fun col => _egest_getType MySQLdb (snd col)
                            = Ok (Some py_float)) pre
      /\ _egest_getType MySQLdb (snd col) = Raise e)
  \/ (res_map (_egest_getType MySQLdb) (List.map snd cols)
      = Ok (List.map (fun _ => Some py_float) cols)
      /\ Forall (fun col => _egest_getType MySQLdb (snd col)
                            = Ok (Some py_float)) cols).
Proof.
  induction cols as [|[name tc] cols IH].
  - right. split; [reflexivity | constructor].
  - cbn [List.map res_map snd].
    destruct (egest_getType_results MySQLdb tc) as [Ht|[Ht|Ht]].
    + left. exists NotImplementedError, [], (name, tc), cols. rewrite Ht.
      repeat split; auto.
    + left. exists AttributeError, [], (name, tc), cols. rewrite Ht.
      repeat split; auto.
    + rewrite Ht. cbn [res_bind].
      destruct IH as [(e & pre & col & post & H1 & H2 & H3 & H4 & H5)|[H1 H2]];
        rewrite H1; cbn [res_bind].
      * left. exists e, ((name, tc) :: pre), col, post.
        split; [reflexivity|]. split; [exact H2|].
        split; [now rewrite H3|]. split; [now constructor | exact H5].
      * right. split; [reflexivity | now constructor].
Qed.

Lemma combine_fst_const {A B C} (f : A -> B) (c : C) (l : list A) :
  combine (List.map f l) (List.map (fun _ => c) l)
  = List.map (fun x => (f x, c)) l.
Proof.
  induction l as [|x l IH]; [reflexivity|]. simpl. now rewrite IH.
Qed.

(** X19. [_egest_makeSchema] is all or nothing.  When [_egest_getType]
    gives [float] for the type code of every column, it returns one key
    per column, [0 .. n-1], and a schema with one field of type [float]
    per column, in the order and under the names of the columns.
    Otherwise it raises what [_egest_getType] raises for the first column
    that has no type, [NotImplementedError] or [AttributeError], and
    nothing is returned: a schema never has a field without a type. *)
Theorem egest_makeSchema_all_or_nothing (MySQLdb : TypeObjects)
    (rowDescription : list ColumnDescription) :
  (exists e pre col post,
      _egest_makeSchema MySQLdb rowDescription = Raise e
      /\ (e = NotImplementedError \/ e = AttributeError)
      /\ rowDescription = (pre ++ col :: post)%list
      /\ Forall (fun col => _egest_getType MySQLdb (snd col)
                            = Ok (Some py_float)) pre
      /\ _egest_getType MySQLdb (snd col) = Raise e)
  \/ (_egest_makeSchema MySQLdb rowDescription
      = Ok (seq 0 (length rowDescription),
            List.map (fun col => (fst col, Some py_float)) rowDescription)
      /\ Forall (fun col => _egest_getType MySQLdb (snd col)
                            = Ok (Some py_float)) rowDescription).
Proof.
  unfold _egest_makeSchema. rewrite egest_makeSchema_fold.
  cbn [app length].
  destruct (egest_types_cases MySQLdb rowDescription)
    as [(e & pre & col & post & H1 & H2 & H3 & H4 & H5)|[H1 H2]]; rewrite H1.
  - left. exists e, pre, col, post. auto.
  - right. split; [|exact H2]. now rewrite combine_fst_const.
Qed.

(** ** Reading a catalog *)

Lemma egest_types_first_error (MySQLdb : TypeObjects)
    (pre : list ColumnDescription) (col : ColumnDescription)
    (post : list ColumnDescription) (e : exn) :
  Forall (fun col => _egest_getType MySQLdb (snd col) = Ok (Some py_float))
    pre ->
  _egest_getType MySQLdb (snd col) = Raise e ->
  res_map (_egest_getType MySQLdb) (List.map snd (pre ++ col :: post))
  = Raise e.
Proof.
  intros Hpre Hcol. induction Hpre as [|c0 pre Hc0 _ IH].
  - cbn [app List.map res_map]. now rewrite Hcol.
  - cbn [app List.map res_map]. rewrite Hc0. cbn [res_bind]. now rewrite IH.
Qed.

Lemma egest_types_all_float (MySQLdb : TypeObjects)
    (cols : list ColumnDescription) :
  Forall (fun col => _egest_getType MySQLdb (snd col) = Ok (Some py_float))
    cols ->
  res_map (_egest_getType MySQLdb) (List.map snd cols)
  = Ok (List.map (fun _ => Some py_float) cols).
Proof.
  intros H. induction H as [|c0 cols Hc0 _ IH]; [reflexivity|].
  cbn [List.map res_map]. rewrite Hc0. cbn [res_bind]. now rewrite IH.
Qed.

(** X20. Whatever the server answers, [_egest] sends exactly one
    statement, [SELECT * FROM] the quoted table name, which reads back as
    the name given, and then closes the connection; the view name has no
    influence.  The exception of the server is passed on.  When the
    statement has been executed, the first column for whose type code
    [_egest_getType] raises makes the whole call raise that exception; and
    when every column has the type [float], the catalog returned has one
    field of that type per column, in order, and one record per row, the
    values set under the keys [0, 1, ...] as far as keys and values go. *)
Theorem egest_reads_table (ServerState : Type)
    (server_exec : ServerState -> string ->
                   ServerState * res (list (list string)))
    (description : ServerState -> list ColumnDescription)
    (MySQLdb : TypeObjects) (table_name : string) (view_name : option string)
    (c : conn ServerState) :
  let sql := "SELECT * FROM " ++ quote_mysql_identifier table_name in
  let run := _egest server_exec description MySQLdb table_name view_name c in
  trace (fst run) = (trace c ++ [Query sql; Close])%list
  /\ read_quoted_identifier (PyStr.drop 14 sql) = Some (table_name, "")
  /\ run = _egest server_exec description MySQLdb table_name None c
  /\ (forall e, snd (server_exec (server c) sql) = Raise e -> snd run = Raise e)
  /\ (forall rows,
         snd (server_exec (server c) sql) = Ok rows ->
         let cols := description (fst (server_exec (server c) sql)) in
         (forall e pre col post,
             cols = (pre ++ col :: post)%list ->
             Forall (fun col => _egest_getType MySQLdb (snd col)
                                = Ok (Some py_float)) pre ->
             _egest_getType MySQLdb (snd col) = Raise e ->
             snd run = Raise e)
         /\ (Forall (fun col => _egest_getType MySQLdb (snd col)
                                = Ok (Some py_float)) cols ->
             snd run
             = Ok (mkBaseCatalog
                     (List.map (fun col => (fst col, Some py_float)) cols)
                     (List.map (combine (seq 0 (length cols))) rows)))).
Proof.
  intros sql run.
  assert (Hrun : run
                 = let '(s1, r) := server_exec (server c) sql in
                   (mkConn s1 (trace c ++ [Query sql; Close])%list,
                    match r with
                    | Ok rows =>
                        match _egest_makeSchema MySQLdb (description s1) with
                        | Ok (keys, schema) =>
                            Ok (mkBaseCatalog schema
                                  (List.map (fun row => combine keys row) rows))
                        | Raise e => Raise e
                        end
                    | Raise e => Raise e
                    end)).
  { unfold run, _egest. fold sql. rewrite bind_run. unfold execute.
    destruct (server_exec (server c) sql) as [s1 [rows|e]].
    - rewrite bind_lift. cbn [server].
      destruct (_egest_makeSchema MySQLdb (description s1))
        as [[keys schema]|e]; cbn [ret server trace];
        now rewrite <- app_assoc.
    - cbn [server trace]. now rewrite <- app_assoc. }
  split; [|split; [|split; [|split]]].
  - rewrite Hrun. now destruct (server_exec (server c) sql).
  - unfold sql.
    change (PyStr.drop 14
              ("SELECT * FROM " ++ quote_mysql_identifier table_name))
      with (quote_mysql_identifier table_name).
    rewrite <- (str_app_nil_r (quote_mysql_identifier table_name)).
    unfold quote_mysql_identifier. rewrite !str_app_assoc.
    change (read_identifier_body
              (PyStr.replace_char "`" "``" table_name ++ "`" ++ "")
            = Some (table_name, "")).
    now apply read_identifier_body_quoted.
  - destruct view_name as [v|]; [|reflexivity]. reflexivity.
  - intros e He. rewrite Hrun.
    destruct (server_exec (server c) sql) as [s1 r]. cbn [snd] in *.
    now subst r.
  - intros rows Hrows cols. unfold cols. rewrite Hrun.
    destruct (server_exec (server c) sql) as [s1 r]. cbn [fst snd] in *.
    subst r. unfold _egest_makeSchema. rewrite egest_makeSchema_fold.
    split.
    + intros e pre col post Hcols Hpre Hcol.
      now rewrite Hcols, (egest_types_first_error _ pre col post e Hpre Hcol).
    + intros Hall. rewrite (egest_types_all_float _ _ Hall).
      cbn [app length]. now rewrite combine_fst_const.
Qed.

Lemma egest_reads_table_witness :
  snd (_egest accepting_exec (fun _ => two_number_columns) sample_driver
         "t`x" (Some "v") (mkConn tt []))
  = Ok (mkBaseCatalog [("a", Some py_float); ("b", Some py_float)] [])
  /\ snd (_egest accepting_exec (fun _ => [("a", 5%Z); ("s", 253%Z)])
            sample_driver "t`x" None (mkConn tt []))
     = Raise NotImplementedError
  /\ snd (_egest accepting_exec (fun _ => [("a", 5%Z); ("f", 16%Z)])
            sample_driver "t`x" None (mkConn tt []))
     = Raise AttributeError.
Proof.
  split; [|split].
  - destruct (egest_reads_table unit accepting_exec
                (fun _ => two_number_columns) sample_driver "t`x" (Some "v")
                (mkConn tt [])) as (_ & _ & _ & _ & H).
    destruct (H [] eq_refl) as [_ H2]. apply H2.
    repeat constructor.
  - destruct (egest_reads_table unit accepting_exec
                (fun _ => [("a", 5%Z); ("s", 253%Z)]) sample_driver "t`x"
                None (mkConn tt [])) as (_ & _ & _ & _ & H).
    destruct (H [] eq_refl) as [H1 _].
    apply (H1 NotImplementedError [("a", 5%Z)] ("s", 253%Z) []);
      [reflexivity | repeat constructor | reflexivity].
  - destruct (egest_reads_table unit accepting_exec
                (fun _ => [("a", 5%Z); ("f", 16%Z)]) sample_driver "t`x"
                None (mkConn tt [])) as (_ & _ & _ & _ & H).
    destruct (H [] eq_refl) as [H1 _].
    apply (H1 AttributeError [("a", 5%Z)] ("f", 16%Z) []);
      [reflexivity | repeat constructor | reflexivity].
Defined.

(** ** Reading the repository configuration *)

(** X21. A repository configuration that [ButlerRepoCfgFmt.read] returns
    has as its policy what it has as its mapper: the policy is loaded from
    the column of the mapper, and the column [policy] is not looked at.
    The run then consisted of the two [SELECT]s and the close.  When the
    server answers the first [SELECT] with a [ProgrammingError] (no such
    table), [None] is returned and nothing is raised; when the version is
    not 1, a [RuntimeError] is raised; and the connection is closed on
    every way out. *)
Theorem repo_cfg_read_policy (ServerState : Type)
    (server_exec : ServerState -> string ->
                   ServerState * res (list (list string)))
    (obj : Type) (pickle_loads : string -> res obj)
    (table_name host db : string) (port : Z) (c : conn ServerState) :
  let run := ButlerRepoCfgFmt_read server_exec pickle_loads table_name host
               db port c in
  (forall cfg,
      snd run = Ok (Some cfg) ->
      policy cfg = mapper cfg
      /\ trace (fst run)
         = (trace c ++ [Query sVersion_sql; Query _readV1_sql; Close])%list)
  /\ (forall s code,
         server_exec (server c) sVersion_sql
         = (s, Raise (ProgrammingError code)) ->
         run = (mkConn s (trace c ++ [Query sVersion_sql; Close])%list,
                Ok None))
  /\ (forall s v rest more,
         server_exec (server c) sVersion_sql = (s, Ok ((v :: rest) :: more)) ->
         v <> "1" ->
         run = (mkConn s (trace c ++ [Query sVersion_sql; Close])%list,
                Raise (RuntimeError
                         ("Unsupported serilizaion version " ++ v
                          ++ " for repository in database:" ++ db))))
  /\ exists new, trace (fst run) = (trace c ++ new ++ [Close])%list
                 /\ forallb is_query new = true.
Proof.
  intros run. unfold run, ButlerRepoCfgFmt_read, execute.
  destruct (server_exec (server c) sVersion_sql) as [s1 r1] eqn:E1.
  split; [|split; [|split]].
  - intros cfg Hcfg.
    destruct r1 as [result|e]; [|destruct e; discriminate Hcfg].
    destruct result as [|row more]; [discriminate Hcfg|]. cbn [head] in *.
    destruct (cell row 0) as [v|e]; [|discriminate Hcfg].
    destruct (String.eqb v "1"); [|discriminate Hcfg].
    unfold _readV1, execute in *. cbn [server trace] in *.
    destruct (server_exec s1 _readV1_sql) as [s2 [result|e]];
      [|destruct e; discriminate Hcfg].
    unfold lift in *. cbn [fst snd trace] in *.
    split; [|now rewrite <- !app_assoc].
    destruct (head result) as [row2|]; [|discriminate Hcfg].
    destruct (res_bind (cell row2 0) pickle_loads); [|discriminate Hcfg].
    destruct (res_bind (cell row2 1) pickle_loads); [|discriminate Hcfg].
    destruct (res_bind (cell row2 2) pickle_loads); [|discriminate Hcfg].
    destruct (res_bind (cell row2 3) pickle_loads); [|discriminate Hcfg].
    cbn [res_bind] in Hcfg. injection Hcfg as <-. reflexivity.
  - intros s code [= <- ->]. cbn [server trace].
    now rewrite <- app_assoc.
  - intros s v rest more [= <- ->] Hv. cbn [head cell nth_error].
    apply String.eqb_neq in Hv. rewrite Hv. cbn [server trace].
    now rewrite <- app_assoc.
  - assert (Hone : forall r,
               exists new,
                 trace (fst (mkConn (server (mkConn s1 (trace c ++ [Query sVersion_sql])%list))
                               (trace (mkConn s1 (trace c ++ [Query sVersion_sql])%list) ++ [Close])%list,
                             r : res (option (RepositoryCfg obj))))
                 = (trace c ++ new ++ [Close])%list
                 /\ forallb is_query new = true).
    { intros r. exists [Query sVersion_sql]. cbn [fst trace].
      now rewrite <- app_assoc. }
    destruct r1 as [result|e]; [|destruct e; apply Hone].
    destruct (head result) as [row|]; [|apply Hone].
    destruct (cell row 0) as [v|e]; [|apply Hone].
    destruct (String.eqb v "1"); [|apply Hone].
    unfold _readV1, execute. cbn [server trace].
    destruct (server_exec s1 _readV1_sql) as [s2 r2].
    exists [Query sVersion_sql; Query _readV1_sql].
    split; [|reflexivity].
    destruct r2 as [result2|e]; [|destruct e];
      cbn [lift fst trace]; now rewrite <- !app_assoc.
Qed.

Lemma repo_cfg_read_policy_witness :
  snd (ButlerRepoCfgFmt_read scripted_exec (fun s => Ok s) "repositoryCfg"
         "localhost" "repo" 3306
         (mkConn [Ok [["1"]]; Ok [["r"; "m"; "a"; "p"; "q"]]] []))
  = Ok (Some (mkRepositoryCfg "r" "m" "a" "p" "m"))
  /\ policy (mkRepositoryCfg "r" "m" "a" "p" "m")
     = mapper (mkRepositoryCfg "r" "m" "a" "p" "m").
Proof.
  split; [reflexivity|].
  apply (proj1 (repo_cfg_read_policy _ scripted_exec string (fun s => Ok s)
                  "repositoryCfg" "localhost" "repo" 3306
                  (mkConn [Ok [["1"]]; Ok [["r"; "m"; "a"; "p"; "q"]]] []))
           (mkRepositoryCfg "r" "m" "a" "p" "m")).
  reflexivity.
Defined.

(** ** The storage *)

(** X22. A class can be registered once: [registerFormatter] raises
    [RuntimeError] for a class that has a formatter, whatever formatter is
    offered (the one registered included), and leaves the registry as it
    is; its message names the formatter offered where it announces the
    formattable class, and its first place holder is left as it is.  After
    a registration [_getFormatter] finds the formatter for that class and
    what it found before for every other class.  [MySqlStorage.write] for a
    class without a formatter raises [RuntimeError] and does not touch the
    connection. *)
Theorem register_formatter_once (formatters : gmap pyclass pyclass)
    (formattable formatter : pyclass) :
  (forall registered,
      _getFormatter formatters formattable = Some registered ->
      registerFormatter formatters formattable formatter
      = Raise (RuntimeError
                 ("Registration of second formatter {} for formattable class "
                  ++ formatter)))
  /\ (_getFormatter formatters formattable = None ->
      exists formatters',
        registerFormatter formatters formattable formatter = Ok formatters'
        /\ _getFormatter formatters' formattable = Some formatter
        /\ (forall other, other <> formattable ->
                          _getFormatter formatters' other
                          = _getFormatter formatters other)
        /\ forall again,
             registerFormatter formatters' formattable again
             = Raise (RuntimeError
                        ("Registration of second formatter {} for "
                         ++ "formattable class " ++ again)))
  /\ (forall (ServerState Obj : Type)
             (formatter_write :
                pyclass -> Obj -> string -> string -> string -> Z ->
                option string -> M ServerState unit)
             self str_self locationList obj c,
         _getFormatter formatters formattable = None ->
         exists msg,
           MySqlStorage_write formatter_write self str_self formatters
             formattable locationList obj c
           = (c, Raise (RuntimeError msg))).
Proof.
  unfold _getFormatter, registerFormatter. split; [|split].
  - intros registered ->. reflexivity.
  - intros ->. eexists. split; [reflexivity|].
    split; [apply lookup_insert_eq|]. split.
    + intros other Hne. now apply lookup_insert_ne.
    + intros again. now rewrite lookup_insert_eq.
  - intros ServerState Obj formatter_write self str_self locationList obj c H.
    unfold MySqlStorage_write, _getFormatter. rewrite H.
    eexists. reflexivity.
Qed.

Lemma register_formatter_once_witness :
  registerFormatter {[ "RepositoryCfg" := "ButlerRepoCfgFmt" ]}
    "RepositoryCfg" "ButlerRepoCfgFmt"
  = Raise (RuntimeError
             ("Registration of second formatter {} for formattable class "
              ++ "ButlerRepoCfgFmt"))
  /\ exists formatters',
       registerFormatter ∅ "RepositoryCfg" "ButlerRepoCfgFmt"
       = Ok formatters'
       /\ _getFormatter formatters' "RepositoryCfg" = Some "ButlerRepoCfgFmt".
Proof.
  split.
  - apply (proj1 (register_formatter_once
                    {[ "RepositoryCfg" := "ButlerRepoCfgFmt" ]}
                    "RepositoryCfg" "ButlerRepoCfgFmt") "ButlerRepoCfgFmt").
    apply lookup_singleton_eq.
  - destruct (proj1 (proj2 (register_formatter_once ∅ "RepositoryCfg"
                              "ButlerRepoCfgFmt")))
      as (fs & H1 & H2 & _); [apply lookup_empty|].
    exists fs. split; [exact H1 | exact H2].
Defined.

Lemma read_unquoted_identifier (field rest : string) :
  PyStr.contains_char "`" field = false -> starts_with "`" rest = false ->
  read_quoted_identifier (("`" ++ field ++ "`") ++ rest) = Some (field, rest).
Proof.
  intros Hf Hrest. rewrite !str_app_assoc.
  change (read_identifier_body (field ++ "`" ++ rest) = Some (field, rest)).
  rewrite <- (replace_char_absent "`" "``" field Hf) at 1.
  now apply read_identifier_body_quoted.
Qed.

(** X23. [copyFile] sends nothing when one of the names holds a
    back-tick and raises the error of [identifierQuote]; otherwise it
    sends exactly one statement, in which both names stand between
    back-ticks and read back as given (a [;] or a quote in a name stays
    inside the quotes), and passes on the exception of the server if there
    is one; the connection is closed on every way out.  [_createDb] sends
    nothing when the name of the database holds a [;] and raises the error
    of the statement check; any other name is put into the statement as it
    is, without quotes. *)
Theorem storage_statements (ServerState : Type)
    (server_exec : ServerState -> string ->
                   ServerState * res (list (list string)))
    (fromLocation toLocation : string) (self : MySqlStorage)
    (c : conn ServerState) :
  (PyStr.contains_char "`" toLocation || PyStr.contains_char "`" fromLocation
   = true ->
   copyFile server_exec fromLocation toLocation c
   = (mkConn (server c) (trace c ++ [Close])%list,
      Raise (RuntimeError "Illegal ` character in field.")))
  /\ (PyStr.contains_char "`" toLocation
      || PyStr.contains_char "`" fromLocation = false ->
      exists sql rest,
        trace (fst (copyFile server_exec fromLocation toLocation c))
        = (trace c ++ [Query sql; Close])%list
        /\ PyStr.startswith sql "CREATE TABLE IF NOT EXISTS " = true
        /\ read_quoted_identifier (PyStr.drop 27 sql) = Some (toLocation, rest)
        /\ read_quoted_identifier (PyStr.drop 34 rest)
           = Some (fromLocation, ";")
        /\ snd (copyFile server_exec fromLocation toLocation c)
           = match snd (server_exec (server c) sql) with
             | Ok _ => Ok tt
             | Raise e => Raise e
             end)
  /\ (PyStr.contains_char ";" (repoDbName self) = true ->
      _createDb server_exec self c = (c, Raise (RuntimeError "Illegal SQL.")))
  /\ (PyStr.contains_char ";" (repoDbName self) = false ->
      trace (fst (_createDb server_exec self c))
      = (trace c ++ [Query ("CREATE DATABASE IF NOT EXISTS "
                            ++ repoDbName self)])%list).
Proof.
  split; [|split; [|split]].
  - intros H. unfold copyFile, identifierQuote. rewrite bind_lift.
    destruct (PyStr.contains_char "`" toLocation); [reflexivity|].
    rewrite bind_lift. simpl in H. now rewrite H.
  - intros H. apply orb_false_iff in H as [Hto Hfrom].
    set (rest := nl ++ "                AS SELECT * FROM "
                 ++ ("`" ++ fromLocation ++ "`") ++ ";").
    exists ("CREATE TABLE IF NOT EXISTS " ++ ("`" ++ toLocation ++ "`")
            ++ rest), rest.
    unfold copyFile, identifierQuote. rewrite Hto, Hfrom, !bind_lift.
    rewrite bind_run. unfold execute. fold rest.
    destruct (server_exec (server c) _) as [s1 [rows|e]];
      cbn [fst snd ret server trace];
      (split; [now rewrite <- app_assoc|]);
      (split; [apply prefix_app|]);
      (split; [|split; [|reflexivity]]).
    all: try (change 27%nat with (String.length "CREATE TABLE IF NOT EXISTS ");
              rewrite drop_app; apply read_unquoted_identifier;
              [exact Hto | reflexivity]).
    all: unfold rest;
      change (PyStr.drop 34
                (nl ++ "                AS SELECT * FROM "
                 ++ ("`" ++ fromLocation ++ "`") ++ ";"))
        with (("`" ++ fromLocation ++ "`") ++ ";");
      apply read_unquoted_identifier; [exact Hfrom | reflexivity].
  - intros H. unfold _createDb, _testSqlIsClean. rewrite H.
    now rewrite bind_lift.
  - intros H. unfold _createDb, _testSqlIsClean. rewrite H, bind_lift.
    rewrite bind_run. unfold execute.
    now destruct (server_exec (server c) _) as [s1 [rows|e]].
Qed.

Lemma storage_statements_witness :
  copyFile accepting_exec "a`b" "dest" (mkConn tt [])
  = (mkConn tt [Close], Raise (RuntimeError "Illegal ` character in field."))
  /\ (exists sql rest,
         trace (fst (copyFile accepting_exec "a;b" "dest" (mkConn tt [])))
         = [Query sql; Close]
         /\ read_quoted_identifier (PyStr.drop 27 sql) = Some ("dest", rest)
         /\ read_quoted_identifier (PyStr.drop 34 rest) = Some ("a;b", ";"))
  /\ _createDb accepting_exec (mkMySqlStorage "localhost" 3306 "x;y")
       (mkConn tt [])
     = (mkConn tt [], Raise (RuntimeError "Illegal SQL.")).
Proof.
  split; [|split].
  - apply (proj1 (storage_statements unit accepting_exec "a`b" "dest"
                    (mkMySqlStorage "localhost" 3306 "x;y") (mkConn tt []))).
    reflexivity.
  - destruct (proj1 (proj2 (storage_statements unit accepting_exec "a;b"
                              "dest" (mkMySqlStorage "localhost" 3306 "x;y")
                              (mkConn tt [])))) as (sql & rest & H1 & _ & H3 & H4 & _);
      [reflexivity|].
    exists sql, rest. split; [exact H1|]. split; [exact H3 | exact H4].
  - apply (proj1 (proj2 (proj2 (storage_statements unit accepting_exec "a;b"
                                  "dest"
                                  (mkMySqlStorage "localhost" 3306 "x;y")
                                  (mkConn tt []))))).
    reflexivity.
Defined.

(** ** The table, the statement prefix and the rows agree *)







(** ** Angles *)

(** X25. The formatter of [Angle] writes the angle in degrees, that is
    the radians divided by the binary64 number nearest to pi / 180 and
    rounded to binary64, with 17 significant digits: the literal reads
    back as a decimal number of 17 digits within half a unit of the last
    of them of that number of degrees.  An angle of zero is written [0] or
    [-0], and what is not an angle raises [AttributeError]; the column is
    a [DOUBLE]. *)
Theorem angle_formatter_degrees (f : FieldFormatter) (radians : spec_float)
    (neg : bool) (m : positive) (e : Z) :
  field_formatters !! "Angle" = Some f ->
  asDegrees radians = S754_finite neg m e ->
  reads_back_within 17 neg (fst (PyNum.dyadic m e)) (snd (PyNum.dyadic m e))
    (format_value f (Some (VAngle radians)))
  /\ format_value f (Some (VAngle (S754_zero neg)))
     = Ok (if neg then "-0" else "0")
  /\ (forall x, format_value f (Some (VFloat x)) = Raise AttributeError)
  /\ (forall field, sql_type f field = Ok "DOUBLE").
Proof.
  intros Hf Hdeg.
  assert (f = mkFieldFormatter (fun _ => Ok "DOUBLE") format_angle)
    as -> by (apply (inj Some); rewrite <- Hf; reflexivity).
  split; [|split; [|split]].
  - cbn [format_value format_value_callable format_angle _format_number].
    rewrite Hdeg. cbn [PyNum.isnan PyNum.isinf orb].
    apply (format_g_reads_back 17 neg m e). lia.
  - now destruct neg.
  - reflexivity.
  - reflexivity.
Qed.

Lemma angle_formatter_degrees_witness :
  reads_back_within 17 false
    (fst (PyNum.dyadic 8063664102031864 (-47)))
    (snd (PyNum.dyadic 8063664102031864 (-47)))
    (format_value (mkFieldFormatter (fun _ => Ok "DOUBLE") format_angle)
       (Some (VAngle (S754_finite false 1 0)))).
Proof.
  apply (proj1 (angle_formatter_degrees
                  (mkFieldFormatter (fun _ => Ok "DOUBLE") format_angle)
                  (S754_finite false 1 0) false 8063664102031864 (-47)
                  eq_refl ltac:(vm_compute; reflexivity))).
Defined.
